(** * salesforce-alm: manifest members and package installation

    A shallow embedding of two classes of the repository,

    - [MdapiPackage] (the [addMember] operation that fills the [types]
      array of a package manifest), and
    - [PackageInstallCommand] (retry budgets, the construction of the
      [PackageInstallRequest] payload, the confirmation prompts, the
      polling loop and the result message),

    together with the properties stated about them.

    JavaScript strings are embedded as [string]; a character stands for
    one code unit below 256.  JavaScript numbers are doubles ([Numbers]);
    the retries that [poll] counts down and the API version of an org are
    kept as the rationals they are. *)

From Stdlib Require Import List String Ascii Bool Arith ZArith Lia.
From Stdlib Require Import QArith Qround Qabs Qpower Qreduction Lqa SpecFloat.
From Stdlib Require Import DecimalString Sorted Permutation.
Import ListNotations.

Close Scope Q_scope.
Local Open Scope string_scope.
Local Open Scope list_scope.

(** ** Errors and results of fallible code *)

(** Message lookup lives outside the two classes.  A message is kept as the
    call that produces it: a string built in place, a lookup
    [messages.getMessage(key, tokens, bundle)] in the old-style bundles (a
    single token stands for the one-element array), or a lookup
    [packagingMessages.getMessage(key)]. *)
Inductive Message : Type :=
| Text (s : string)
| Lookup (key : string) (tokens : list string) (bundle : string)
| PackagingLookup (key : string).

(** What a [throw] carries: [new Error(msg)], the [TypeError] raised by the
    runtime when a property of [undefined] is read or [undefined] is called,
    and the keyed errors built by [almError]. *)
Inductive JsError : Type :=
| Error (msg : Message)
| TypeError
| almError (key : string).

Inductive Result (A : Type) : Type :=
| Ok (a : A)
| Throw (e : JsError).
Arguments Ok {A} a.
Arguments Throw {A} e.

(** ** String primitives used by the source *)

Module Str.

(** The white space removed by [String.prototype.trim], for code units
    below 256: TAB, LF, VT, FF, CR, SP and NBSP. *)
Definition isWhite (c : ascii) : bool :=
  let n := nat_of_ascii c in
  (((9 <=? n) && (n <=? 13)) || (n =? 32) || (n =? 160))%nat.

Fixpoint trimStart (s : string) : string :=
  match s with
  | EmptyString => EmptyString
  | String c r => if isWhite c then trimStart r else s
  end.

Fixpoint trimEnd (s : string) : string :=
  match s with
  | EmptyString => EmptyString
  | String c r =>
      match trimEnd r with
      | EmptyString => if isWhite c then EmptyString else String c EmptyString
      | r' => String c r'
      end
  end.

(** [s.trim()] *)
Definition trim (s : string) : string := trimEnd (trimStart s).

(** [s.split(sep)] for a one-character separator: the segments between
    the occurrences of [sep]; never an empty array. *)
Fixpoint split (sep : ascii) (s : string) : list string :=
  match s with
  | EmptyString => [EmptyString]
  | String c r =>
      if Ascii.eqb c sep then EmptyString :: split sep r
      else match split sep r with
           | seg :: segs => String c seg :: segs
           | [] => [String c EmptyString]
           end
  end.

Definition backslash : ascii := "\"%char.
Definition slash : ascii := "/"%char.

(** [s.replace(/\\/g, '/')] *)
Fixpoint replaceBackslashes (s : string) : string :=
  match s with
  | EmptyString => EmptyString
  | String c r =>
      String (if Ascii.eqb c backslash then slash else c) (replaceBackslashes r)
  end.

(** The character [c] occurs in [s]. *)
Fixpoint occurs (c : ascii) (s : string) : bool :=
  match s with
  | EmptyString => false
  | String d r => Ascii.eqb d c || occurs c r
  end.

(** Truthiness of a string value: only the empty string is falsy. *)
Definition truthy (s : string) : bool := negb (s =? "").

(** [s.toUpperCase()], on the letters a-z.  The callers only compare the
    result with "YES" and "Y", and no other code unit below 256 maps to
    one of the letters Y and E, nor to a single S. *)
Definition upperChar (c : ascii) : ascii :=
  let n := nat_of_ascii c in
  if ((97 <=? n) && (n <=? 122))%nat then ascii_of_nat (n - 32) else c.

Fixpoint toUpperCase (s : string) : string :=
  match s with
  | EmptyString => EmptyString
  | String c r => String (upperChar c) (toUpperCase r)
  end.

(** [s.startsWith(p)] *)
Definition startsWith (s p : string) : bool := String.prefix p s.

(** [parts.join(sep)] *)
Definition join (sep : string) (parts : list string) : string :=
  String.concat sep parts.

(** The decimal rendering of a natural number in a template literal. *)
Definition ofNat (n : nat) : string := NilZero.string_of_uint (Nat.to_uint n).

End Str.

(** ** MdapiPackage *)

Module MdapiPackage.

(** One element of [Package.types]: [{ name, members }], where [members]
    may still be undefined. *)
Record TypeEntry : Type := mkType {
  name : string;
  members : option (list string)
}.

Record Package : Type := mkPackage {
  xmlns : string;
  version : option string;
  fullName : option string;
  types : list TypeEntry
}.

Definition withTypes (p : Package) (ts : list TypeEntry) : Package :=
  {| xmlns := xmlns p; version := version p; fullName := fullName p; types := ts |}.

(** The [Package] built by the constructor, before [setVersion]. *)
Definition emptyPackage : Package :=
  {| xmlns := "http://soap.sforce.com/2006/04/metadata";
     version := None; fullName := None; types := [] |}.

(** [types.find(elementType => elementType.name === type)], returning the
    found object together with its place in the array, so that the
    mutation of the found object can be written back where it lives. *)
Fixpoint locate (ty : string) (ts : list TypeEntry)
  : option (list TypeEntry * TypeEntry * list TypeEntry) :=
  match ts with
  | [] => None
  | e :: r =>
      if name e =? ty then Some ([], e, r)
      else match locate ty r with
           | Some (pre, x, post) => Some (e :: pre, x, post)
           | None => None
           end
  end.

Definition isBundleType (ty : string) : bool :=
  (ty =? "AuraDefinitionBundle") || (ty =? "LightningComponentBundle")
  || (ty =? "WaveTemplateBundle").

(** The name that is stored for [fullName] under [type]: trimmed, cut to
    its first segment for the bundle types, and with forward slashes
    unless the type is Layout.  [sep] is [path.sep]. *)
Definition storedName (sep : ascii) (fullName ty : string) : string :=
  let fullNameTrimmed := Str.trim fullName in
  let fullNameTrimmed :=
    if isBundleType ty then hd EmptyString (Str.split sep fullNameTrimmed)
    else fullNameTrimmed in
  if negb (ty =? "Layout") then Str.replaceBackslashes fullNameTrimmed
  else fullNameTrimmed.

(** The tail of [addMember] on the located (or created) [localType]:
    create [members] when missing, look the name up, push it unless the
    looked-up value is truthy. *)
Definition pushMember (m : string) (localType : TypeEntry) : TypeEntry :=
  let ms := match members localType with Some ms => ms | None => [] end in
  let member := find (fun memberElement => memberElement =? m) ms in
  let absent := match member with
                | Some x => negb (Str.truthy x)
                | None => true
                end in
  {| name := name localType;
     members := Some (if absent then ms ++ [m] else ms) |}.

(** [addMember(fullName, type)]; [None] stands for [null]/[undefined]. *)
Definition addMember (sep : ascii) (p : Package) (fullName type : option string)
  : Result Package :=
  match fullName with
  | None => Throw (almError "fullNameIsRequired")
  | Some fullName =>
      if (String.length (Str.trim fullName) =? 0)%nat
      then Throw (almError "fullNameIsRequired")
      else
        match type with
        | None => Throw (almError "metadataTypeIsRequired")
        | Some type =>
            if (String.length (Str.trim type) =? 0)%nat
            then Throw (almError "metadataTypeIsRequired")
            else
              let m := storedName sep fullName type in
              match locate type (types p) with
              | Some (pre, localType, post) =>
                  Ok (withTypes p (pre ++ pushMember m localType :: post))
              | None =>
                  let localType := {| name := Str.trim type; members := None |} in
                  Ok (withTypes p (types p ++ [pushMember m localType]))
              end
        end
  end.

(** [addMember] twice with the same arguments. *)
Definition addMemberTwice (sep : ascii) (p : Package) (fullName type : option string)
  : Result Package :=
  match addMember sep p fullName type with
  | Ok p' => addMember sep p' fullName type
  | Throw e => Throw e
  end.

(** All members of an entry ([[]] while [members] is undefined). *)
Definition membersOf (e : TypeEntry) : list string :=
  match members e with Some ms => ms | None => [] end.

(** Every member stored under a type other than Layout is free of
    backslashes. *)
Definition forwardSlashed (ts : list TypeEntry) : Prop :=
  forall e, In e ts -> name e <> "Layout" ->
    forall m, In m (membersOf e) -> Str.occurs Str.backslash m = false.

(** After [addMember] under a bundle type [ty], the entry named [ty]
    holds [seg] with forward slashes, where [seg] is the part of the
    trimmed [fullName] before the first [sep]; and whatever else [types']
    holds was in [types] before, under the same type name. *)
Definition storesFirstSegment (sep : ascii) (types types' : list TypeEntry)
    (fullName ty : string) : Prop :=
  exists seg rest,
    Str.trim fullName = (seg ++ rest)%string
    /\ Str.occurs sep seg = false
    /\ (rest = EmptyString \/ exists r, rest = String sep r)
    /\ (exists e, In e types' /\ name e = ty
                  /\ In (Str.replaceBackslashes seg) (membersOf e))
    /\ (forall e' m', In e' types' -> In m' (membersOf e') ->
          m' = Str.replaceBackslashes seg
          \/ exists e, In e types /\ name e = name e' /\ In m' (membersOf e)).

(** *** Objects used as maps *)

(** A plain object as the list of its own properties, in the order in
    which they were first set. *)
Definition Obj (V : Type) : Type := list (string * V).

(** The own property [k] of [o]. *)
Fixpoint objGet {V : Type} (o : Obj V) (k : string) : option V :=
  match o with
  | [] => None
  | (k', v) :: r => if k' =? k then Some v else objGet r k
  end.

(** [o[k] = v] for an own data property: an existing property keeps its
    place. *)
Fixpoint objSet {V : Type} (k : string) (v : V) (o : Obj V) : Obj V :=
  match o with
  | [] => [(k, v)]
  | (k', v') :: r => if k' =? k then (k, v) :: r else (k', v') :: objSet k v r
  end.

(** The property key that a value stands for; [undefined] stands for the
    key "undefined". *)
Definition propertyKey (v : option string) : string :=
  match v with Some s => s | None => "undefined" end.

(** The loop of [zipObject] from index [i] on.  A value is a string or
    [undefined] ([None]); assigning one to [__proto__] sets no property. *)
Fixpoint zipObjectFrom (i : nat) (propsArray valuesArray : list string)
    (acc : Obj (option string)) : Obj (option string) :=
  match propsArray with
  | [] => acc
  | prop :: rest =>
      zipObjectFrom (S i) rest valuesArray
        (if prop =? "__proto__" then acc
         else objSet prop (nth_error valuesArray i) acc)
  end.

(** [zipObject(propsArray, valuesArray)] on arrays of strings. *)
Definition zipObject (propsArray valuesArray : list string) : Obj (option string) :=
  zipObjectFrom 0 propsArray valuesArray [].

Definition folderMetadataTypes : list string :=
  ["ReportFolder"; "DashboardFolder"; "DocumentFolder"; "EmailFolder"].
Definition folderChildMetadataTypes : list string :=
  ["Report"; "Dashboard"; "Document"; "EmailTemplate"].

(** [array.includes(s)], and [array.indexOf(s) >= 0], on strings. *)
Definition includes (array : list string) (s : string) : bool :=
  existsb (fun x => x =? s) array.

(** What reading [o[k]] gives: the value of the own property, something
    inherited from [Object.prototype], or [undefined]. *)
Inductive Read : Type :=
| Value (s : string)
| Undefined
| Inherited.

(** [o[k]], where [inherited] tells the property names of
    [Object.prototype]. *)
Definition objRead (inherited : string -> bool) (o : Obj (option string)) (k : string)
  : Read :=
  match objGet o k with
  | Some (Some s) => Value s
  | Some None => Undefined
  | None => if inherited k then Inherited else Undefined
  end.

(** [MdapiPackage.convertFolderTypeKey(type)] *)
Definition convertFolderTypeKey (inherited : string -> bool) (type : string) : Read :=
  let folderTypeMap := zipObject folderChildMetadataTypes folderMetadataTypes in
  objRead inherited folderTypeMap type.

(** *** setVersion, setPackageName, isEmpty, the constructor *)

(** One element of a regular expression: a class of characters, taken once
    or, when starred, any number of times. *)
Record Item : Type := { accepts : ascii -> bool; starred : bool }.

(** The pattern matches a prefix of [s]. *)
Fixpoint matchHere (pattern : list Item) (s : string) {struct pattern} : bool :=
  match pattern with
  | [] => true
  | item :: rest =>
      if starred item then
        (fix star (s : string) : bool :=
           matchHere rest s
           || match s with
              | String c r => accepts item c && star r
              | EmptyString => false
              end) s
      else
        match s with
        | String c r => accepts item c && matchHere rest r
        | EmptyString => false
        end
  end.

(** The pattern matches somewhere in [s]: [s.match(pattern)] is not null. *)
Fixpoint matchAnywhere (pattern : list Item) (s : string) : bool :=
  matchHere pattern s
  || match s with
     | String _ r => matchAnywhere pattern r
     | EmptyString => false
     end.

Definition isDigit (c : ascii) : bool :=
  let n := nat_of_ascii c in ((48 <=? n) && (n <=? 57))%nat.

(** The line terminators below 256, which the dot does not match. *)
Definition isLineTerminator (c : ascii) : bool :=
  let n := nat_of_ascii c in ((n =? 10) || (n =? 13))%nat.

(** [/[0-9]*.0/] *)
Definition versionPattern : list Item :=
  [ {| accepts := isDigit; starred := true |};
    {| accepts := fun c => negb (isLineTerminator c); starred := false |};
    {| accepts := fun c => Ascii.eqb c "0"; starred := false |} ].

(** [setVersion(version)] *)
Definition setVersion (version : option string) (p : Package) : Result Package :=
  match version with
  | None => Ok p
  | Some v =>
      if matchAnywhere versionPattern v
      then Ok {| xmlns := xmlns p; version := Some v; fullName := fullName p;
                 types := types p |}
      else Throw (almError "invalidVersionString")
  end.

(** [setPackageName(packageName)] *)
Definition setPackageName (packageName : option string) (p : Package) : Package :=
  {| xmlns := xmlns p; version := version p; fullName := packageName; types := types p |}.

(** [isEmpty()] *)
Definition isEmpty (p : Package) : bool := (List.length (types p) <? 1)%nat.

(** The constructor, given [config.getAppConfig().sourceApiVersion] and
    [config.getApiVersion()]. *)
Definition constructor (configSourceApiVersion apiVersion : option string)
  : Result Package :=
  let version := match configSourceApiVersion with
                 | Some v => Some v
                 | None => apiVersion
                 end in
  setVersion version emptyPackage.

(** *** getPackage *)

(** The elements of the manifest own their [members] arrays, as the ones
    that [addMember] builds do; an element is then known by its value. *)

(** The first loop of
    [_mergeFolderMembersUnderFolderChildAndUpdateSharingRules]: the folder
    elements and the folder child elements by name, the last of a name
    winning. *)
Fixpoint collectFolders (elements : list TypeEntry) (folders children : Obj TypeEntry)
  : Obj TypeEntry * Obj TypeEntry :=
  match elements with
  | [] => (folders, children)
  | element :: rest =>
      if includes folderMetadataTypes (name element)
      then collectFolders rest (objSet (name element) element folders) children
      else if includes folderChildMetadataTypes (name element)
      then collectFolders rest folders (objSet (name element) element children)
      else collectFolders rest folders children
  end.

Definition FOLDER_TO_CHILD_METADATA_TYPE_MAP : Obj (option string) :=
  zipObject folderMetadataTypes folderChildMetadataTypes.

(** The second loop, over the folder elements by key: the members of a
    folder element are pushed onto the members of the child element of its
    type, or become a new child element.  Reading [members] of the child
    element or spreading the members of the folder element fails when they
    are undefined.  The name of a new element is
    [FOLDER_TO_CHILD_METADATA_TYPE_MAP[folderMetadataType]], which is a
    string for every key that the first loop sets. *)
Fixpoint mergeFolders (folders : list (string * TypeEntry)) (children : Obj TypeEntry)
    (newFolderChildManifestElements : list TypeEntry)
  : Result (Obj TypeEntry * list TypeEntry) :=
  match folders with
  | [] => Ok (children, newFolderChildManifestElements)
  | (folderMetadataType, folderManifestElement) :: rest =>
      let folderChildMetadataType :=
        match objGet FOLDER_TO_CHILD_METADATA_TYPE_MAP folderMetadataType with
        | Some v => v
        | None => None
        end in
      match objGet children (propertyKey folderChildMetadataType) with
      | Some folderChildManifestElement =>
          match members folderChildManifestElement, members folderManifestElement with
          | Some childMembers, Some folderMembers =>
              mergeFolders rest
                (objSet (propertyKey folderChildMetadataType)
                   {| name := name folderChildManifestElement;
                      members := Some (childMembers ++ folderMembers) |}
                   children)
                newFolderChildManifestElements
          | _, _ => Throw TypeError
          end
      | None =>
          mergeFolders rest children
            (newFolderChildManifestElements
             ++ [ {| name := propertyKey folderChildMetadataType;
                     members := members folderManifestElement |} ])
      end
  end.

(** The third loop: folder elements are left out, a folder child element is
    replaced by the element kept for its name, an element of a sharing
    entity becomes one element per sharing entity, any other element is
    kept. *)
Fixpoint updateElements (sharingEntities : list string) (children : Obj TypeEntry)
    (elements : list TypeEntry) : list (option TypeEntry) :=
  match elements with
  | [] => []
  | element :: rest =>
      (if includes folderMetadataTypes (name element) then []
       else if includes folderChildMetadataTypes (name element)
       then [objGet children (name element)]
       else if includes sharingEntities (name element)
       then map (fun sharingEntity =>
                   Some {| name := sharingEntity; members := members element |})
                sharingEntities
       else [Some element])
      ++ updateElements sharingEntities children rest
  end.

(** [_mergeFolderMembersUnderFolderChildAndUpdateSharingRules]; the
    registry is given by [typeDefs.SharingRules.childXmlNames]. *)
Definition mergeFolderMembers (inputManifestElements : list TypeEntry)
    (metadataRegistry : option (list string)) : Result (list (option TypeEntry)) :=
  let (folderManifestElements, folderChildManifestElements) :=
    collectFolders inputManifestElements [] [] in
  match mergeFolders folderManifestElements folderChildManifestElements [] with
  | Throw e => Throw e
  | Ok (folderChildManifestElements, newFolderChildManifestElements) =>
      let sharingEntities := match metadataRegistry with
                             | Some childXmlNames => childXmlNames
                             | None => []
                             end in
      Ok (updateElements sharingEntities folderChildManifestElements inputManifestElements
          ++ map Some newFolderChildManifestElements)
  end.

(** [members.sort()]: the strings in ascending order of their code units.
    The order is total and antisymmetric, so the sorted array does not
    depend on how it is sorted. *)
Fixpoint insertSorted (x : string) (sorted : list string) : list string :=
  match sorted with
  | [] => [x]
  | y :: rest => if (x <=? y)%string then x :: sorted else y :: insertSorted x rest
  end.

Definition sort (ms : list string) : list string := fold_right insertSorted [] ms.

(** The loop of [getPackage]: [type.members.sort()] for each type, which
    fails on a type or on members that are undefined. *)
Fixpoint sortMembers (types : list (option TypeEntry)) : Result (list TypeEntry) :=
  match types with
  | [] => Ok []
  | None :: _ => Throw TypeError
  | Some type :: rest =>
      match members type with
      | None => Throw TypeError
      | Some ms =>
          match sortMembers rest with
          | Ok sorted => Ok ({| name := name type; members := Some (sort ms) |} :: sorted)
          | Throw e => Throw e
          end
      end
  end.

(** [getPackage(metadataRegistry)], as the package it leaves and returns. *)
Definition getPackage (metadataRegistry : option (list string)) (p : Package)
  : Result Package :=
  match mergeFolderMembers (types p) metadataRegistry with
  | Throw e => Throw e
  | Ok merged =>
      match sortMembers merged with
      | Throw e => Throw e
      | Ok sorted => Ok (withTypes p sorted)
      end
  end.

(** *** Notions used to state what the operations do *)

(** Every character of [s] is white space. *)
Fixpoint blank (s : string) : bool :=
  match s with
  | EmptyString => true
  | String c r => Str.isWhite c && blank r
  end.

(** A name that [addMember] refuses: null, undefined, or blank. *)
Definition missing (v : option string) : bool :=
  match v with Some s => blank s | None => true end.

(** [e'] is [e] with members added at the end. *)
Definition extends (e e' : TypeEntry) : Prop :=
  name e' = name e /\ exists added, membersOf e' = membersOf e ++ added.

(** No member occurs twice under one type. *)
Definition distinctMembers (ts : list TypeEntry) : Prop :=
  forall e, In e ts -> NoDup (membersOf e).

(** The strings of [ms] ascend. *)
Definition ascending (ms : list string) : Prop :=
  forall i a b, nth_error ms i = Some a -> nth_error ms (S i) = Some b ->
                (a <=? b)%string = true.

(** The type under which [getPackage] lists the members of an element: the
    folder child type for a folder type, the type itself otherwise. *)
Definition listedUnder (type : string) : string :=
  match objGet FOLDER_TO_CHILD_METADATA_TYPE_MAP type with
  | Some (Some child) => child
  | _ => type
  end.

(** An element that [getPackage] neither merges nor multiplies: its type
    is no folder type, no folder child type and no sharing entity. *)
Definition plainElement (sharingEntities : list string) (e : TypeEntry) : Prop :=
  includes folderMetadataTypes (name e) = false
  /\ includes folderChildMetadataTypes (name e) = false
  /\ includes sharingEntities (name e) = false.

(** The sharing entities of a registry. *)
Definition sharingEntitiesOf (metadataRegistry : option (list string)) : list string :=
  match metadataRegistry with Some childXmlNames => childXmlNames | None => [] end.

(** An element with its members sorted. *)
Definition withSortedMembers (e : TypeEntry) : TypeEntry :=
  {| name := name e; members := Some (sort (membersOf e)) |}.

(** All the members of a list of types. *)
Definition allMembers (ts : list TypeEntry) : list string := flat_map membersOf ts.

(** The members of [v] are among [known]. *)
Definition membersAmong (known : list string) (v : TypeEntry) : Prop :=
  incl (membersOf v) known.

(** [a] is not above [b]. *)
Definition lebT (a b : string) : Prop := (a <=? b)%string = true.

(** No element kept for a folder child type bears the name of a folder
    type. *)
Definition noFolderValue (children : Obj TypeEntry) : Prop :=
  forall k v, objGet children k = Some v -> includes folderMetadataTypes (name v) = false.

End MdapiPackage.

(** ** Numbers *)

(** JavaScript numbers are IEEE 754 doubles.  A finite double other than
    zero is kept as the rational it is, in lowest terms; the arithmetic
    computes the exact rational result and rounds it to the nearest double,
    to the one with the even mantissa when two are equally near. *)
Module Numbers.
Local Open Scope Z_scope.

Inductive Number : Type :=
| NaN
| Infinity (negative : bool)
| Zero (negative : bool)
| Finite (q : Q).

(** The [e] with [2^e <= a < 2^(e+1)], for a rational [a > 0]. *)
Definition ilog2 (a : Q) : Z :=
  let d := Z.log2 (Qnum a) - Z.log2 (Zpos (Qden a)) in
  if Qle_bool (2 ^ d) a then d else d - 1.

(** The whole number nearest to [r], the even one of two. *)
Definition roundHalfEven (r : Q) : Z :=
  let f := Qfloor r in
  match (r - inject_Z f ?= 1 # 2)%Q with
  | Lt => f
  | Gt => f + 1
  | Eq => if Z.even f then f else f + 1
  end.

Definition signed (negative : bool) (v : Q) : Q := if negative then (- v)%Q else v.

(** The double nearest to the magnitude [a >= 0], with the sign given: 53
    bits of mantissa, the least exponent -1074, infinite from [2^1024]
    on. *)
Definition nearest (negative : bool) (a : Q) : Number :=
  if Qle_bool a 0 then Zero negative
  else
    let e := Z.max (ilog2 a - 52) (-1074) in
    let m := roundHalfEven (a / 2 ^ e) in
    let v := (inject_Z m * 2 ^ e)%Q in
    if Qle_bool (2 ^ 1024) v then Infinity negative
    else if m =? 0 then Zero negative
    else Finite (Qred (signed negative v)).

Definition isNaN (x : Number) : bool := match x with NaN => true | _ => false end.

Definition negativeOf (x : Number) : bool :=
  match x with
  | NaN => false
  | Infinity s | Zero s => s
  | Finite q => Qnum q <? 0
  end.

(** The magnitude of a number, [None] for the infinite ones. *)
Definition magnitude (x : Number) : option Q :=
  match x with
  | NaN | Infinity _ => None
  | Zero _ => Some 0%Q
  | Finite q => Some (Qabs q)
  end.

(** [x * y] *)
Definition mul (x y : Number) : Number :=
  if isNaN x || isNaN y then NaN
  else
    let s := xorb (negativeOf x) (negativeOf y) in
    match magnitude x, magnitude y with
    | Some a, Some b => nearest s (a * b)
    | Some a, None | None, Some a => if Qeq_bool a 0 then NaN else Infinity s
    | None, None => Infinity s
    end.

(** [x / y] *)
Definition div (x y : Number) : Number :=
  if isNaN x || isNaN y then NaN
  else
    let s := xorb (negativeOf x) (negativeOf y) in
    match magnitude x, magnitude y with
    | Some a, Some b =>
        if Qeq_bool b 0 then (if Qeq_bool a 0 then NaN else Infinity s)
        else nearest s (a / b)
    | Some _, None => Zero s
    | None, Some _ => Infinity s
    | None, None => NaN
    end.

(** The number a numeral denotes. *)
Definition ofQ (q : Q) : Number := nearest (Qnum q <? 0) (Qabs q).
Definition ofZ (n : Z) : Number := ofQ (inject_Z n).

(** [Math.ceil(x)] *)
Definition Math_ceil (x : Number) : Number :=
  match x with
  | Finite q => let n := Qceiling q in if n =? 0 then Zero true else Finite (inject_Z n)
  | _ => x
  end.

(** *** parseInt of a number *)

(** [parseInt(x)] reads the whole number at the start of the text of [x].
    That text is "NaN" or "Infinity" for the numbers that are not finite
    and "0" for both zeros.  From [1e21] on and below [0.000001] it is in
    exponent notation, d.ddde+21, so that its first digit is all that is
    read.  Between the two it is positional, and what stands before the
    point is the number without its fraction. *)

(** The [p] with [10^p <= a < 10^(p+1)], for a rational [a > 0]: an
    estimate from the binary exponent (1233/4096 is close to the decimal
    logarithm of 2), corrected by one where needed. *)
Definition ilog10 (a : Q) : Z :=
  let p := ilog2 a * 1233 / 4096 in
  if Qle_bool (10 ^ (p + 1)) a then p + 1
  else if Qle_bool (10 ^ p) a then p else p - 1.

(** The decimal [c] reads back as the double [a]. *)
Definition readsBack (a c : Q) : bool :=
  match nearest false c with Finite v => Qeq_bool v a | _ => false end.

(** The first digit of the text of the double [a > 0]: the text has the
    fewest digits [k] that read back as [a], and of two such numerals the
    one nearer to [a]. *)
Fixpoint firstDigitFrom (fuel : nat) (k p : Z) (a : Q) : Z :=
  let scale := (10 ^ (p + 1 - k))%Q in
  let s := Qfloor (a / scale) in
  let first (s : Z) := if s <? 10 ^ k then s / 10 ^ (k - 1) else 1 in
  let below := (inject_Z s * scale)%Q in
  let above := (inject_Z (s + 1) * scale)%Q in
  match readsBack a below, readsBack a above with
  | true, true =>
      match (a - below ?= above - a)%Q with
      | Lt => first s
      | Gt => first (s + 1)
      | Eq => if Z.even s then first s else first (s + 1)
      end
  | true, false => first s
  | false, true => first (s + 1)
  | false, false =>
      match fuel with
      | S fuel' => firstDigitFrom fuel' (k + 1) p a
      | O => first s
      end
  end.

Definition firstDigit (a : Q) : Z := firstDigitFrom 16 1 (ilog10 a) a.

(** The least double whose text is positional, the one of [0.000001]. *)
Definition smallestPositional : Q :=
  match ofQ (1 # 1000000) with Finite v => v | _ => 0%Q end.

Definition parseInt (x : Number) : Number :=
  match x with
  | NaN | Infinity _ => NaN
  | Zero _ => Zero false
  | Finite q =>
      let a := Qabs q in
      let negative := Qnum q <? 0 in
      if Qle_bool (10 ^ 21) a || negb (Qle_bool smallestPositional a)
      then Finite (signed negative (inject_Z (firstDigit a)))
      else
        let t := Qfloor a in
        if t =? 0 then Zero negative else Finite (signed negative (inject_Z t))
  end.

(** *** The doubles of the Standard Library *)

(** The number that a [spec_float] of the Standard Library stands for, and
    the [spec_float] of a whole number, for 53 bits of mantissa and
    exponents below 1024. *)
Definition ofSpecFloat (x : spec_float) : Number :=
  match x with
  | S754_nan => NaN
  | S754_infinity s => Infinity s
  | S754_zero s => Zero s
  | S754_finite s m e => Finite (Qred (signed s (inject_Z (Zpos m) * 2 ^ e)%Q))
  end.

Definition specFloatOfZ (n : Z) : spec_float := binary_normalize 53 1024 n 0 false.

End Numbers.

(** ** PackageInstallCommand *)

Module PackageInstall.
Import Numbers.

Definition DEFAULT_POLL_INTERVAL_MILLIS : Number := ofZ 5000.
Definition REPLICATION_POLLING_INTERVAL_MILLIS : Number := ofZ 10000.
Definition DEFAULT_MAX_RETRIES : Number := ofZ 0.
Definition RETRY_MINUTES_IN_MILLIS : Number := ofZ 60000.
Definition DEFAULT_PUBLISH_WAIT_MIN : Number := ofZ 0.

(** [Map.prototype.get] on a [Map] filled by [set] calls with distinct
    string keys, kept as the list of its entries; a key that is not a string
    ([None]) is in none of the maps. *)
Fixpoint mapGet (m : list (string * string)) (k : option string) : option string :=
  match m with
  | [] => None
  | (k', v) :: r =>
      match k with
      | Some s => if k' =? s then Some v else mapGet r k
      | None => None
      end
  end.

Definition SECURITY_TYPE_KEY_ALLUSERS := "AllUsers".
Definition SECURITY_TYPE_KEY_ADMINSONLY := "AdminsOnly".
Definition SECURITY_TYPE_VALUE_ALLUSERS := "full".
Definition SECURITY_TYPE_VALUE_ADMINSONLY := "none".
Definition SECURITY_TYPE_MAP : list (string * string) :=
  [ (SECURITY_TYPE_KEY_ALLUSERS, SECURITY_TYPE_VALUE_ALLUSERS);
    (SECURITY_TYPE_KEY_ADMINSONLY, SECURITY_TYPE_VALUE_ADMINSONLY) ].

Definition UPGRADE_TYPE_KEY_DELETE := "Delete".
Definition UPGRADE_TYPE_KEY_DEPRECATE_ONLY := "DeprecateOnly".
Definition UPGRADE_TYPE_KEY_MIXED := "Mixed".
Definition UPGRADE_TYPE_VALUE_DELETE := "delete-only".
Definition UPGRADE_TYPE_VALUE_DEPRECATE_ONLY := "deprecate-only".
Definition UPGRADE_TYPE_VALUE_MIXED := "mixed-mode".
Definition UPGRADE_TYPE_MAP : list (string * string) :=
  [ (UPGRADE_TYPE_KEY_DELETE, UPGRADE_TYPE_VALUE_DELETE);
    (UPGRADE_TYPE_KEY_DEPRECATE_ONLY, UPGRADE_TYPE_VALUE_DEPRECATE_ONLY);
    (UPGRADE_TYPE_KEY_MIXED, UPGRADE_TYPE_VALUE_MIXED) ].

Definition APEX_COMPILE_KEY_ALL := "all".
Definition APEX_COMPILE_KEY_PACKAGE := "package".
Definition APEX_COMPILE_VALUE_ALL := "all".
Definition APEX_COMPILE_VALUE_PACKAGE := "package".
Definition APEX_COMPILE_MAP : list (string * string) :=
  [ (APEX_COMPILE_KEY_ALL, APEX_COMPILE_VALUE_ALL);
    (APEX_COMPILE_KEY_PACKAGE, APEX_COMPILE_VALUE_PACKAGE) ].

(** *** Data *)

(** The remote [PackageInstallRequest] resource as retrieved. *)
Record ErrorEntry : Type := { message : string }.
Record ErrorsBag : Type := { errors : option (list ErrorEntry) }.
Record PackageInstallRequest : Type := {
  Id : string;
  Status : string;
  SubscriberPackageVersionKey : string;
  Errors : option ErrorsBag
}.

(** [this.packageInstallRequest], the payload of the create call.  A field
    is [None] while the property is absent; a present property holds a
    string or [undefined]/[null] (inner [None]). *)
Record InstallRequest : Type := {
  subscriberPackageVersionKey : option (option string);
  password : option (option string);
  upgradeType : option (option string);
  apexCompileType : option (option string);
  securityType : option (option string);
  nameConflictResolution : option string;
  packageInstallSource : option string;
  enableRss : option bool
}.

Definition emptyRequest : InstallRequest :=
  {| subscriberPackageVersionKey := None; password := None; upgradeType := None;
     apexCompileType := None; securityType := None; nameConflictResolution := None;
     packageInstallSource := None; enableRss := None |}.

Record SubscriberPackageVersion : Type := {
  package2ContainerOptions : option string;
  trustedSites : option (list string)
}.

Record CreateResult : Type := { createdId : option string }.

Record Org : Type := { orgName : string; getApiVersion : Q }.

Record FlagDescriptor : Type := { flagName : string; flagChar : string }.

(** [context.flags]; the two waits are numbers of minutes. *)
Record Flags : Type := {
  flags_id : option string;
  flags_package : option string;
  flags_wait : option Number;
  flags_installationkey : option string;
  flags_publishwait : option Number;
  flags_upgradetype : option string;
  flags_apexcompile : option string;
  flags_securitytype : option string;
  flags_noprompt : bool
}.

Record Context : Type := {
  context_org : Org;
  context_flags : Flags;
  context_command_flags : list FlagDescriptor
}.

(** The fields of a [PackageInstallCommand] instance. *)
Record Command : Type := {
  pollIntervalMillis : Number;
  replicationPollIntervalMillis : Number;
  maxRetries : Number;
  allPackageVersionId : option string;
  installationKey : option string;
  publishwait : Number;
  stdinPrompt : option (Message -> string);
  packageInstallRequest : InstallRequest;
  org : option Org
}.

(** [new PackageInstallCommand(stdinPrompt)] *)
Definition constructor (stdinPrompt : option (Message -> string)) : Command :=
  {| pollIntervalMillis := DEFAULT_POLL_INTERVAL_MILLIS;
     replicationPollIntervalMillis := REPLICATION_POLLING_INTERVAL_MILLIS;
     maxRetries := DEFAULT_MAX_RETRIES;
     allPackageVersionId := None;
     installationKey := None;
     publishwait := DEFAULT_PUBLISH_WAIT_MIN;
     stdinPrompt := stdinPrompt;
     packageInstallRequest := emptyRequest;
     org := None |}.

(** What an invocation does to the outside, in order. *)
Inductive Event : Type :=
| Log (m : Message)
| LogError (m : Message) (detail : string)
| AliasLookup (alias : string)
| VersionQuery (apvId key : option string) (retries interval : Number)
| Prompt (m : Message)
| Create (payload : InstallRequest)
| Retrieve (id : string)
| Delay (ms : Number).

(** The collaborators of the command: [pkgUtils] and the [force] API.
    The [n]-th retrieval of an invocation may answer differently from the
    ones before. *)
Record Env : Type := {
  SUBSCRIBER_PACKAGE_VERSION_ID_prefix : string;
  getPackageIdFromAlias : string -> Result string;
  validateId : option string -> bool;
  getSubscriberPackageVersionQuery :
    option string -> option string -> Number -> Number -> Result SubscriberPackageVersion;
  toolingCreate : InstallRequest -> Result CreateResult;
  toolingRetrieve : nat -> string -> Result PackageInstallRequest
}.

(** *** The state and error monad of an invocation *)

Record St : Type := {
  this : Command;
  trace : list Event;
  retrievals : nat
}.

Inductive Outcome (A : Type) : Type :=
| Returned (a : A)
| Raised (e : JsError)
| OutOfFuel.
Arguments Returned {A} a.
Arguments Raised {A} e.
Arguments OutOfFuel {A}.

Definition M (A : Type) : Type := St -> Outcome A * St.

Definition ret {A} (a : A) : M A := fun st => (Returned a, st).
Definition throw {A} (e : JsError) : M A := fun st => (Raised e, st).
Definition outOfFuel {A} : M A := fun st => (OutOfFuel, st).
Definition bind {A B} (c : M A) (k : A -> M B) : M B :=
  fun st =>
    match c st with
    | (Returned a, st') => k a st'
    | (Raised e, st') => (Raised e, st')
    | (OutOfFuel, st') => (OutOfFuel, st')
    end.

Notation "x <- c ;; k" := (bind c (fun x => k))
  (at level 61, c at next level, right associativity).
Notation "c ;; k" := (bind c (fun _ => k))
  (at level 61, right associativity).

Definition emit (e : Event) : M unit :=
  fun st => (Returned tt,
             {| this := this st; trace := trace st ++ [e]; retrievals := retrievals st |}).
Definition getThis : M Command := fun st => (Returned (this st), st).
Definition modify (f : Command -> Command) : M unit :=
  fun st => (Returned tt,
             {| this := f (this st); trace := trace st; retrievals := retrievals st |}).
Definition liftResult {A} (r : Result A) : M A :=
  match r with Ok a => ret a | Throw e => throw e end.

(** Assignments to the fields of [this]. *)
Definition set_org (o : Org) (c : Command) : Command :=
  {| pollIntervalMillis := pollIntervalMillis c;
     replicationPollIntervalMillis := replicationPollIntervalMillis c;
     maxRetries := maxRetries c; allPackageVersionId := allPackageVersionId c;
     installationKey := installationKey c; publishwait := publishwait c;
     stdinPrompt := stdinPrompt c; packageInstallRequest := packageInstallRequest c;
     org := Some o |}.
Definition set_allPackageVersionId (v : option string) (c : Command) : Command :=
  {| pollIntervalMillis := pollIntervalMillis c;
     replicationPollIntervalMillis := replicationPollIntervalMillis c;
     maxRetries := maxRetries c; allPackageVersionId := v;
     installationKey := installationKey c; publishwait := publishwait c;
     stdinPrompt := stdinPrompt c; packageInstallRequest := packageInstallRequest c;
     org := org c |}.
Definition set_maxRetries (v : Number) (c : Command) : Command :=
  {| pollIntervalMillis := pollIntervalMillis c;
     replicationPollIntervalMillis := replicationPollIntervalMillis c;
     maxRetries := v; allPackageVersionId := allPackageVersionId c;
     installationKey := installationKey c; publishwait := publishwait c;
     stdinPrompt := stdinPrompt c; packageInstallRequest := packageInstallRequest c;
     org := org c |}.
Definition set_installationKey (v : option string) (c : Command) : Command :=
  {| pollIntervalMillis := pollIntervalMillis c;
     replicationPollIntervalMillis := replicationPollIntervalMillis c;
     maxRetries := maxRetries c; allPackageVersionId := allPackageVersionId c;
     installationKey := v; publishwait := publishwait c;
     stdinPrompt := stdinPrompt c; packageInstallRequest := packageInstallRequest c;
     org := org c |}.
Definition set_publishwait (v : Number) (c : Command) : Command :=
  {| pollIntervalMillis := pollIntervalMillis c;
     replicationPollIntervalMillis := replicationPollIntervalMillis c;
     maxRetries := maxRetries c; allPackageVersionId := allPackageVersionId c;
     installationKey := installationKey c; publishwait := v;
     stdinPrompt := stdinPrompt c; packageInstallRequest := packageInstallRequest c;
     org := org c |}.
Definition set_packageInstallRequest (v : InstallRequest) (c : Command) : Command :=
  {| pollIntervalMillis := pollIntervalMillis c;
     replicationPollIntervalMillis := replicationPollIntervalMillis c;
     maxRetries := maxRetries c; allPackageVersionId := allPackageVersionId c;
     installationKey := installationKey c; publishwait := publishwait c;
     stdinPrompt := stdinPrompt c; packageInstallRequest := v;
     org := org c |}.

(** Assignments to the properties of [this.packageInstallRequest]. *)
Definition set_subscriberPackageVersionKey (v : option string) (r : InstallRequest) :=
  {| subscriberPackageVersionKey := Some v; password := password r;
     upgradeType := upgradeType r; apexCompileType := apexCompileType r;
     securityType := securityType r; nameConflictResolution := nameConflictResolution r;
     packageInstallSource := packageInstallSource r; enableRss := enableRss r |}.
Definition set_password (v : option string) (r : InstallRequest) :=
  {| subscriberPackageVersionKey := subscriberPackageVersionKey r; password := Some v;
     upgradeType := upgradeType r; apexCompileType := apexCompileType r;
     securityType := securityType r; nameConflictResolution := nameConflictResolution r;
     packageInstallSource := packageInstallSource r; enableRss := enableRss r |}.
Definition set_upgradeType (v : option string) (r : InstallRequest) :=
  {| subscriberPackageVersionKey := subscriberPackageVersionKey r; password := password r;
     upgradeType := Some v; apexCompileType := apexCompileType r;
     securityType := securityType r; nameConflictResolution := nameConflictResolution r;
     packageInstallSource := packageInstallSource r; enableRss := enableRss r |}.
Definition set_apexCompileType (v : option string) (r : InstallRequest) :=
  {| subscriberPackageVersionKey := subscriberPackageVersionKey r; password := password r;
     upgradeType := upgradeType r; apexCompileType := Some v;
     securityType := securityType r; nameConflictResolution := nameConflictResolution r;
     packageInstallSource := packageInstallSource r; enableRss := enableRss r |}.
Definition set_securityType (v : option string) (r : InstallRequest) :=
  {| subscriberPackageVersionKey := subscriberPackageVersionKey r; password := password r;
     upgradeType := upgradeType r; apexCompileType := apexCompileType r;
     securityType := Some v; nameConflictResolution := nameConflictResolution r;
     packageInstallSource := packageInstallSource r; enableRss := enableRss r |}.
Definition set_nameConflictResolution (v : string) (r : InstallRequest) :=
  {| subscriberPackageVersionKey := subscriberPackageVersionKey r; password := password r;
     upgradeType := upgradeType r; apexCompileType := apexCompileType r;
     securityType := securityType r; nameConflictResolution := Some v;
     packageInstallSource := packageInstallSource r; enableRss := enableRss r |}.
Definition set_packageInstallSource (v : string) (r : InstallRequest) :=
  {| subscriberPackageVersionKey := subscriberPackageVersionKey r; password := password r;
     upgradeType := upgradeType r; apexCompileType := apexCompileType r;
     securityType := securityType r; nameConflictResolution := nameConflictResolution r;
     packageInstallSource := Some v; enableRss := enableRss r |}.
Definition set_enableRss (v : bool) (r : InstallRequest) :=
  {| subscriberPackageVersionKey := subscriberPackageVersionKey r; password := password r;
     upgradeType := upgradeType r; apexCompileType := apexCompileType r;
     securityType := securityType r; nameConflictResolution := nameConflictResolution r;
     packageInstallSource := packageInstallSource r; enableRss := Some v |}.

(** [this.packageInstallRequest.f = v] *)
Definition assign (f : InstallRequest -> InstallRequest) : M unit :=
  modify (fun c => set_packageInstallRequest (f (packageInstallRequest c)) c).

(** *** Numbers *)

(** [a < b] on rationals. *)
Definition Qltb (a b : Q) : bool := negb (Qle_bool b a).

(** The value given to [this.maxRetries] for a [--wait] flag. *)
Definition waitRetries (c : Command) (wait : option Number) : Number :=
  match wait with
  | None => maxRetries c
  | Some w => mul (div RETRY_MINUTES_IN_MILLIS (pollIntervalMillis c)) w
  end.

(** [publishWaitRetries], from [this.publishwait] and
    [this.replicationPollIntervalMillis]. *)
Definition publishWaitRetries (c : Command) : Number :=
  Math_ceil (div (mul (mul (parseInt (publishwait c)) (ofZ 60)) (ofZ 1000))
                 (parseInt (replicationPollIntervalMillis c))).

(** The retries that [poll] counts down when it is called with the number
    [n].  Up to [2^53] a double is counted down as the rational it is:
    taking one off is exact until the count is used up.  [NaN], the zeros
    and the negative infinity, for which [retries > 0] is false, count as
    0.  Above [2^53], and for the positive infinity, taking one off no
    longer lowers the count to 0: there is no count ([None]). *)
Definition countdown (n : Number) : option Q :=
  match n with
  | NaN | Zero _ | Infinity true => Some 0%Q
  | Infinity false => None
  | Finite q => if Qle_bool q (2 ^ 53) then Some q else None
  end.

(** *** Errors of a failed install request *)

Definition LF : string := String (ascii_of_nat 10) EmptyString.

(** The loop of [readInstallErrorsAsString], from index [i] on. *)
Fixpoint appendErrors (i : nat) (errorsArray : list ErrorEntry) (errorMessage : string)
  : string :=
  match errorsArray with
  | [] => errorMessage
  | e :: rest =>
      appendErrors (S i) rest
        (errorMessage ++ LF ++ Str.ofNat (i + 1) ++ ") " ++ message e)
  end.

Definition readInstallErrorsAsString (request : PackageInstallRequest) : string :=
  match Errors request with
  | Some bag =>
      match errors bag with
      | Some errorsArray =>
          let len := List.length errorsArray in
          if (0 <? len)%nat
          then appendErrors 0 errorsArray "Installation errors: "
          else "<empty>"
      | None => "<empty>"
      end
  | None => "<empty>"
  end.

(** *** poll, _prompt, execute *)

Section WithEnv.

Variable env : Env.

(** [this.force.toolingRetrieve(this.org, 'PackageInstallRequest', id)] *)
Definition retrieve (id : string) : M PackageInstallRequest :=
  fun st =>
    liftResult (toolingRetrieve env (retrievals st) id)
      {| this := this st; trace := trace st ++ [Retrieve id];
         retrievals := S (retrievals st) |}.

(** [poll(context, id, retries)]; [fuel] bounds the depth of the
    recursion. *)
Fixpoint pollFrom (fuel : nat) (context : Context) (id : string) (retries : Q)
  : M PackageInstallRequest :=
  modify (set_org (context_org context)) ;;
  request <- retrieve id ;;
  if Status request =? "SUCCESS" then ret request
  else if Status request =? "ERROR" then
    let err := readInstallErrorsAsString request in
    emit (LogError (Text "Encountered errors installing the package!") err) ;;
    throw (Error (Text err))
  else if Qltb 0 retries then
    emit (Log (Lookup "installStatus" [Status request] "packaging")) ;;
    c <- getThis ;;
    emit (Delay (pollIntervalMillis c)) ;;
    match fuel with
    | S fuel' => pollFrom fuel' context id (retries - 1)%Q
    | O => outOfFuel
    end
  else ret request.

(** As many nested calls as [retries] allows. *)
Definition poll (context : Context) (id : string) (retries : Q)
  : M PackageInstallRequest :=
  pollFrom (Z.to_nat (Qceiling retries)) context id retries.

(** [poll(context, id, retries)] for the number that [execute] holds.  A
    count that is never used up is followed for one round: the call
    returns a request that succeeded, raises for one that failed, and is
    otherwise still polling when the fuel ends. *)
Definition pollNumber (context : Context) (id : string) (retries : Number)
  : M PackageInstallRequest :=
  match countdown retries with
  | Some count => poll context id count
  | None => pollFrom 0 context id 1
  end.

(** [_prompt(noninteractive, message)] *)
Definition _prompt (noninteractive : bool) (msg : Message) : M bool :=
  answer <- (if noninteractive then ret "YES"
             else
               c <- getThis ;;
               match stdinPrompt c with
               | Some ask => emit (Prompt msg) ;; ret (ask msg)
               | None => throw TypeError
               end) ;;
  emit (Log (Text "")) ;;
  ret ((Str.toUpperCase answer =? "YES") || (Str.toUpperCase answer =? "Y")).

(** Truthiness of an optional string. *)
Definition truthy (o : option string) : bool :=
  match o with Some s => Str.truthy s | None => false end.

(** A value in a template literal. *)
Definition show (o : option string) : string :=
  match o with Some s => s | None => "undefined" end.

Definition isUnlocked (spv : SubscriberPackageVersion) : bool :=
  match package2ContainerOptions spv with
  | Some s => s =? "Unlocked"
  | None => false
  end.

(** [v === k] and [v == k] for an optional string [v] and a string [k]. *)
Definition strictEq (v : option string) (k : string) : bool :=
  match v with Some s => s =? k | None => false end.

(** [execute], first part: the two identifier flags, the version id
    and its validation, the options kept on [this], the API version and
    the query for the subscriber package version. *)
Definition resolveVersion (context : Context) : M SubscriberPackageVersion :=
  let flags := context_flags context in
  modify (set_org (context_org context)) ;;
  if (negb (truthy (flags_id flags)) && negb (truthy (flags_package flags)))
     || (truthy (flags_id flags) && truthy (flags_package flags))
  then
    match find (fun x => flagName x =? "id") (context_command_flags context),
          find (fun x => flagName x =? "package") (context_command_flags context)
    with
    | Some idFlag, Some packageFlag =>
        throw (Error (Lookup "errorRequiredFlags"
                        [ ("--" ++ flagName idFlag ++ " (-" ++ flagChar idFlag ++ ")")%string;
                          ("--" ++ flagName packageFlag)%string ]
                        "package_install"))
    | _, _ => throw TypeError
    end
  else
    apvId <- (if truthy (flags_id flags) then ret (flags_id flags)
              else
                match flags_package flags with
                | Some package =>
                    if Str.truthy package then
                      if Str.startsWith package (SUBSCRIBER_PACKAGE_VERSION_ID_prefix env)
                      then ret (Some package)
                      else
                        emit (AliasLookup package) ;;
                        resolved <- liftResult (getPackageIdFromAlias env package) ;;
                        ret (Some resolved)
                    else ret None
                | None => ret None
                end) ;;
    (if validateId env apvId then ret tt
     else throw (Error (Lookup "invalidIdOrPackage" [show apvId] "package_install"))) ;;
    modify (set_allPackageVersionId apvId) ;;
    modify (fun c => set_maxRetries (waitRetries c (flags_wait flags)) c) ;;
    modify (fun c => set_installationKey
                       (match flags_installationkey flags with
                        | None => installationKey c
                        | Some k => Some k
                        end) c) ;;
    modify (fun c => set_publishwait
                       (match flags_publishwait flags with
                        | None => publishwait c
                        | Some w => w
                        end) c) ;;
    let apiVersion := getApiVersion (context_org context) in
    if Qltb apiVersion 36
    then throw (Error (Text "This command is supported only on API versions 36.0 and higher"))
    else
      c <- getThis ;;
      let publishWaitRetries := publishWaitRetries c in
      emit (VersionQuery (allPackageVersionId c) (installationKey c)
              publishWaitRetries (replicationPollIntervalMillis c)) ;;
      liftResult
        (getSubscriberPackageVersionQuery env (allPackageVersionId c)
           (installationKey c) publishWaitRetries
           (replicationPollIntervalMillis c)).

(** [execute], second part: the two confirmations.  Returns
    [enableExternalSites]. *)
Definition confirm (context : Context) (spv : SubscriberPackageVersion) : M bool :=
  let flags := context_flags context in
  (if strictEq (flags_upgradetype flags) UPGRADE_TYPE_KEY_DELETE && isUnlocked spv
   then
     accepted <- _prompt (flags_noprompt flags)
                   (Lookup "promptUpgradeType" [] "package_install") ;;
     if negb accepted
     then throw (Error (Lookup "promptUpgradeTypeDeny" [] "package_install"))
     else ret tt
   else ret tt) ;;
  match trustedSites spv with
  | Some sites =>
      if (0 <? List.length sites)%nat
      then _prompt (flags_noprompt flags)
             (Lookup "promptRss" [Str.join LF sites] "package_install")
      else ret false
  | None => ret false
  end.

(** [execute], third part: the properties of
    [this.packageInstallRequest]. *)
Definition constructRequest (context : Context) (spv : SubscriberPackageVersion)
    (enableExternalSites : bool) : M unit :=
  let flags := context_flags context in
  c <- getThis ;;
  assign (set_subscriberPackageVersionKey (allPackageVersionId c)) ;;
  assign (set_password (installationKey c)) ;;
  (if negb (strictEq (flags_upgradetype flags) UPGRADE_TYPE_KEY_MIXED)
   then
     if isUnlocked spv
     then assign (set_upgradeType (mapGet UPGRADE_TYPE_MAP (flags_upgradetype flags)))
     else emit (Log (PackagingLookup "install.warningUpgradeTypeOnlyForUnlocked"))
   else ret tt) ;;
  (if negb (strictEq (flags_apexcompile flags) APEX_COMPILE_KEY_ALL)
   then
     if isUnlocked spv
     then assign (set_apexCompileType (mapGet APEX_COMPILE_MAP (flags_apexcompile flags)))
     else emit (Log (PackagingLookup "install.warningApexCompileOnlyForUnlocked"))
   else ret tt) ;;
  assign (set_securityType (mapGet SECURITY_TYPE_MAP (flags_securitytype flags))) ;;
  assign (set_nameConflictResolution "Block") ;;
  assign (set_packageInstallSource "U") ;;
  assign (set_enableRss enableExternalSites).

(** [execute], last part: the create call and the polling. *)
Definition submit (context : Context) : M PackageInstallRequest :=
  c <- getThis ;;
  emit (Create (packageInstallRequest c)) ;;
  result <- liftResult (toolingCreate env (packageInstallRequest c)) ;;
  match createdId result with
  | None =>
      throw (Error (Text ("Failed to create PackageInstallRequest for: "
                          ++ show (allPackageVersionId c))))
  | Some packageInstallRequestId =>
      pollNumber context packageInstallRequestId (maxRetries c)
  end.

(** [execute(context)] *)
Definition execute (context : Context) : M PackageInstallRequest :=
  spv <- resolveVersion context ;;
  enableExternalSites <- confirm context spv ;;
  constructRequest context spv enableExternalSites ;;
  submit context.

End WithEnv.

(** The state in which an invocation on the instance [c] starts. *)
Definition start (c : Command) : St := {| this := c; trace := []; retrievals := 0 |}.

(** [getHumanSuccessMessage(result)]; reading [this.org.name] fails
    while [this.org] is not set. *)
Definition getHumanSuccessMessage (c : Command) (result : PackageInstallRequest)
  : Result Message :=
  if Status result =? "SUCCESS" then
    Ok (Lookup (Status result) [SubscriberPackageVersionKey result]
          "package_install_report")
  else if Status result =? "TERMINATED" then Ok (Text "")
  else
    match org c with
    | Some o => Ok (Lookup (Status result) [Id result; orgName o] "package_install_report")
    | None => Throw TypeError
    end.

End PackageInstall.

(** ** What a part of an invocation may do *)

Module Traces.
Import Numbers PackageInstall.

(** Events other than the create call and the warnings of the
    construction of the request. *)
Definition quiet (e : Event) : bool :=
  match e with
  | Create _ => false
  | Log (PackagingLookup _) => false
  | _ => true
  end.

(** From [st] to [st'] only quiet events were added, and the prompt and
    the request under construction were left alone. *)
Definition background (st st' : St) : Prop :=
  (exists evs, trace st' = trace st ++ evs /\ forallb quiet evs = true)
  /\ stdinPrompt (this st') = stdinPrompt (this st)
  /\ packageInstallRequest (this st') = packageInstallRequest (this st).

(** Every run of [c] is related by [R]. *)
Definition steps (R : St -> St -> Prop) {A : Type} (c : M A) : Prop :=
  forall st out st', c st = (out, st') -> R st st'.

(** The lines of the error message: a line feed, the number of the entry
    counted from [k], a parenthesis and the message of the entry. *)
Fixpoint numberedErrors (k : nat) (es : list ErrorEntry) : string :=
  match es with
  | [] => EmptyString
  | e :: rest =>
      (LF ++ Str.ofNat k ++ ") " ++ message e ++ numberedErrors (S k) rest)%string
  end.

(** The two warnings of the construction of the request. *)
Definition warningUpgradeType : Event :=
  Log (PackagingLookup "install.warningUpgradeTypeOnlyForUnlocked").
Definition warningApexCompile : Event :=
  Log (PackagingLookup "install.warningApexCompileOnlyForUnlocked").

(** The warnings logged for the flags of [context] and the version [spv]. *)
Definition warnings (context : Context) (spv : SubscriberPackageVersion) : list Event :=
  (if negb (strictEq (flags_upgradetype (context_flags context)) UPGRADE_TYPE_KEY_MIXED)
      && negb (isUnlocked spv)
   then [warningUpgradeType] else [])
  ++ (if negb (strictEq (flags_apexcompile (context_flags context)) APEX_COMPILE_KEY_ALL)
         && negb (isUnlocked spv)
      then [warningApexCompile] else []).

(** [c] never stops for want of fuel. *)
Definition total {A : Type} (c : M A) : Prop :=
  forall st, fst (c st) <> OutOfFuel.

(** Once [this.org] is [o], it stays [o]. *)
Definition orgStays (o : Org) (st st' : St) : Prop :=
  org (this st) = Some o -> org (this st') = Some o.

(** Looking an alias up is the only thing an invocation does before its
    identifier is validated. *)
Definition isAliasLookup (e : Event) : bool :=
  match e with AliasLookup _ => true | _ => false end.

(** The events of an invocation before its create call: alias lookup,
    version query, prompts and log lines. *)
Definition early (e : Event) : bool :=
  match e with
  | AliasLookup _ | VersionQuery _ _ _ _ | Prompt _ | Log _ => true
  | _ => false
  end.

(** The events of polling the request [id]. *)
Definition polling (id : string) (e : Event) : bool :=
  match e with
  | Retrieve id' => id' =? id
  | Delay _ | LogError _ _ | Log (Lookup _ _ _) => true
  | _ => false
  end.

Definition notPrompt (e : Event) : bool :=
  match e with Prompt _ => false | _ => true end.

(** From [st] to [st'] only events that [ok] accepts were added. *)
Definition adding (ok : Event -> bool) (st st' : St) : Prop :=
  exists evs, trace st' = trace st ++ evs /\ forallb ok evs = true.

(** From [st] to [st'] the instance was left alone. *)
Definition sameThis (st st' : St) : Prop := this st' = this st.

(** An answer that [_prompt] takes for a yes. *)
Definition affirmative (answer : string) : bool :=
  (Str.toUpperCase answer =? "YES") || (Str.toUpperCase answer =? "Y").

(** The trusted sites of a version, none when the property is missing. *)
Definition sitesOf (spv : SubscriberPackageVersion) : list string :=
  match trustedSites spv with Some sites => sites | None => [] end.

(** The confirmation of [--upgradetype Delete] is due. *)
Definition deleteAsked (context : Context) (spv : SubscriberPackageVersion) : bool :=
  strictEq (flags_upgradetype (context_flags context)) UPGRADE_TYPE_KEY_DELETE
  && isUnlocked spv.

(** Whether the question [msg] is answered with a yes; [None] when it has
    to be asked and the instance has nothing to ask with. *)
Definition answerTo (context : Context) (c : Command) (msg : Message) : option bool :=
  if flags_noprompt (context_flags context) then Some true
  else match stdinPrompt c with
       | Some ask => Some (affirmative (ask msg))
       | None => None
       end.




(** From [st] to [st'] nothing was retrieved. *)
Definition sameCount (st st' : St) : Prop := retrievals st' = retrievals st.


(** The state once the create call for the request of [st] was made. *)
Definition afterCreate (st : St) : St :=
  {| this := this st;
     trace := trace st ++ [Create (packageInstallRequest (this st))];
     retrievals := retrievals st |}.

End Traces.

(** ** Scenarios used to exercise the statements *)

Module Scenarios.
Import MdapiPackage.

(** A manifest with one Aura bundle added on a platform whose [path.sep]
    is the forward slash. *)
Definition bundlePackage : Package :=
  withTypes emptyPackage
    [ {| name := "AuraDefinitionBundle"; members := Some ["cmp/sub"] |} ].

Definition bundlePackage' : Package :=
  withTypes emptyPackage
    [ {| name := "AuraDefinitionBundle"; members := Some ["cmp/sub"; "list/view"] |} ].

Import Numbers PackageInstall.

(** A remote install request in a given status, with given errors. *)
Definition installRequest (status : string) (errs : option ErrorsBag)
  : PackageInstallRequest :=
  {| Id := "0Hf000000000001"; Status := status;
     SubscriberPackageVersionKey := "04t000000000001"; Errors := errs |}.

Definition twoErrors : option ErrorsBag :=
  Some {| errors := Some [ {| message := "bad field" |};
                           {| message := "missing perm" |} ] |}.

Definition commandFlags : list FlagDescriptor :=
  [ {| flagName := "id"; flagChar := "i" |};
    {| flagName := "wait"; flagChar := "w" |};
    {| flagName := "package"; flagChar := "p" |} ].

Definition someOrg : Org := {| orgName := "scratch@example.com"; getApiVersion := 45 |}.

(** [--id 04t000000000001 --wait 2 --securitytype AllUsers --noprompt],
    with the defaults of the other flags. *)
Definition plainFlags : Flags :=
  {| flags_id := Some "04t000000000001"; flags_package := None;
     flags_wait := Some (ofZ 2); flags_installationkey := None;
     flags_publishwait := None; flags_upgradetype := Some "Mixed";
     flags_apexcompile := Some "all"; flags_securitytype := Some "AllUsers";
     flags_noprompt := true |}.

(** [--package 04t000000000001 --upgradetype Delete --apexcompile package
    --securitytype AdminsOnly], prompts allowed. *)
Definition deleteFlags : Flags :=
  {| flags_id := None; flags_package := Some "04t000000000001";
     flags_wait := None; flags_installationkey := None;
     flags_publishwait := Some (ofZ 1); flags_upgradetype := Some "Delete";
     flags_apexcompile := Some "package"; flags_securitytype := Some "AdminsOnly";
     flags_noprompt := false |}.

(** Both identifier flags at once. *)
Definition bothFlags : Flags :=
  {| flags_id := Some "04t000000000001"; flags_package := Some "my-alias";
     flags_wait := None; flags_installationkey := None;
     flags_publishwait := None; flags_upgradetype := Some "Mixed";
     flags_apexcompile := Some "all"; flags_securitytype := Some "AllUsers";
     flags_noprompt := true |}.

Definition contextOf (flags : Flags) : Context :=
  {| context_org := someOrg; context_flags := flags;
     context_command_flags := commandFlags |}.

(** Collaborators: ids are accepted when they start with 04t; the version
    has the given container type and no trusted sites; the create call
    answers with an id; the first retrieval finds the request in
    progress, the later ones in the status [final]. *)
Definition remote (container final : string) (errs : option ErrorsBag) : Env :=
  {| SUBSCRIBER_PACKAGE_VERSION_ID_prefix := "04t";
     getPackageIdFromAlias := fun alias => Ok alias;
     validateId := fun v => match v with
                            | Some s => Str.startsWith s "04t"
                            | None => false
                            end;
     getSubscriberPackageVersionQuery := fun _ _ _ _ =>
       Ok {| package2ContainerOptions := Some container; trustedSites := None |};
     toolingCreate := fun _ => Ok {| createdId := Some "0Hf000000000001" |};
     toolingRetrieve := fun n _ =>
       Ok (if (n =? 0)%nat then installRequest "IN_PROGRESS" None
           else installRequest final errs) |}.

(** A user who answers no to every prompt. *)
Definition sayNo : option (Message -> string) := Some (fun _ => "no").

(** An instance whose poll interval was set to seven seconds. *)
Definition sevenSeconds : Command :=
  {| pollIntervalMillis := ofZ 7000;
     replicationPollIntervalMillis := ofZ 7000;
     maxRetries := DEFAULT_MAX_RETRIES;
     allPackageVersionId := None;
     installationKey := None;
     publishwait := ofZ 1;
     stdinPrompt := None;
     packageInstallRequest := emptyRequest;
     org := None |}.



(** [--id 04t000000000001], prompts allowed. *)
Definition askFlags : Flags :=
  {| flags_id := Some "04t000000000001"; flags_package := None;
     flags_wait := None; flags_installationkey := None;
     flags_publishwait := None; flags_upgradetype := Some "Mixed";
     flags_apexcompile := Some "all"; flags_securitytype := Some "AllUsers";
     flags_noprompt := false |}.

(** The state after one retrieval has been made. *)
Definition afterOneRetrieval : St :=
  {| this := constructor None; trace := [Retrieve "0Hf000000000001"]; retrievals := 1 |}.

(** The request submitted for [plainFlags]. *)
Definition plainPayload : InstallRequest :=
  {| subscriberPackageVersionKey := Some (Some "04t000000000001");
     password := Some None;
     upgradeType := None;
     apexCompileType := None;
     securityType := Some (Some "full");
     nameConflictResolution := Some "Block";
     packageInstallSource := Some "U";
     enableRss := Some false |}.

(** The request submitted for [deleteFlags] when the version is not
    Unlocked. *)
Definition deletePayload : InstallRequest :=
  {| subscriberPackageVersionKey := Some (Some "04t000000000001");
     password := Some None;
     upgradeType := None;
     apexCompileType := None;
     securityType := Some (Some "none");
     nameConflictResolution := Some "Block";
     packageInstallSource := Some "U";
     enableRss := Some false |}.

(** The version that [remote] answers with. *)
Definition versionOf (container : string) : SubscriberPackageVersion :=
  {| package2ContainerOptions := Some container; trustedSites := None |}.

(** Collaborators as in [remote], for a version that declares a trusted
    site. *)
Definition remoteWithSites : Env :=
  {| SUBSCRIBER_PACKAGE_VERSION_ID_prefix := "04t";
     getPackageIdFromAlias := fun alias => Ok alias;
     validateId := fun v => match v with
                            | Some s => Str.startsWith s "04t"
                            | None => false
                            end;
     getSubscriberPackageVersionQuery := fun _ _ _ _ =>
       Ok {| package2ContainerOptions := Some "Unlocked";
             trustedSites := Some ["https://example.com"] |};
     toolingCreate := fun _ => Ok {| createdId := Some "0Hf000000000001" |};
     toolingRetrieve := fun _ _ => Ok (installRequest "SUCCESS" None) |}.

(** The version that [remoteWithSites] answers with. *)
Definition versionWithSites : SubscriberPackageVersion :=
  {| package2ContainerOptions := Some "Unlocked";
     trustedSites := Some ["https://example.com"] |}.

(** The request submitted for [plainFlags] to [remoteWithSites]. *)
Definition sitesPayload : InstallRequest :=
  {| subscriberPackageVersionKey := Some (Some "04t000000000001");
     password := Some None;
     upgradeType := None;
     apexCompileType := None;
     securityType := Some (Some "full");
     nameConflictResolution := Some "Block";
     packageInstallSource := Some "U";
     enableRss := Some true |}.





End Scenarios.

(** ** Facts about the string primitives *)

Module StrFacts.
Import Str.

Lemma replaceBackslashes_clean (s : string) :
  occurs backslash (replaceBackslashes s) = false.
Proof.
  induction s as [|c r IH]; simpl; [reflexivity|].
  rewrite IH, orb_false_r.
  destruct (Ascii.eqb c backslash) eqn:E; [reflexivity | exact E].
Qed.

Lemma split_nonempty (sep : ascii) (s : string) : split sep s <> [].
Proof.
  destruct s as [|c r]; simpl; [discriminate|].
  destruct (Ascii.eqb c sep); [discriminate|].
  destruct (split sep r); discriminate.
Qed.

(** The first element of [s.split(sep)] is the part of [s] before the
    first occurrence of [sep]. *)
Lemma split_first_segment (sep : ascii) (s : string) :
  exists rest,
    s = (hd EmptyString (split sep s) ++ rest)%string
    /\ occurs sep (hd EmptyString (split sep s)) = false
    /\ (rest = EmptyString \/ exists r, rest = String sep r).
Proof.
  induction s as [|c r IH]; simpl.
  - exists EmptyString. auto.
  - destruct (Ascii.eqb c sep) eqn:E.
    + apply Ascii.eqb_eq in E. subst c. exists (String sep r). simpl. eauto.
    + destruct IH as (rest & Hr & Ho & Hrest).
      destruct (split sep r) as [|seg segs]; simpl in *.
      * exists rest. rewrite E. subst r. auto.
      * exists rest. rewrite E, Ho. rewrite Hr at 1. auto.
Qed.

End StrFacts.

(** ** Facts about MdapiPackage.addMember *)

Module MdapiPackageFacts.
Import Str StrFacts MdapiPackage.

Lemma locate_Some ty ts pre x post :
  locate ty ts = Some (pre, x, post) ->
  ts = pre ++ x :: post /\ name x = ty /\ locate ty pre = None.
Proof.
  revert pre x post. induction ts as [|e r IH]; simpl; intros pre x post H.
  - discriminate.
  - destruct (name e =? ty) eqn:E.
    + inversion H; subst. apply String.eqb_eq in E. simpl. auto.
    + destruct (locate ty r) as [[[pre' x'] post']|]; [|discriminate].
      inversion H; subst. destruct (IH _ _ _ eq_refl) as (-> & Hn & Hp).
      simpl. rewrite E, Hp. auto.
Qed.

Lemma locate_app ty pre x post :
  locate ty pre = None -> name x = ty ->
  locate ty (pre ++ x :: post) = Some (pre, x, post).
Proof.
  induction pre as [|e r IH]; simpl; intros Hp Hn.
  - rewrite Hn, String.eqb_refl. reflexivity.
  - destruct (name e =? ty); [discriminate|].
    destruct (locate ty r) as [[[? ?] ?]|]; [discriminate|].
    rewrite (IH eq_refl Hn). reflexivity.
Qed.

Lemma pushMember_name m e : name (pushMember m e) = name e.
Proof. reflexivity. Qed.

(** [pushMember] keeps the members in place and adds at most [m]. *)
Lemma pushMember_members m e x :
  In x (membersOf (pushMember m e)) -> In x (membersOf e) \/ x = m.
Proof.
  unfold pushMember, membersOf; simpl.
  destruct (members e) as [ms|];
    destruct (find _ _) as [y|]; try destruct (negb (truthy y));
    rewrite ?in_app_iff; simpl; intuition auto.
Qed.

Lemma find_eqb_In m ms : In m ms -> find (fun x => x =? m) ms = Some m.
Proof.
  induction ms as [|y r IH]; simpl; [tauto|].
  intros [->|H].
  - rewrite String.eqb_refl. reflexivity.
  - destruct (y =? m) eqn:E; [apply String.eqb_eq in E; now subst | auto].
Qed.

Lemma find_eqb_Some m ms y : find (fun x => x =? m) ms = Some y -> y = m /\ In m ms.
Proof.
  intros H. apply find_some in H. destruct H as [Hin E].
  apply String.eqb_eq in E. subst. auto.
Qed.

(** A truthy name is in the members after [pushMember]; an empty one too. *)
Lemma pushMember_In m e : In m (membersOf (pushMember m e)).
Proof.
  unfold pushMember, membersOf; simpl.
  destruct (members e) as [ms|]; simpl.
  - destruct (find _ ms) as [y|] eqn:F.
    + apply find_eqb_Some in F. destruct F as [-> Hin].
      destruct (negb (truthy m)); [apply in_or_app; simpl|]; auto.
    + apply in_or_app; simpl; auto.
  - auto.
Qed.

(** Pushing a truthy name a second time changes nothing. *)
Lemma pushMember_twice m e :
  m <> "" -> pushMember m (pushMember m e) = pushMember m e.
Proof.
  intros Hm.
  assert (Hin := pushMember_In m e).
  unfold membersOf in Hin.
  unfold pushMember at 1.
  destruct (members (pushMember m e)) as [ms|] eqn:E; [|destruct Hin].
  rewrite (find_eqb_In _ _ Hin).
  assert (Ht : truthy m = true).
  { unfold truthy. destruct (m =? "") eqn:E0; [apply String.eqb_eq in E0; contradiction | reflexivity]. }
  rewrite Ht. simpl. rewrite <- E. reflexivity.
Qed.

Lemma bundle_trimmed ty : isBundleType ty = true -> trim ty = ty /\ ty <> "Layout".
Proof.
  unfold isBundleType. intros H.
  apply orb_true_iff in H. destruct H as [H|H];
    [apply orb_true_iff in H; destruct H as [H|H]|];
    apply String.eqb_eq in H; subst ty; split; (reflexivity || discriminate).
Qed.

(** Where [addMember] does not throw, it stores [storedName] in one entry
    and leaves the rest of [types] as it was. *)
Lemma addMember_Ok sep p fn ty p' :
  addMember sep p (Some fn) (Some ty) = Ok p' ->
  let m := storedName sep fn ty in
  (exists pre e post,
      locate ty (types p) = Some (pre, e, post)
      /\ types p' = pre ++ pushMember m e :: post)
  \/ (locate ty (types p) = None
      /\ types p' = types p ++ [pushMember m {| name := trim ty; members := None |}]).
Proof.
  unfold addMember.
  destruct (String.length (trim fn) =? 0)%nat; [discriminate|].
  destruct (String.length (trim ty) =? 0)%nat; [discriminate|].
  destruct (locate ty (types p)) as [[[pre e] post]|] eqn:L; intros H; inversion H; subst; simpl.
  - left. eauto.
  - right. auto.
Qed.

Lemma storedName_clean sep fn ty :
  ty <> "Layout" -> occurs backslash (storedName sep fn ty) = false.
Proof.
  intros H. unfold storedName.
  destruct (ty =? "Layout") eqn:E; [apply String.eqb_eq in E; contradiction|].
  simpl. apply replaceBackslashes_clean.
Qed.

Lemma forwardSlashed_pushMember sep fn ty e :
  (name e <> "Layout" -> ty <> "Layout") ->
  (name e <> "Layout" ->
   forall m, In m (membersOf e) -> occurs backslash m = false) ->
  name e <> "Layout" ->
  forall m, In m (membersOf (pushMember (storedName sep fn ty) e)) ->
            occurs backslash m = false.
Proof.
  intros Hty Hold Hn m Hin.
  apply pushMember_members in Hin. destruct Hin as [Hin| ->].
  - auto.
  - apply storedName_clean. auto.
Qed.

(** Repeating [addMember] changes nothing when the type name carries no
    surrounding white space and the stored name is not empty. *)
Lemma addMember_idempotent sep p fn ty p1 :
  trim ty = ty -> storedName sep fn ty <> "" ->
  addMember sep p (Some fn) (Some ty) = Ok p1 ->
  addMember sep p1 (Some fn) (Some ty) = Ok p1.
Proof.
  intros Hty Hm. unfold addMember.
  destruct (String.length (trim fn) =? 0)%nat; [discriminate|].
  destruct (String.length (trim ty) =? 0)%nat; [discriminate|].
  destruct (locate ty (types p)) as [[[pre e] post]|] eqn:L; intros H; inversion H; subst; simpl.
  - apply locate_Some in L. destruct L as (_ & Hn & Hp).
    rewrite (locate_app ty pre (pushMember _ e) post Hp Hn).
    rewrite pushMember_twice by assumption. reflexivity.
  - rewrite (locate_app ty (types p) (pushMember _ _) [] L) by (simpl; assumption).
    rewrite pushMember_twice by assumption. reflexivity.
Qed.

End MdapiPackageFacts.

(** ** The statements about MdapiPackage *)

Section AddMember.
Import Str StrFacts MdapiPackage MdapiPackageFacts.

(** C9, evaluated where it fails.  Adding the same pair twice is not
    always without effect: a type name with surrounding white space is
    looked up as given but stored trimmed, so the second call creates a
    second entry; and a bundle member whose first segment is empty is
    found again but taken for missing, so it is pushed a second time. *)
Theorem addMember_twice_changes_types :
  (addMember "/" emptyPackage (Some "A") (Some " ApexClass")
     = Ok (withTypes emptyPackage [ {| name := "ApexClass"; members := Some ["A"] |} ])
   /\ addMemberTwice "/" emptyPackage (Some "A") (Some " ApexClass")
     = Ok (withTypes emptyPackage [ {| name := "ApexClass"; members := Some ["A"] |};
                                    {| name := "ApexClass"; members := Some ["A"] |} ]))
  /\ (addMember "/" emptyPackage (Some "/cmp") (Some "AuraDefinitionBundle")
       = Ok (withTypes emptyPackage
               [ {| name := "AuraDefinitionBundle"; members := Some [""] |} ])
      /\ addMemberTwice "/" emptyPackage (Some "/cmp") (Some "AuraDefinitionBundle")
       = Ok (withTypes emptyPackage
               [ {| name := "AuraDefinitionBundle"; members := Some [""; ""] |} ])).
Proof. repeat split; reflexivity. Qed.

(** C10.  Where [addMember] succeeds, it preserves the invariant that the
    members stored under every type other than Layout hold no backslash;
    and for the three bundle types the name stored is the first path
    segment of the trimmed [fullName], with forward slashes, all other
    members being the ones held before. *)
Theorem addMember_forward_slashes_first_segment
    (sep : ascii) (p p' : Package) (fn ty : string)
    (H : addMember sep p (Some fn) (Some ty) = Ok p') :
  (forwardSlashed (types p) -> forwardSlashed (types p'))
  /\ (isBundleType ty = true -> storesFirstSegment sep (types p) (types p') fn ty).
Proof.
  apply addMember_Ok in H. simpl in H. split.
  - intros Inv e0 Hin Hn m Hm.
    destruct H as [(pre & e & post & L & Hp') | (L & Hp')]; rewrite Hp' in Hin.
    + apply locate_Some in L. destruct L as (Ht & Hname & _).
      apply in_app_or in Hin. destruct Hin as [Hin | [<- | Hin]].
      * apply (Inv e0); [rewrite Ht; apply in_or_app; auto | assumption | assumption].
      * revert m Hm. apply forwardSlashed_pushMember; [congruence | | exact Hn].
        intros Hn' m Hm. apply (Inv e); [rewrite Ht; apply in_or_app; simpl; auto | assumption | assumption].
      * apply (Inv e0); [rewrite Ht; apply in_or_app; simpl; auto | assumption | assumption].
    + apply in_app_or in Hin. destruct Hin as [Hin | [<- | []]].
      * apply (Inv e0); assumption.
      * revert m Hm. apply forwardSlashed_pushMember; simpl; [ | intros _ m [] | exact Hn].
        intros Hne ->. apply Hne. reflexivity.
  - intros Hb. destruct (bundle_trimmed ty Hb) as [Htrim Hlay].
    assert (Hm : storedName sep fn ty
                 = replaceBackslashes (hd EmptyString (split sep (trim fn)))).
    { unfold storedName. rewrite Hb.
      destruct (ty =? "Layout") eqn:E; [apply String.eqb_eq in E; contradiction | reflexivity]. }
    rewrite Hm in H.
    destruct (split_first_segment sep (trim fn)) as (rest & Hs & Ho & Hr).
    exists (hd EmptyString (split sep (trim fn))), rest.
    repeat split; try assumption.
    + destruct H as [(pre & e & post & L & Hp') | (L & Hp')]; rewrite Hp'.
      * apply locate_Some in L. destruct L as (_ & Hname & _).
        exists (pushMember (replaceBackslashes (hd EmptyString (split sep (trim fn)))) e).
        repeat split; [apply in_or_app; simpl; auto | exact Hname | apply pushMember_In].
      * eexists. repeat split; [apply in_or_app; simpl; eauto | exact Htrim | apply pushMember_In].
    + intros e' m' Hin Hm'.
      destruct H as [(pre & e & post & L & Hp') | (L & Hp')]; rewrite Hp' in Hin.
      * apply locate_Some in L. destruct L as (Ht & Hname & _).
        apply in_app_or in Hin. destruct Hin as [Hin | [<- | Hin]].
        -- right. exists e'. rewrite Ht. repeat split; [apply in_or_app; auto | assumption].
        -- apply pushMember_members in Hm'. destruct Hm' as [Hm'| ->]; [right | left; reflexivity].
           exists e. rewrite Ht. repeat split; [apply in_or_app; simpl; auto | assumption].
        -- right. exists e'. rewrite Ht. repeat split; [apply in_or_app; simpl; auto | assumption].
      * apply in_app_or in Hin. destruct Hin as [Hin | [<- | []]].
        -- right. exists e'. auto.
        -- apply pushMember_members in Hm'. destruct Hm' as [[] | ->]. left; reflexivity.
Qed.

Lemma addMember_forward_slashes_first_segment_witness :
  addMember "/" Scenarios.bundlePackage (Some " list\view/helper.js ")
      (Some "AuraDefinitionBundle") = Ok Scenarios.bundlePackage'
  /\ ((forwardSlashed (types Scenarios.bundlePackage) ->
       forwardSlashed (types Scenarios.bundlePackage'))
      /\ (isBundleType "AuraDefinitionBundle" = true ->
          storesFirstSegment "/" (types Scenarios.bundlePackage)
            (types Scenarios.bundlePackage')
            " list\view/helper.js " "AuraDefinitionBundle")).
Proof.
  split; [reflexivity|].
  exact (addMember_forward_slashes_first_segment "/" Scenarios.bundlePackage
           Scenarios.bundlePackage'
           " list\view/helper.js " "AuraDefinitionBundle" eq_refl).
Defined.

End AddMember.

(** ** Facts about numbers *)

Module NumbersFacts.
Import Numbers.
Local Open Scope Z_scope.
Local Open Scope Q_scope.

(** *** Powers of two *)











(** *** Rounding *)






























(** *** parseInt *)

Lemma parseInt_zero s : parseInt (Zero s) = Zero false.
Proof. reflexivity. Qed.




(** *** The doubles of the Standard Library *)

(** On the numbers of the two runs that show a rounding error, the
    arithmetic above gives what [SFdiv] and [SFmul] of the Standard Library
    give. *)
Lemma agrees_with_SpecFloat :
  mul (div (ofZ 60000) (ofZ 26400)) (ofZ 11)
  = ofSpecFloat (SFmul 53 1024
                   (SFdiv 53 1024 (specFloatOfZ 60000) (specFloatOfZ 26400))
                   (specFloatOfZ 11))
  /\ mul (div (ofZ 60000) (ofZ 7000)) (ofZ 1)
     = ofSpecFloat (SFmul 53 1024
                      (SFdiv 53 1024 (specFloatOfZ 60000) (specFloatOfZ 7000))
                      (specFloatOfZ 1))
  /\ div (ofZ 1) (ofZ 0) = ofSpecFloat (SFdiv 53 1024 (specFloatOfZ 1) (specFloatOfZ 0))
  /\ mul (div (ofZ 1) (ofZ 0)) (ofZ 0)
     = ofSpecFloat (SFmul 53 1024
                      (SFdiv 53 1024 (specFloatOfZ 1) (specFloatOfZ 0))
                      (specFloatOfZ 0)).
Proof. vm_compute. repeat split. Qed.

End NumbersFacts.

(** ** Facts about the parts of PackageInstallCommand *)

Module PackageInstallFacts.
Import Str PackageInstall Traces.

Lemma append_assoc (a b c : string) : ((a ++ b) ++ c = a ++ (b ++ c))%string.
Proof. induction a as [|x a IH]; simpl; [reflexivity | now rewrite IH]. Qed.

Lemma append_empty_r (a : string) : (a ++ "")%string = a.
Proof. induction a as [|x a IH]; simpl; [reflexivity | now rewrite IH]. Qed.

(** The loop appends the numbered lines to what it starts from. *)
Lemma appendErrors_numbered (es : list ErrorEntry) :
  forall i acc, appendErrors i es acc = (acc ++ numberedErrors (i + 1) es)%string.
Proof.
  induction es as [|e r IH]; intros i acc.
  - simpl. now rewrite append_empty_r.
  - cbn [appendErrors numberedErrors]. rewrite IH.
    replace (S i + 1)%nat with (S (i + 1)) by lia.
    rewrite !append_assoc. reflexivity.
Qed.

(** *** The monad *)

Section Steps.
Variable R : St -> St -> Prop.
Hypothesis R_refl : forall s, R s s.
Hypothesis R_trans : forall a b c, R a b -> R b c -> R a c.

Lemma steps_ret {A} (a : A) : steps R (ret a).
Proof. intros st out st' H. inversion H. apply R_refl. Qed.

Lemma steps_throw {A} e : steps R (@throw A e).
Proof. intros st out st' H. inversion H. apply R_refl. Qed.

Lemma steps_outOfFuel {A} : steps R (@outOfFuel A).
Proof. intros st out st' H. inversion H. apply R_refl. Qed.

Lemma steps_getThis : steps R getThis.
Proof. intros st out st' H. inversion H. apply R_refl. Qed.

Lemma steps_liftResult {A} (r : Result A) : steps R (liftResult r).
Proof. destruct r; [apply steps_ret | apply steps_throw]. Qed.

Lemma steps_bind {A B} (c : M A) (k : A -> M B) :
  steps R c -> (forall a, steps R (k a)) -> steps R (bind c k).
Proof.
  intros Hc Hk st out st'. unfold bind.
  destruct (c st) as [[a| e|] st1] eqn:E; intros H.
  - eapply R_trans; [eapply Hc; eassumption | eapply Hk; eassumption].
  - inversion H; subst. eapply Hc; eassumption.
  - inversion H; subst. eapply Hc; eassumption.
Qed.

End Steps.

Lemma background_refl st : background st st.
Proof.
  repeat split; try reflexivity. exists []. now rewrite app_nil_r.
Qed.

Lemma background_trans a b c : background a b -> background b c -> background a c.
Proof.
  intros ((ev1 & T1 & Q1) & P1 & I1) ((ev2 & T2 & Q2) & P2 & I2).
  repeat split; try congruence.
  exists (ev1 ++ ev2). rewrite T2, T1, app_assoc, forallb_app, Q1, Q2. auto.
Qed.

Lemma background_emit e : quiet e = true -> steps background (emit e).
Proof.
  intros Q st out st' H. inversion H; subst; simpl.
  repeat split. exists [e]. simpl. now rewrite Q.
Qed.

Lemma background_modify f :
  (forall c, stdinPrompt (f c) = stdinPrompt c
             /\ packageInstallRequest (f c) = packageInstallRequest c) ->
  steps background (modify f).
Proof.
  intros Hf st out st' H. inversion H; subst; simpl.
  destruct (Hf (this st)) as [H1 H2].
  repeat split; try assumption. exists []. now rewrite app_nil_r.
Qed.

Lemma background_retrieve env id : steps background (retrieve env id).
Proof.
  intros st out st'. unfold retrieve.
  destruct (toolingRetrieve env (retrievals st) id); simpl; intros H;
    inversion H; subst; simpl; (repeat split; exists [Retrieve id]; auto).
Qed.

(** One step through a monadic term, for a relation with the given proofs
    of reflexivity and transitivity; [leaf] deals with the primitive
    actions that change the state. *)
Ltac steps_step refl trans leaf :=
  first
    [ apply steps_ret; exact refl
    | apply steps_throw; exact refl
    | apply steps_outOfFuel; exact refl
    | apply steps_getThis; exact refl
    | apply steps_liftResult; exact refl
    | leaf
    | apply (steps_bind _ trans); [| intros ?]
    | match goal with
      | |- steps _ (if ?b then _ else _) => destruct b
      | |- steps _ (match ?x with _ => _ end) => destruct x
      end ].

Ltac background_step :=
  steps_step background_refl background_trans
    ltac:(first [ apply background_retrieve
                | apply background_emit; reflexivity
                | apply background_modify; intros; split; reflexivity ]).

Lemma pollFrom_eq env fuel context id retries :
  pollFrom env fuel context id retries =
  (modify (set_org (context_org context)) ;;
   request <- retrieve env id ;;
   if Status request =? "SUCCESS" then ret request
   else if Status request =? "ERROR" then
     let err := readInstallErrorsAsString request in
     emit (LogError (Text "Encountered errors installing the package!") err) ;;
     throw (Error (Text err))
   else if Qltb 0 retries then
     emit (Log (Lookup "installStatus" [Status request] "packaging")) ;;
     c <- getThis ;;
     emit (Delay (pollIntervalMillis c)) ;;
     match fuel with
     | S fuel' => pollFrom env fuel' context id (retries - 1)%Q
     | O => outOfFuel
     end
   else ret request).
Proof. destruct fuel; reflexivity. Qed.

Lemma background_pollFrom env context id fuel :
  forall retries, steps background (pollFrom env fuel context id retries).
Proof.
  induction fuel as [|fuel IH]; intros retries; rewrite pollFrom_eq;
    cbv zeta; repeat background_step; apply IH.
Qed.

(** What holds of [poll] for every count and all fuel holds of it for the
    number that [execute] holds. *)
Lemma steps_pollNumber (R : St -> St -> Prop) env context id n :
  (forall fuel retries, steps R (pollFrom env fuel context id retries)) ->
  steps R (pollNumber env context id n).
Proof.
  intros H. unfold pollNumber, poll. destruct (countdown n); apply H.
Qed.

Lemma background_prompt noninteractive msg :
  steps background (_prompt noninteractive msg).
Proof. unfold _prompt. repeat background_step. Qed.

Lemma background_resolveVersion env context :
  steps background (resolveVersion env context).
Proof.
  unfold resolveVersion. cbv zeta. repeat background_step.
Qed.

Lemma background_confirm context spv : steps background (confirm context spv).
Proof.
  unfold confirm. cbv zeta.
  repeat first [apply background_prompt | background_step].
Qed.

Lemma quiet_not_Create evs payload :
  forallb quiet evs = true -> ~ In (Create payload) evs.
Proof.
  intros Q Hin. rewrite forallb_forall in Q. apply Q in Hin. discriminate.
Qed.

Lemma quiet_not_warning evs key :
  forallb quiet evs = true -> ~ In (Log (PackagingLookup key)) evs.
Proof.
  intros Q Hin. rewrite forallb_forall in Q. apply Q in Hin. discriminate.
Qed.

(** *** The construction of the request *)

Lemma constructRequest_run context spv enable st :
  exists st3,
    constructRequest context spv enable st = (Returned tt, st3)
    /\ trace st3 = trace st ++ warnings context spv
    /\ upgradeType (packageInstallRequest (this st3))
       = (if negb (strictEq (flags_upgradetype (context_flags context)) UPGRADE_TYPE_KEY_MIXED)
             && isUnlocked spv
          then Some (mapGet UPGRADE_TYPE_MAP (flags_upgradetype (context_flags context)))
          else upgradeType (packageInstallRequest (this st)))
    /\ apexCompileType (packageInstallRequest (this st3))
       = (if negb (strictEq (flags_apexcompile (context_flags context)) APEX_COMPILE_KEY_ALL)
             && isUnlocked spv
          then Some (mapGet APEX_COMPILE_MAP (flags_apexcompile (context_flags context)))
          else apexCompileType (packageInstallRequest (this st)))
    /\ securityType (packageInstallRequest (this st3))
       = Some (mapGet SECURITY_TYPE_MAP (flags_securitytype (context_flags context))).
Proof.
  unfold constructRequest, warnings, bind, getThis, assign, modify, emit, ret. cbv zeta.
  destruct (negb (strictEq (flags_upgradetype (context_flags context)) UPGRADE_TYPE_KEY_MIXED));
    destruct (negb (strictEq (flags_apexcompile (context_flags context)) APEX_COMPILE_KEY_ALL));
    destruct (isUnlocked spv); simpl;
    eexists; (split; [reflexivity|]); simpl;
    rewrite <- ?app_assoc, ?app_nil_r; auto.
Qed.

Lemma warnings_not_Create context spv payload : ~ In (Create payload) (warnings context spv).
Proof.
  unfold warnings, warningUpgradeType, warningApexCompile. intros H.
  apply in_app_or in H.
  destruct H as [H|H];
    match type of H with In _ (if ?b then _ else _) => destruct b end;
    simpl in H; intuition discriminate.
Qed.

(** *** The create call and the polling *)

Lemma submit_run env context st out st' :
  submit env context st = (out, st') ->
  exists evs,
    trace st' = trace st ++ Create (packageInstallRequest (this st)) :: evs
    /\ forallb quiet evs = true.
Proof.
  unfold submit, bind, getThis, emit. simpl.
  destruct (toolingCreate env (packageInstallRequest (this st))) as [result|e]; simpl.
  - destruct (createdId result) as [id|]; simpl.
    + intros H.
      apply (steps_pollNumber background) in H;
        [|intros; apply background_pollFrom].
      destruct H as ((evs & T & Q) & _). simpl in T.
      exists evs. rewrite T, <- app_assoc. split; [reflexivity | assumption].
    + unfold throw. intros H. inversion H; subst; simpl. exists []. split; reflexivity.
  - intros H. inversion H; subst; simpl. exists []. split; reflexivity.
Qed.

(** A create call in the trace of an invocation is the one of [submit],
    made after the three parts before it returned. *)
Lemma execute_created env context c out st' payload :
  execute env context (start c) = (out, st') ->
  In (Create payload) (trace st') ->
  exists spv st1 enable st2 st3,
    resolveVersion env context (start c) = (Returned spv, st1)
    /\ confirm context spv st1 = (Returned enable, st2)
    /\ constructRequest context spv enable st2 = (Returned tt, st3)
    /\ background (start c) st2
    /\ payload = packageInstallRequest (this st3)
    /\ exists evs, trace st' = trace st3 ++ Create payload :: evs
                   /\ forallb quiet evs = true.
Proof.
  unfold execute. unfold bind at 1.
  destruct (resolveVersion env context (start c)) as [[spv|e|] st1] eqn:E1.
  2,3: intros H Hin; inversion H; subst;
       apply background_resolveVersion in E1; destruct E1 as ((evs & T & Q) & _);
       rewrite T in Hin; simpl in Hin; exfalso; eapply quiet_not_Create; eauto.
  assert (B1 := background_resolveVersion _ _ _ _ _ E1).
  unfold bind at 1.
  destruct (confirm context spv st1) as [[enable|e|] st2] eqn:E2.
  2,3: intros H Hin; inversion H; subst;
       apply background_confirm in E2;
       destruct (background_trans _ _ _ B1 E2) as ((evs & T & Q) & _);
       rewrite T in Hin; simpl in Hin; exfalso; eapply quiet_not_Create; eauto.
  assert (B2 := background_trans _ _ _ B1 (background_confirm _ _ _ _ _ E2)).
  destruct (constructRequest_run context spv enable st2) as (st3 & E3 & T3 & _).
  unfold bind. rewrite E3. intros H Hin.
  apply submit_run in H. destruct H as (evs & T & Q).
  exists spv, st1, enable, st2, st3.
  assert (payload = packageInstallRequest (this st3)) as ->.
  { destruct B2 as ((evs2 & T2 & Q2) & _). simpl in T2.
    rewrite T, T3, T2 in Hin.
    apply in_app_or in Hin. destruct Hin as [Hin|[Hin|Hin]].
    - apply in_app_or in Hin. destruct Hin as [Hin|Hin].
      + exfalso. exact (quiet_not_Create _ _ Q2 Hin).
      + exfalso. exact (warnings_not_Create _ _ _ Hin).
    - congruence.
    - exfalso. exact (quiet_not_Create _ _ Q Hin). }
  split; [reflexivity|]. split; [exact E2|]. split; [exact E3|].
  split; [exact B2|]. split; [reflexivity|].
  exists evs. split; assumption.
Qed.

(** *** this.org *)

Lemma orgStays_refl o st : orgStays o st st.
Proof. intros H; exact H. Qed.

Lemma orgStays_trans o a b c : orgStays o a b -> orgStays o b c -> orgStays o a c.
Proof. unfold orgStays. auto. Qed.

Lemma orgStays_pollFrom env context id fuel :
  forall retries,
    steps (orgStays (context_org context)) (pollFrom env fuel context id retries).
Proof.
  induction fuel as [|fuel IH]; intros retries; rewrite pollFrom_eq; cbv zeta;
    repeat steps_step (orgStays_refl (context_org context))
                      (orgStays_trans (context_org context))
                      ltac:(intros st out st' H; try unfold retrieve in H;
                            try destruct (toolingRetrieve _ _ _);
                            inversion H; subst; intros Ho; simpl; solve [auto]);
    apply IH.
Qed.

(** [poll] leaves [this.org] set to the org of its context. *)
Lemma pollFrom_org env context id fuel retries st out st' :
  pollFrom env fuel context id retries st = (out, st') ->
  org (this st') = Some (context_org context).
Proof.
  intros H.
  assert (H' : pollFrom env fuel context id retries
                 {| this := set_org (context_org context) (this st);
                    trace := trace st; retrievals := retrievals st |} = (out, st')).
  { rewrite pollFrom_eq in *. exact H. }
  apply orgStays_pollFrom in H'. apply H'. reflexivity.
Qed.

(** *** Numbers *)

Lemma Qltb_true a b : Qltb a b = true <-> (a < b)%Q.
Proof.
  unfold Qltb. rewrite negb_true_iff. split.
  - intros H. apply Qnot_le_lt. intros L. apply Qle_bool_iff in L. congruence.
  - intros H. destruct (Qle_bool b a) eqn:E; [|reflexivity].
    apply Qle_bool_iff in E. exfalso. exact (Qlt_not_le _ _ H E).
Qed.

Lemma Qltb_zero retries : (retries == 0)%Q -> Qltb 0 retries = false.
Proof.
  intros H. destruct (Qltb 0 retries) eqn:E; [|reflexivity].
  apply Qltb_true in E. rewrite H in E. exfalso. exact (Qlt_irrefl _ E).
Qed.

Lemma Qceiling_positive x : (0 < x)%Q -> (1 <= Qceiling x)%Z.
Proof.
  intros H. assert (L := Qle_ceiling x).
  assert (P : (0 < inject_Z (Qceiling x))%Q) by (eapply Qlt_le_trans; eauto).
  assert (0 < Qceiling x)%Z by (rewrite Zlt_Qlt; exact P).
  lia.
Qed.

Lemma Qceiling_pred x : (Qceiling (x - 1) <= Qceiling x - 1)%Z.
Proof.
  rewrite <- (Qceiling_Z (Qceiling x - 1)).
  apply Qceiling_resp_le.
  unfold Z.sub. rewrite inject_Z_plus. unfold Qminus.
  apply Qplus_le_compat; [apply Qle_ceiling | apply Qle_refl].
Qed.

Lemma inject_Z_nonzero (i : Z) : (0 < i)%Z -> ~ (inject_Z i == 0)%Q.
Proof. intros H E. unfold Qeq in E. simpl in E. lia. Qed.

Lemma Qceiling_minus_one x : Qceiling (x - 1) = (Qceiling x - 1)%Z.
Proof.
  apply Z.le_antisymm; [apply Qceiling_pred|].
  assert (L := Qle_ceiling (x - 1)). assert (U := Qceiling_lt x).
  assert (P : (inject_Z (Qceiling x - 1 - 1) < inject_Z (Qceiling (x - 1)))%Q).
  { eapply Qlt_le_trans; [|exact L].
    unfold Z.sub at 1. rewrite inject_Z_plus. unfold Qminus.
    apply Qplus_lt_l. exact U. }
  rewrite <- Zlt_Qlt in P. lia.
Qed.

Lemma Qltb_ceiling x : Qltb 0 (inject_Z (Qceiling x)) = Qltb 0 x.
Proof.
  destruct (Qltb 0 x) eqn:E.
  - apply Qltb_true in E. apply Qltb_true.
    apply Qceiling_positive in E. rewrite <- (Zlt_Qlt 0). lia.
  - destruct (Qltb 0 (inject_Z (Qceiling x))) eqn:E'; [|reflexivity].
    apply Qltb_true in E'. rewrite <- (Zlt_Qlt 0) in E'.
    assert (U := Qceiling_lt x).
    assert (P : (0 < x)%Q).
    { eapply Qle_lt_trans; [|exact U]. rewrite <- (Zle_Qle 0). lia. }
    apply Qltb_true in P. congruence.
Qed.

(** A budget that is not a whole number allows as many retries as the next
    whole number: [poll] runs the same with [retries] and with its
    ceiling. *)
Lemma pollFrom_rounds_up env context id fuel :
  forall retries st,
    pollFrom env fuel context id retries st
    = pollFrom env fuel context id (inject_Z (Qceiling retries)) st.
Proof.
  induction fuel as [|fuel IH]; intros retries st;
    rewrite (pollFrom_eq _ _ _ _ retries),
            (pollFrom_eq _ _ _ _ (inject_Z (Qceiling retries)));
    unfold bind; rewrite Qltb_ceiling.
  - reflexivity.
  - destruct (modify (set_org (context_org context)) st) as [[[]|e|] s0]; try reflexivity.
    destruct (retrieve env id s0) as [[request|e|] s1]; try reflexivity.
    destruct (Status request =? "SUCCESS"); [reflexivity|].
    destruct (Status request =? "ERROR"); [reflexivity|].
    destruct (Qltb 0 retries); [|reflexivity].
    destruct (emit _ s1) as [[[]|e|] s2]; try reflexivity.
    destruct (getThis s2) as [[c|e|] s3]; try reflexivity.
    destruct (emit _ s3) as [[[]|e|] s4]; try reflexivity.
    cbv beta iota.
    rewrite (IH (retries - 1)%Q), (IH (inject_Z (Qceiling retries) - 1)%Q).
    rewrite Qceiling_minus_one, Qceiling_minus_one, Qceiling_Z. reflexivity.
Qed.

Lemma poll_rounds_up env context id retries st :
  poll env context id retries st
  = poll env context id (inject_Z (Qceiling retries)) st.
Proof.
  unfold poll. rewrite Qceiling_Z. apply pollFrom_rounds_up.
Qed.

(** What the first part of [execute] leaves on [this] and asks of the
    remote: [maxRetries] is [waitRetries] of the wait flag, and the version
    query is made with [publishWaitRetries] of the publish wait then held. *)
Lemma resolveVersion_budgets env context st spv st1 :
  resolveVersion env context st = (Returned spv, st1) ->
  maxRetries (this st1) = waitRetries (this st) (flags_wait (context_flags context))
  /\ publishwait (this st1)
     = match flags_publishwait (context_flags context) with
       | Some w => w
       | None => publishwait (this st)
       end
  /\ pollIntervalMillis (this st1) = pollIntervalMillis (this st)
  /\ replicationPollIntervalMillis (this st1) = replicationPollIntervalMillis (this st)
  /\ exists pre apvId key,
       trace st1 = pre ++ [ VersionQuery apvId key (publishWaitRetries (this st1))
                              (replicationPollIntervalMillis (this st1)) ].
Proof.
  unfold resolveVersion. cbv zeta.
  unfold bind, modify, getThis, emit, ret, throw, liftResult.
  cbn [this trace retrievals].
  repeat (match goal with
          | |- context [if ?b then _ else _] => destruct b
          | |- context [match ?x with _ => _ end] =>
              lazymatch type of x with
              | option _ => destruct x
              | Result _ => destruct x
              end
          end; unfold ret, throw; cbn [this trace retrievals]);
    intros H; inversion H; subst; clear H; cbn [this trace retrievals];
    (split; [reflexivity|]); (split; [reflexivity|]); (split; [reflexivity|]);
    (split; [reflexivity|]); eexists; eexists; eexists; reflexivity.
Qed.

(** *** Fuel *)

Lemma total_ret {A} (a : A) : total (ret a).
Proof. intros st. discriminate. Qed.

Lemma total_throw {A} e : total (@throw A e).
Proof. intros st. discriminate. Qed.

Lemma total_liftResult {A} (r : Result A) : total (liftResult r).
Proof. destruct r; intros st; discriminate. Qed.

Lemma total_emit e : total (emit e).
Proof. intros st. discriminate. Qed.

Lemma total_modify f : total (modify f).
Proof. intros st. discriminate. Qed.

Lemma total_getThis : total getThis.
Proof. intros st. discriminate. Qed.

Lemma total_retrieve env id : total (retrieve env id).
Proof.
  intros st. unfold retrieve. destruct (toolingRetrieve env (retrievals st) id); discriminate.
Qed.

Lemma total_bind {A B} (c : M A) (k : A -> M B) :
  total c -> (forall a, total (k a)) -> total (bind c k).
Proof.
  intros Hc Hk st. unfold bind. specialize (Hc st).
  destruct (c st) as [[a|e|] st1]; simpl in *;
    [apply Hk | discriminate | contradiction].
Qed.

Ltac total_step :=
  first
    [ apply total_ret | apply total_throw | apply total_liftResult
    | apply total_emit | apply total_modify | apply total_getThis
    | apply total_retrieve
    | apply total_bind; [| intros ?]
    | match goal with
      | |- total (if ?b then _ else _) => destruct b eqn:?
      | |- total (match ?x with _ => _ end) => destruct x eqn:?
      end ].

(** Fuel that covers the retries is enough. *)
Lemma pollFrom_total env context id fuel :
  forall retries,
    (Qceiling retries <= Z.of_nat fuel)%Z ->
    total (pollFrom env fuel context id retries).
Proof.
  induction fuel as [|fuel IH]; intros retries Hf; rewrite pollFrom_eq; cbv zeta.
  - do 6 total_step; try solve [repeat total_step].
    exfalso.
    match goal with H : Qltb 0 retries = true |- _ => apply Qltb_true in H;
      apply Qceiling_positive in H end.
    simpl in Hf. lia.
  - repeat total_step. apply IH.
    assert (P := Qceiling_pred retries). lia.
Qed.

Lemma poll_total env context id retries : total (poll env context id retries).
Proof.
  apply pollFrom_total. lia.
Qed.

Lemma total_prompt noninteractive msg : total (_prompt noninteractive msg).
Proof. unfold _prompt. repeat total_step. Qed.

End PackageInstallFacts.

(** ** The statements about PackageInstallCommand *)

Section Install.
Import Str PackageInstall Traces PackageInstallFacts Scenarios.

(** C2.  When the retrieved resource is neither in status SUCCESS nor in
    status ERROR and no retries are left, [poll] returns that resource as
    it was retrieved; nothing is raised, nothing is logged, and no further
    retrieval is made. *)
Theorem poll_no_retries_returns_resource
    (env : Env) (context : Context) (id : string) (retries : Q) (st : St)
    (request : PackageInstallRequest)
    (Hr : toolingRetrieve env (retrievals st) id = Ok request)
    (Hs : Status request <> "SUCCESS")
    (He : Status request <> "ERROR")
    (H0 : (retries == 0)%Q) :
  poll env context id retries st
  = (Returned request,
     {| this := set_org (context_org context) (this st);
        trace := trace st ++ [Retrieve id];
        retrievals := S (retrievals st) |}).
Proof.
  unfold poll. rewrite pollFrom_eq.
  unfold bind, modify, retrieve. cbn [this trace retrievals].
  rewrite Hr. cbn [liftResult ret].
  apply String.eqb_neq in Hs, He. rewrite Hs, He.
  rewrite (Qltb_zero _ H0). reflexivity.
Qed.

Lemma poll_no_retries_returns_resource_witness :
  toolingRetrieve (remote "Unlocked" "SUCCESS" None) 0 "0Hf000000000001"
    = Ok (installRequest "IN_PROGRESS" None)
  /\ poll (remote "Unlocked" "SUCCESS" None) (contextOf plainFlags)
       "0Hf000000000001" 0 (start (constructor None))
     = (Returned (installRequest "IN_PROGRESS" None),
        {| this := set_org someOrg (constructor None);
           trace := [Retrieve "0Hf000000000001"];
           retrievals := 1 |}).
Proof.
  split; [reflexivity|].
  apply (poll_no_retries_returns_resource (remote "Unlocked" "SUCCESS" None)
           (contextOf plainFlags) "0Hf000000000001" 0 (start (constructor None))
           (installRequest "IN_PROGRESS" None));
    [reflexivity | discriminate | discriminate | reflexivity].
Defined.

(** C3.  When the retrieved resource is in status ERROR, [poll] logs and
    raises an error whose message is [readInstallErrorsAsString] of the
    resource: "Installation errors: " followed by one line per entry, a
    line feed, the number of the entry from 1, ") " and its message; for
    the entries "bad field" and "missing perm" exactly the text of the
    claim; and "<empty>" when there is no entry. *)
Theorem poll_error_raises_numbered_message
    (env : Env) (context : Context) (id : string) (retries : Q) (st : St)
    (request : PackageInstallRequest)
    (Hr : toolingRetrieve env (retrievals st) id = Ok request)
    (Hs : Status request = "ERROR") :
  poll env context id retries st
  = (Raised (Error (Text (readInstallErrorsAsString request))),
     {| this := set_org (context_org context) (this st);
        trace := trace st
                 ++ [ Retrieve id;
                      LogError (Text "Encountered errors installing the package!")
                        (readInstallErrorsAsString request) ];
        retrievals := S (retrievals st) |})
  /\ (forall es, Errors request = Some {| errors := Some es |} -> es <> [] ->
        readInstallErrorsAsString request
        = ("Installation errors: " ++ numberedErrors 1 es)%string)
  /\ (Errors request
        = Some {| errors := Some [ {| message := "bad field" |};
                                   {| message := "missing perm" |} ] |} ->
      readInstallErrorsAsString request
      = ("Installation errors: " ++ LF ++ "1) bad field" ++ LF ++ "2) missing perm")%string)
  /\ (Errors request = None \/ Errors request = Some {| errors := None |}
      \/ Errors request = Some {| errors := Some [] |} ->
      readInstallErrorsAsString request = "<empty>").
Proof.
  split; [|split; [|split]].
  - unfold poll. rewrite pollFrom_eq.
    unfold bind, modify, retrieve. cbn [this trace retrievals].
    rewrite Hr. cbn [liftResult ret]. rewrite Hs.
    cbn [String.eqb Ascii.eqb Bool.eqb]. cbv zeta.
    unfold emit, throw. cbn [this trace retrievals].
    rewrite <- app_assoc. reflexivity.
  - intros es HE Hne. unfold readInstallErrorsAsString. rewrite HE. cbn [errors].
    destruct es as [|e r]; [contradiction|].
    cbn [List.length Nat.ltb Nat.leb]. apply appendErrors_numbered.
  - intros HE. unfold readInstallErrorsAsString. rewrite HE. reflexivity.
  - intros [HE|[HE|HE]]; unfold readInstallErrorsAsString; rewrite HE; reflexivity.
Qed.

Lemma poll_error_raises_numbered_message_witness :
  fst (poll (remote "Unlocked" "ERROR" twoErrors) (contextOf plainFlags)
         "0Hf000000000001" 3 afterOneRetrieval)
  = Raised (Error (Text ("Installation errors: " ++ LF ++ "1) bad field"
                         ++ LF ++ "2) missing perm"))).
Proof.
  destruct (poll_error_raises_numbered_message (remote "Unlocked" "ERROR" twoErrors)
              (contextOf plainFlags) "0Hf000000000001" 3 afterOneRetrieval
              (installRequest "ERROR" twoErrors) eq_refl eq_refl) as (Hrun & _ & Htwo & _).
  rewrite Hrun. cbn [fst]. rewrite (Htwo eq_refl). reflexivity.
Defined.

(** C8.  For the resource that [poll] returned, [getHumanSuccessMessage]
    gives the message SUCCESS with the subscriber package version key for
    the status SUCCESS, the empty string for the status TERMINATED, and
    for any other status the message of that status with the id of the
    request and the name of the org.  It is a function of the instance and
    of the resource: it neither takes nor returns the state of the
    invocation. *)
Theorem human_success_message
    (env : Env) (context : Context) (id : string) (retries : Q) (st st' : St)
    (result : PackageInstallRequest)
    (Hpoll : poll env context id retries st = (Returned result, st')) :
  (Status result = "SUCCESS" ->
     getHumanSuccessMessage (this st') result
     = Ok (Lookup "SUCCESS" [SubscriberPackageVersionKey result]
             "package_install_report"))
  /\ (Status result = "TERMINATED" ->
        getHumanSuccessMessage (this st') result = Ok (Text ""))
  /\ (Status result <> "SUCCESS" -> Status result <> "TERMINATED" ->
        getHumanSuccessMessage (this st') result
        = Ok (Lookup (Status result) [Id result; orgName (context_org context)]
                "package_install_report")).
Proof.
  unfold poll in Hpoll. apply pollFrom_org in Hpoll.
  unfold getHumanSuccessMessage. repeat split.
  - intros ->. reflexivity.
  - intros ->. reflexivity.
  - intros Hs Ht. apply String.eqb_neq in Hs, Ht. rewrite Hs, Ht, Hpoll. reflexivity.
Qed.

Lemma human_success_message_witness :
  getHumanSuccessMessage
    (this (snd (poll (remote "Unlocked" "SUCCESS" None) (contextOf plainFlags)
                  "0Hf000000000001" 0 (start (constructor None)))))
    (installRequest "IN_PROGRESS" None)
  = Ok (Lookup "IN_PROGRESS" ["0Hf000000000001"; "scratch@example.com"]
          "package_install_report").
Proof.
  apply (human_success_message (remote "Unlocked" "SUCCESS" None) (contextOf plainFlags)
           "0Hf000000000001" 0 (start (constructor None)) _
           (installRequest "IN_PROGRESS" None) eq_refl);
    discriminate.
Defined.

(** C6.  When both identifier flags are set, or neither is, [execute]
    raises before anything else happens: no alias is looked up and no
    remote call is made.  With the flags id and package declared by the
    command, the error is the message errorRequiredFlags with the tokens
    "--id (-c)", [c] being the short name of the id flag, and
    "--package". *)
Theorem identifier_flags_exclusive
    (env : Env) (context : Context) (st : St)
    (H : (truthy (flags_id (context_flags context)) = true
          /\ truthy (flags_package (context_flags context)) = true)
         \/ (truthy (flags_id (context_flags context)) = false
             /\ truthy (flags_package (context_flags context)) = false)) :
  exists e,
    execute env context st
    = (Raised e,
       {| this := set_org (context_org context) (this st);
          trace := trace st; retrievals := retrievals st |})
    /\ forall idFlag packageFlag,
         find (fun x => flagName x =? "id") (context_command_flags context)
           = Some idFlag ->
         find (fun x => flagName x =? "package") (context_command_flags context)
           = Some packageFlag ->
         e = Error (Lookup "errorRequiredFlags"
                      [ ("--id (-" ++ flagChar idFlag ++ ")")%string; "--package" ]
                      "package_install").
Proof.
  unfold execute, resolveVersion. cbv zeta. unfold bind at 1 2. unfold modify.
  cbn [fst snd].
  assert (Hc : (negb (truthy (flags_id (context_flags context)))
                && negb (truthy (flags_package (context_flags context))))
               || (truthy (flags_id (context_flags context))
                   && truthy (flags_package (context_flags context))) = true).
  { destruct H as [[-> ->]|[-> ->]]; reflexivity. }
  rewrite Hc.
  destruct (find (fun x => flagName x =? "id") (context_command_flags context))
    as [idFlag|] eqn:Fi;
    [destruct (find (fun x => flagName x =? "package") (context_command_flags context))
       as [packageFlag|] eqn:Fp|].
  - eexists. split; [reflexivity|].
    intros i p Hi Hp. inversion Hi; inversion Hp; subst.
    apply find_some in Fi, Fp. destruct Fi as [_ Fi]. destruct Fp as [_ Fp].
    apply String.eqb_eq in Fi, Fp. rewrite Fi, Fp. reflexivity.
  - eexists. split; [reflexivity|]. intros i p _ Hp. discriminate.
  - eexists. split; [reflexivity|]. intros i p Hi. discriminate.
Qed.

Lemma identifier_flags_exclusive_witness :
  execute (remote "Unlocked" "SUCCESS" None) (contextOf bothFlags)
    (start (constructor None))
  = (Raised (Error (Lookup "errorRequiredFlags" ["--id (-i)"; "--package"]
                      "package_install")),
     {| this := set_org someOrg (constructor None); trace := []; retrievals := 0 |}).
Proof.
  destruct (identifier_flags_exclusive (remote "Unlocked" "SUCCESS" None)
              (contextOf bothFlags) (start (constructor None))
              (or_introl (conj eq_refl eq_refl))) as (e & Hrun & He).
  rewrite Hrun. rewrite (He _ _ eq_refl eq_refl). reflexivity.
Defined.

(** C7.  The request of every create call of an invocation carries the
    property securityType, set to what SECURITY_TYPE_MAP holds for the
    flag: "full" for AllUsers, "none" for AdminsOnly, and undefined for
    any other value and for a missing flag. *)
Theorem security_type_payload
    (env : Env) (context : Context) (c : Command)
    (out : Outcome PackageInstallRequest) (st' : St) (payload : InstallRequest)
    (Hrun : execute env context (start c) = (out, st'))
    (Hin : In (Create payload) (trace st')) :
  let requested := flags_securitytype (context_flags context) in
  securityType payload = Some (mapGet SECURITY_TYPE_MAP requested)
  /\ (requested = Some "AllUsers" -> securityType payload = Some (Some "full"))
  /\ (requested = Some "AdminsOnly" -> securityType payload = Some (Some "none"))
  /\ (requested <> Some "AllUsers" -> requested <> Some "AdminsOnly" ->
      securityType payload = Some None).
Proof.
  destruct (execute_created _ _ _ _ _ _ Hrun Hin)
    as (spv & st1 & enable & st2 & st3 & _ & _ & E3 & _ & -> & _).
  destruct (constructRequest_run context spv enable st2) as (st3' & E3' & _ & _ & _ & Sec).
  rewrite E3 in E3'. inversion E3'; subst st3'.
  cbv zeta. rewrite Sec. repeat split.
  - intros ->. reflexivity.
  - intros ->. reflexivity.
  - intros Ha Hb. f_equal.
    destruct (flags_securitytype (context_flags context)) as [v|]; [|reflexivity].
    unfold SECURITY_TYPE_MAP, mapGet, SECURITY_TYPE_KEY_ALLUSERS, SECURITY_TYPE_KEY_ADMINSONLY.
    destruct ("AllUsers" =? v) eqn:E1; [apply String.eqb_eq in E1; congruence|].
    destruct ("AdminsOnly" =? v) eqn:E2; [apply String.eqb_eq in E2; congruence|].
    reflexivity.
Qed.

Lemma security_type_payload_witness :
  In (Create plainPayload)
     (trace (snd (execute (remote "Unlocked" "SUCCESS" None) (contextOf plainFlags)
                    (start (constructor None)))))
  /\ securityType plainPayload = Some (Some "full").
Proof.
  assert (Hin : In (Create plainPayload)
                   (trace (snd (execute (remote "Unlocked" "SUCCESS" None)
                                  (contextOf plainFlags) (start (constructor None))))))
    by (vm_compute; right; left; reflexivity).
  split; [exact Hin|].
  apply (security_type_payload (remote "Unlocked" "SUCCESS" None) (contextOf plainFlags)
           (constructor None) _ _ plainPayload (surjective_pairing _) Hin).
  reflexivity.
Defined.

Lemma In_warnings_upgrade context spv :
  In warningUpgradeType (warnings context spv)
  <-> negb (strictEq (flags_upgradetype (context_flags context)) "Mixed") = true
      /\ isUnlocked spv = false.
Proof.
  unfold warnings, warningUpgradeType, warningApexCompile, UPGRADE_TYPE_KEY_MIXED.
  destruct (negb (strictEq (flags_upgradetype (context_flags context)) "Mixed"));
    destruct (negb (strictEq (flags_apexcompile (context_flags context)) APEX_COMPILE_KEY_ALL));
    destruct (isUnlocked spv); simpl; intuition discriminate.
Qed.

Lemma In_warnings_apex context spv :
  In warningApexCompile (warnings context spv)
  <-> negb (strictEq (flags_apexcompile (context_flags context)) "all") = true
      /\ isUnlocked spv = false.
Proof.
  unfold warnings, warningUpgradeType, warningApexCompile, APEX_COMPILE_KEY_ALL.
  destruct (negb (strictEq (flags_upgradetype (context_flags context)) UPGRADE_TYPE_KEY_MIXED));
    destruct (negb (strictEq (flags_apexcompile (context_flags context)) "all"));
    destruct (isUnlocked spv); simpl; intuition discriminate.
Qed.

(** Where the warnings of an invocation can only come from. *)
Lemma In_warning_trace key pre context spv payload evs :
  forallb quiet pre = true -> forallb quiet evs = true ->
  In (Log (PackagingLookup key)) ((pre ++ warnings context spv) ++ Create payload :: evs)
  <-> In (Log (PackagingLookup key)) (warnings context spv).
Proof.
  intros Qp Qe. rewrite !in_app_iff. simpl. split.
  - intros [[H|H]|[H|H]].
    + exfalso. exact (quiet_not_warning _ _ Qp H).
    + exact H.
    + discriminate.
    + exfalso. exact (quiet_not_warning _ _ Qe H).
  - auto.
Qed.

(** C4, as the code has it.  In the request of every create call, the
    property upgradeType is present exactly when the requested upgrade
    type is not Mixed and the fetched version is Unlocked; the warning is
    logged exactly when the requested upgrade type is not Mixed and the
    version is not Unlocked; with the upgrade type Mixed the property is
    absent and there is no warning.  The same holds for apexCompileType
    and the apex-compile type all. *)
Theorem optional_fields_of_request
    (env : Env) (context : Context) (c : Command)
    (spv : SubscriberPackageVersion) (st1 : St)
    (out : Outcome PackageInstallRequest) (st' : St) (payload : InstallRequest)
    (Hu : upgradeType (packageInstallRequest c) = None)
    (Ha : apexCompileType (packageInstallRequest c) = None)
    (Hfetch : resolveVersion env context (start c) = (Returned spv, st1))
    (Hrun : execute env context (start c) = (out, st'))
    (Hin : In (Create payload) (trace st')) :
  let flags := context_flags context in
  let unlocked := isUnlocked spv in
  let upgradeRequested := negb (strictEq (flags_upgradetype flags) "Mixed") in
  let apexRequested := negb (strictEq (flags_apexcompile flags) "all") in
  upgradeType payload
    = (if upgradeRequested && unlocked
       then Some (mapGet UPGRADE_TYPE_MAP (flags_upgradetype flags)) else None)
  /\ (In warningUpgradeType (trace st') <-> upgradeRequested = true /\ unlocked = false)
  /\ apexCompileType payload
     = (if apexRequested && unlocked
        then Some (mapGet APEX_COMPILE_MAP (flags_apexcompile flags)) else None)
  /\ (In warningApexCompile (trace st') <-> apexRequested = true /\ unlocked = false).
Proof.
  destruct (execute_created _ _ _ _ _ _ Hrun Hin)
    as (spv' & st1' & enable & st2 & st3 & E1 & _ & E3 & B2 & -> & evs & T & Q).
  rewrite Hfetch in E1. inversion E1; subst spv' st1'. clear E1.
  destruct (constructRequest_run context spv enable st2)
    as (st3' & E3' & T3 & U3 & A3 & _).
  rewrite E3 in E3'. inversion E3'; subst st3'. clear E3'.
  destruct B2 as ((pre & T2 & Q2) & _ & P2). simpl in T2, P2.
  rewrite P2, Hu in U3. rewrite P2, Ha in A3.
  rewrite T, T3, T2. cbv zeta.
  split; [exact U3|]. split.
  - unfold warningUpgradeType at 1. rewrite In_warning_trace by assumption.
    apply In_warnings_upgrade.
  - split; [exact A3|].
    unfold warningApexCompile at 1. rewrite In_warning_trace by assumption.
    apply In_warnings_apex.
Qed.

Lemma optional_fields_of_request_witness :
  upgradeType deletePayload = None
  /\ In warningUpgradeType
       (trace (snd (execute (remote "Managed" "SUCCESS" None) (contextOf deleteFlags)
                      (start (constructor sayNo)))))
  /\ apexCompileType deletePayload = None
  /\ In warningApexCompile
       (trace (snd (execute (remote "Managed" "SUCCESS" None) (contextOf deleteFlags)
                      (start (constructor sayNo))))).
Proof.
  assert (Hfetch : resolveVersion (remote "Managed" "SUCCESS" None) (contextOf deleteFlags)
                     (start (constructor sayNo))
                   = (Returned (versionOf "Managed"),
                      snd (resolveVersion (remote "Managed" "SUCCESS" None)
                             (contextOf deleteFlags) (start (constructor sayNo)))))
    by (vm_compute; reflexivity).
  assert (Hin : In (Create deletePayload)
                   (trace (snd (execute (remote "Managed" "SUCCESS" None)
                                  (contextOf deleteFlags) (start (constructor sayNo))))))
    by (vm_compute; do 3 right; left; reflexivity).
  destruct (optional_fields_of_request (remote "Managed" "SUCCESS" None)
              (contextOf deleteFlags) (constructor sayNo) (versionOf "Managed") _ _ _
              deletePayload eq_refl eq_refl Hfetch (surjective_pairing _) Hin)
    as (U & WU & A & WA).
  split; [exact U|]. split; [apply WU; split; reflexivity|].
  split; [exact A|]. apply WA; split; reflexivity.
Defined.

(** C4 as stated fails where the requested values are the defaults: the
    two properties are absent from the submitted request, and no warning is
    logged. *)
Lemma default_options_log_no_warning :
  In (Create plainPayload)
     (trace (snd (execute (remote "Managed" "SUCCESS" None) (contextOf plainFlags)
                    (start (constructor None)))))
  /\ upgradeType plainPayload = None
  /\ apexCompileType plainPayload = None
  /\ ~ In warningUpgradeType
         (trace (snd (execute (remote "Managed" "SUCCESS" None) (contextOf plainFlags)
                        (start (constructor None)))))
  /\ ~ In warningApexCompile
         (trace (snd (execute (remote "Managed" "SUCCESS" None) (contextOf plainFlags)
                        (start (constructor None))))).
Proof.
  split; [vm_compute; right; left; reflexivity|].
  split; [reflexivity|]. split; [reflexivity|].
  split; vm_compute; intros H; repeat (destruct H as [H|H]; [discriminate|]); exact H.
Qed.

(** C5.  When the fetched version is Unlocked, the requested upgrade type
    is Delete and the user does not answer the prompt with yes or y,
    [execute] raises the error promptUpgradeTypeDeny right after the
    prompt, and the trace of the invocation holds no create call. *)
Theorem delete_declined_aborts
    (env : Env) (context : Context) (c : Command)
    (spv : SubscriberPackageVersion) (st1 : St) (ask : Message -> string)
    (Hfetch : resolveVersion env context (start c) = (Returned spv, st1))
    (Hu : package2ContainerOptions spv = Some "Unlocked")
    (Hd : flags_upgradetype (context_flags context) = Some "Delete")
    (Hn : flags_noprompt (context_flags context) = false)
    (Hp : stdinPrompt c = Some ask)
    (Hno : (toUpperCase (ask (Lookup "promptUpgradeType" [] "package_install")) =? "YES")
           || (toUpperCase (ask (Lookup "promptUpgradeType" [] "package_install")) =? "Y")
           = false) :
  exists st2,
    execute env context (start c)
    = (Raised (Error (Lookup "promptUpgradeTypeDeny" [] "package_install")), st2)
    /\ trace st2
       = trace st1 ++ [ Prompt (Lookup "promptUpgradeType" [] "package_install");
                        Log (Text "") ]
    /\ forall payload, ~ In (Create payload) (trace st2).
Proof.
  destruct (background_resolveVersion _ _ _ _ _ Hfetch) as ((evs & T & Q) & P & _).
  simpl in T, P. rewrite Hp in P.
  unfold execute. unfold bind at 1. rewrite Hfetch.
  unfold confirm. cbv zeta. rewrite Hd, Hn. unfold isUnlocked. rewrite Hu.
  change (strictEq (Some "Delete") UPGRADE_TYPE_KEY_DELETE && ("Unlocked" =? "Unlocked"))
    with true. cbv iota.
  unfold _prompt, bind, getThis, emit, ret, throw. cbn [this trace retrievals].
  rewrite P. cbn [this trace retrievals]. rewrite Hno. cbn [negb].
  eexists. split; [reflexivity|]. cbn [trace]. split.
  - rewrite <- app_assoc. reflexivity.
  - intros payload Hin. rewrite T in Hin.
    rewrite <- app_assoc in Hin.
    apply in_app_or in Hin. destruct Hin as [Hin|Hin].
    + exact (quiet_not_Create _ _ Q Hin).
    + simpl in Hin. destruct Hin as [Hin|[Hin|[]]]; discriminate.
Qed.

Lemma delete_declined_aborts_witness :
  fst (execute (remote "Unlocked" "SUCCESS" None) (contextOf deleteFlags)
         (start (constructor sayNo)))
  = Raised (Error (Lookup "promptUpgradeTypeDeny" [] "package_install")).
Proof.
  assert (Hfetch : resolveVersion (remote "Unlocked" "SUCCESS" None) (contextOf deleteFlags)
                     (start (constructor sayNo))
                   = (Returned (versionOf "Unlocked"),
                      snd (resolveVersion (remote "Unlocked" "SUCCESS" None)
                             (contextOf deleteFlags) (start (constructor sayNo)))))
    by (vm_compute; reflexivity).
  destruct (delete_declined_aborts (remote "Unlocked" "SUCCESS" None)
              (contextOf deleteFlags) (constructor sayNo) (versionOf "Unlocked") _
              (fun _ => "no") Hfetch eq_refl eq_refl eq_refl eq_refl eq_refl)
    as (st2 & Hrun & _).
  rewrite Hrun. reflexivity.
Defined.

End Install.

(** ** More facts about MdapiPackage *)

Module ManifestFacts.
Import Str StrFacts MdapiPackage MdapiPackageFacts.

Lemma trimStart_blank s : trimStart s = EmptyString <-> blank s = true.
Proof.
  induction s as [|c r IH]; simpl; [tauto|].
  destruct (isWhite c); simpl; [exact IH|]. split; discriminate.
Qed.

Lemma blank_trimStart s : blank (trimStart s) = blank s.
Proof.
  induction s as [|c r IH]; simpl; [reflexivity|].
  destruct (isWhite c) eqn:E; simpl; [exact IH | now rewrite E].
Qed.

Lemma trimEnd_blank s : trimEnd s = EmptyString <-> blank s = true.
Proof.
  induction s as [|c r IH]; simpl; [tauto|].
  destruct (trimEnd r) eqn:E.
  - destruct (isWhite c); simpl; [tauto|]. split; discriminate.
  - split; [discriminate|]. intros H. apply andb_true_iff in H.
    destruct H as [_ H]. apply IH in H. discriminate.
Qed.

(** [s.trim()] is empty exactly when [s] holds white space only. *)
Lemma trim_blank s : (String.length (trim s) =? 0)%nat = blank s.
Proof.
  unfold trim. rewrite <- (blank_trimStart s).
  destruct (blank (trimStart s)) eqn:B.
  - apply trimEnd_blank in B. rewrite B. reflexivity.
  - destruct (trimEnd (trimStart s)) eqn:E; [|reflexivity].
    apply trimEnd_blank in E. congruence.
Qed.

Lemma replaceBackslashes_empty s : replaceBackslashes s = EmptyString -> s = EmptyString.
Proof. destruct s; simpl; [reflexivity | discriminate]. Qed.

(** Outside the bundle types the stored name of a name that is not blank
    is not empty. *)
Lemma storedName_not_empty sep fn ty :
  isBundleType ty = false -> blank fn = false -> storedName sep fn ty <> EmptyString.
Proof.
  intros Hb Hf. unfold storedName. rewrite Hb.
  assert (Ht : trim fn <> EmptyString).
  { intros E. rewrite <- trim_blank, E in Hf. discriminate. }
  destruct (negb (ty =? "Layout")); [|exact Ht].
  intros E. apply replaceBackslashes_empty in E. contradiction.
Qed.

Lemma find_eqb_None m ms : find (fun x => x =? m) ms = None -> ~ In m ms.
Proof.
  intros F Hin. apply (find_none _ _ F) in Hin. rewrite String.eqb_refl in Hin. discriminate.
Qed.

Lemma NoDup_snoc (m : string) ms : NoDup ms -> ~ In m ms -> NoDup (ms ++ [m]).
Proof.
  induction ms as [|x r IH]; simpl; intros N Hn.
  - constructor; [tauto | constructor].
  - inversion N; subst. constructor.
    + rewrite in_app_iff. simpl. intuition congruence.
    + apply IH; tauto.
Qed.

Lemma pushMember_NoDup m e :
  m <> EmptyString -> NoDup (membersOf e) -> NoDup (membersOf (pushMember m e)).
Proof.
  intros Hm N. unfold pushMember, membersOf in *. simpl.
  destruct (members e) as [ms|].
  - destruct (find _ ms) as [y|] eqn:F.
    + apply find_eqb_Some in F. destruct F as [-> _].
      unfold truthy. destruct (m =? "") eqn:E; [apply String.eqb_eq in E; contradiction|].
      exact N.
    + apply NoDup_snoc; [exact N | exact (find_eqb_None _ _ F)].
  - simpl. constructor; [tauto | constructor].
Qed.

Lemma pushMember_extends m e : extends e (pushMember m e).
Proof.
  split; [reflexivity|]. unfold pushMember, membersOf. simpl.
  destruct (members e) as [ms|]; simpl.
  - destruct (find _ ms) as [y|]; [destruct (negb (truthy y))|].
    + exists [m]. reflexivity.
    + exists []. now rewrite app_nil_r.
    + exists [m]. reflexivity.
  - exists [m]. reflexivity.
Qed.

Lemma extends_refl e : extends e e.
Proof. split; [reflexivity|]. exists []. now rewrite app_nil_r. Qed.

Lemma Forall2_extends_refl ts : Forall2 extends ts ts.
Proof. induction ts; constructor; auto using extends_refl. Qed.

(** *** The pattern of setVersion *)

(** The pattern matches at the start of [s] exactly when [s] starts with
    digits that are followed by a character other than a line terminator
    and then by a 0. *)
Lemma matchHere_version_inv s :
  matchHere versionPattern s = true ->
  exists pre c post,
    s = (pre ++ String c (String "0" post))%string /\ isLineTerminator c = false.
Proof.
  unfold versionPattern. cbn [matchHere starred accepts].
  induction s as [|c r IH].
  - cbn. discriminate.
  - intros H. apply orb_true_iff in H. destruct H as [H|H].
    + apply andb_true_iff in H. destruct H as [Hc H].
      destruct r as [|d r']; [discriminate|].
      apply andb_true_iff in H. destruct H as [Hd _].
      apply Ascii.eqb_eq in Hd. subst d.
      exists EmptyString, c, r'. split; [reflexivity|].
      now apply negb_true_iff in Hc.
    + apply andb_true_iff in H. destruct H as [_ H].
      destruct (IH H) as (pre & x & post & -> & Hx).
      exists (String c pre), x, post. split; [reflexivity | exact Hx].
Qed.

Lemma matchAnywhere_version_inv s :
  matchAnywhere versionPattern s = true ->
  exists pre c post,
    s = (pre ++ String c (String "0" post))%string /\ isLineTerminator c = false.
Proof.
  induction s as [|c r IH]; cbn [matchAnywhere]; intros H;
    apply orb_true_iff in H; destruct H as [H|H].
  - apply matchHere_version_inv in H. exact H.
  - discriminate.
  - apply matchHere_version_inv in H. exact H.
  - destruct (IH H) as (pre & x & post & -> & Hx).
    exists (String c pre), x, post. split; [reflexivity | exact Hx].
Qed.

Lemma matchAnywhere_version pre c post :
  isLineTerminator c = false ->
  matchAnywhere versionPattern (pre ++ String c (String "0" post)) = true.
Proof.
  intros Hc. induction pre as [|x pre IH].
  - cbn [append matchAnywhere]. apply orb_true_iff. left.
    unfold versionPattern. cbn [matchHere starred accepts].
    apply orb_true_iff. left. rewrite Hc. reflexivity.
  - cbn [append matchAnywhere]. rewrite IH. apply orb_true_r.
Qed.

(** *** Objects *)

Lemma objGet_objSet_same {V} (o : Obj V) k v : objGet (objSet k v o) k = Some v.
Proof.
  induction o as [|[k' v'] r IH]; simpl.
  - now rewrite String.eqb_refl.
  - destruct (k' =? k) eqn:E; simpl; [now rewrite String.eqb_refl | now rewrite E].
Qed.

Lemma objGet_objSet_other {V} (o : Obj V) k v k' :
  k <> k' -> objGet (objSet k v o) k' = objGet o k'.
Proof.
  intros Hk. induction o as [|[k0 v0] r IH]; simpl.
  - destruct (k =? k') eqn:E; [apply String.eqb_eq in E; contradiction | reflexivity].
  - destruct (k0 =? k) eqn:E; simpl.
    + apply String.eqb_eq in E. subst k0.
      destruct (k =? k') eqn:E'; [apply String.eqb_eq in E'; contradiction | reflexivity].
    + destruct (k0 =? k'); [reflexivity | exact IH].
Qed.

Lemma zipObjectFrom_other i props values acc k :
  ~ In k props -> objGet (zipObjectFrom i props values acc) k = objGet acc k.
Proof.
  revert i acc. induction props as [|prop rest IH]; intros i acc Hn; simpl; [reflexivity|].
  rewrite IH by (simpl in Hn; tauto).
  destruct (prop =? "__proto__"); [reflexivity|].
  apply objGet_objSet_other. simpl in Hn. tauto.
Qed.

Lemma zipObjectFrom_get props values :
  forall i acc j k,
    NoDup props -> ~ In "__proto__" props ->
    nth_error props j = Some k ->
    objGet (zipObjectFrom i props values acc) k = Some (nth_error values (i + j)).
Proof.
  induction props as [|prop rest IH]; intros i acc j k N P Hj.
  - destruct j; discriminate.
  - inversion N; subst. simpl in P.
    destruct (prop =? "__proto__") eqn:E;
      [apply String.eqb_eq in E; subst; tauto|].
    destruct j as [|j]; cbn [zipObjectFrom]; rewrite E.
    + inversion Hj; subst. rewrite zipObjectFrom_other by assumption.
      rewrite objGet_objSet_same. now rewrite Nat.add_0_r.
    + rewrite (IH (S i) _ j k); try tauto.
      now rewrite Nat.add_succ_r.
Qed.

(** *** Sorting *)

Lemma insertSorted_perm x l : Permutation (x :: l) (insertSorted x l).
Proof.
  induction l as [|y r IH]; simpl; [apply Permutation_refl|].
  destruct (x <=? y)%string; [apply Permutation_refl|].
  eapply perm_trans; [apply perm_swap | apply perm_skip, IH].
Qed.

Lemma sort_perm l : Permutation l (sort l).
Proof.
  induction l as [|x r IH]; simpl; [apply perm_nil|].
  eapply perm_trans; [apply perm_skip, IH | apply insertSorted_perm].
Qed.

Lemma sort_In l m : In m (sort l) <-> In m l.
Proof.
  split; apply Permutation_in; [apply Permutation_sym|]; apply sort_perm.
Qed.

Lemma insertSorted_sorted x l : Sorted lebT l -> Sorted lebT (insertSorted x l).
Proof.
  induction l as [|y r IH]; simpl; intros S.
  - constructor; constructor.
  - destruct (x <=? y)%string eqn:E.
    + constructor; [exact S | constructor; exact E].
    + inversion S as [|? ? Sr Hd]; subst. constructor; [apply IH, Sr|].
      assert (Hyx : lebT y x).
      { destruct (String.leb_total x y) as [H|H]; [congruence | exact H]. }
      destruct r as [|z r']; simpl.
      * constructor. exact Hyx.
      * destruct (x <=? z)%string; constructor; [exact Hyx|].
        inversion Hd; subst. assumption.
Qed.

Lemma sort_sorted l : Sorted lebT (sort l).
Proof.
  induction l as [|x r IH]; simpl; [constructor | apply insertSorted_sorted, IH].
Qed.

Lemma Sorted_ascending l : Sorted lebT l -> ascending l.
Proof.
  induction 1 as [|x l S IH Hd]; intros i a b Ha Hb.
  - destruct i; discriminate.
  - destruct i as [|i]; simpl in Ha, Hb.
    + inversion Ha; subst. destruct l as [|y r]; [discriminate|].
      inversion Hb; subst. inversion Hd; subst. assumption.
    + exact (IH i a b Ha Hb).
Qed.

Lemma sort_ascending l : ascending (sort l).
Proof. apply Sorted_ascending, sort_sorted. Qed.

(** *** The loops of getPackage *)

(** What [sortMembers] makes of the elements it is given. *)
Lemma sortMembers_Ok merged sorted :
  sortMembers merged = Ok sorted ->
  Forall2 (fun given e =>
             exists e0 ms, given = Some e0 /\ members e0 = Some ms
                           /\ name e = name e0 /\ members e = Some (sort ms))
          merged sorted.
Proof.
  revert sorted. induction merged as [|[e0|] rest IH]; simpl; intros sorted H.
  - inversion H. constructor.
  - destruct (members e0) as [ms|] eqn:M; [|discriminate].
    destruct (sortMembers rest) as [s|]; [|discriminate].
    inversion H; subst. constructor; [|apply IH; reflexivity].
    exists e0, ms. auto.
  - discriminate.
Qed.

Lemma sortMembers_In merged sorted e :
  sortMembers merged = Ok sorted -> In e sorted ->
  exists e0 ms, In (Some e0) merged /\ members e0 = Some ms
                /\ name e = name e0 /\ members e = Some (sort ms).
Proof.
  intros H. apply sortMembers_Ok in H.
  induction H as [|g x l l' (e0 & ms & -> & M & N & S) _ IH]; intros Hin.
  - destruct Hin.
  - destruct Hin as [<-|Hin].
    + exists e0, ms. simpl. auto.
    + destruct (IH Hin) as (e1 & ms1 & I1 & R). exists e1, ms1. simpl. auto.
Qed.

Lemma sortMembers_given merged sorted e0 :
  sortMembers merged = Ok sorted -> In (Some e0) merged ->
  exists e ms, In e sorted /\ members e0 = Some ms
               /\ name e = name e0 /\ members e = Some (sort ms).
Proof.
  intros H. apply sortMembers_Ok in H.
  induction H as [|g x l l' (e1 & ms & -> & M & N & S) _ IH]; intros Hin.
  - destruct Hin.
  - destruct Hin as [E|Hin].
    + inversion E; subst. exists x, ms. simpl. auto.
    + destruct (IH Hin) as (e2 & ms2 & I2 & R). exists e2, ms2. simpl. auto.
Qed.

Lemma objGet_objSet_inv {V} (o : Obj V) k v k' x :
  objGet (objSet k v o) k' = Some x ->
  (k = k' /\ x = v) \/ (k <> k' /\ objGet o k' = Some x).
Proof.
  destruct (String.eqb_spec k k') as [<-|N].
  - rewrite objGet_objSet_same. intros H. inversion H. auto.
  - rewrite objGet_objSet_other by assumption. auto.
Qed.

(** The name under which the members of a folder type are merged is not a
    folder type. *)
Lemma childKey_not_folder F :
  includes folderMetadataTypes
    (propertyKey match objGet FOLDER_TO_CHILD_METADATA_TYPE_MAP F with
                 | Some v => v
                 | None => None
                 end) = false.
Proof.
  change FOLDER_TO_CHILD_METADATA_TYPE_MAP
    with [("ReportFolder", Some "Report"); ("DashboardFolder", Some "Dashboard");
          ("DocumentFolder", Some "Document"); ("EmailFolder", Some "EmailTemplate")].
  cbn [objGet].
  destruct ("ReportFolder" =? F); [reflexivity|].
  destruct ("DashboardFolder" =? F); [reflexivity|].
  destruct ("DocumentFolder" =? F); [reflexivity|].
  destruct ("EmailFolder" =? F); reflexivity.
Qed.

Lemma collectFolders_noFolderValue elements :
  forall folders children folders' children',
    noFolderValue children ->
    collectFolders elements folders children = (folders', children') ->
    noFolderValue children'.
Proof.
  induction elements as [|e rest IH]; cbn [collectFolders]; intros f c f' c' Hc H.
  - inversion H; subst. exact Hc.
  - destruct (includes folderMetadataTypes (name e)) eqn:Ef; [eapply IH; eauto|].
    destruct (includes folderChildMetadataTypes (name e)); [|eapply IH; eauto].
    eapply IH; [|exact H].
    intros k v Hg. apply objGet_objSet_inv in Hg.
    destruct Hg as [[_ ->]|[_ Hg]]; [exact Ef | eapply Hc; eauto].
Qed.

Lemma mergeFolders_noFolder folders :
  forall children new children' new',
    noFolderValue children ->
    (forall e, In e new -> includes folderMetadataTypes (name e) = false) ->
    mergeFolders folders children new = Ok (children', new') ->
    noFolderValue children'
    /\ (forall e, In e new' -> includes folderMetadataTypes (name e) = false).
Proof.
  induction folders as [|[F fe] rest IH]; cbn [mergeFolders]; intros c n c' n' Hc Hn H.
  - inversion H; subst. auto.
  - cbv zeta in H.
    destruct (objGet c (propertyKey _)) as [ce|] eqn:G.
    + destruct (members ce) as [cm|]; [|discriminate].
      destruct (members fe) as [fm|]; [|discriminate].
      eapply IH; [| exact Hn | exact H].
      intros k v Hg. apply objGet_objSet_inv in Hg.
      destruct Hg as [[_ ->]|[_ Hg]]; [simpl; eapply Hc; eauto | eapply Hc; eauto].
    + eapply IH; [exact Hc | | exact H].
      intros e Hin. apply in_app_or in Hin. destruct Hin as [Hin|[<-|[]]].
      * apply Hn, Hin.
      * simpl. apply childKey_not_folder.
Qed.

Lemma updateElements_noFolder sharing children elements e0 :
  noFolderValue children ->
  (forall s, In s sharing -> includes folderMetadataTypes s = false) ->
  In (Some e0) (updateElements sharing children elements) ->
  includes folderMetadataTypes (name e0) = false.
Proof.
  intros Hc Hs. induction elements as [|e rest IH]; cbn [updateElements]; [intros []|].
  intros Hin. apply in_app_or in Hin. destruct Hin as [Hin|Hin]; [|exact (IH Hin)].
  destruct (includes folderMetadataTypes (name e)) eqn:Ef; [destruct Hin|].
  destruct (includes folderChildMetadataTypes (name e)).
  - destruct Hin as [Hin|[]]. eapply Hc. exact Hin.
  - destruct (includes sharing (name e)).
    + apply in_map_iff in Hin. destruct Hin as (s & E & Hin).
      inversion E; subst. simpl. apply Hs, Hin.
    + destruct Hin as [Hin|[]]. inversion Hin; subst. exact Ef.
Qed.

Lemma collectFolders_plain sharing elements folders children :
  Forall (plainElement sharing) elements ->
  collectFolders elements folders children = (folders, children).
Proof.
  induction 1 as [|e rest (Hf & Hc & _) _ IH]; cbn [collectFolders]; [reflexivity|].
  rewrite Hf, Hc. exact IH.
Qed.

Lemma updateElements_plain sharing children elements :
  Forall (plainElement sharing) elements ->
  updateElements sharing children elements = map Some elements.
Proof.
  induction 1 as [|e rest (Hf & Hc & Hs) _ IH]; cbn [updateElements map]; [reflexivity|].
  rewrite Hf, Hc, Hs, IH. reflexivity.
Qed.

Lemma sortMembers_defined elements :
  Forall (fun e => members e <> None) elements ->
  sortMembers (map Some elements) = Ok (map withSortedMembers elements).
Proof.
  induction 1 as [|e rest He _ IH]; cbn [map sortMembers]; [reflexivity|].
  unfold withSortedMembers at 1, membersOf.
  destruct (members e) as [ms|]; [|contradiction]. rewrite IH. reflexivity.
Qed.

Lemma sortMembers_undefined elements e :
  In e elements -> members e = None -> sortMembers (map Some elements) = Throw TypeError.
Proof.
  induction elements as [|x rest IH]; cbn [map sortMembers]; intros Hin He;
    [destruct Hin|].
  destruct Hin as [<-|Hin].
  - rewrite He. reflexivity.
  - destruct (members x); [|reflexivity]. now rewrite (IH Hin He).
Qed.

(** *** No member is lost *)

Lemma In_objSet_same {V} (o : Obj V) k v : In (k, v) (objSet k v o).
Proof.
  induction o as [|[k' v'] r IH]; simpl; [auto|].
  destruct (k' =? k); simpl; auto.
Qed.

Lemma In_objSet_other {V} (o : Obj V) k v k' v' :
  k <> k' -> In (k, v) o -> In (k, v) (objSet k' v' o).
Proof.
  intros Hk. induction o as [|[k0 v0] r IH]; simpl; [tauto|].
  intros [E|Hin].
  - inversion E; subst. destruct (k =? k') eqn:E'.
    + apply String.eqb_eq in E'. contradiction.
    + simpl. auto.
  - destruct (k0 =? k'); simpl; auto.
Qed.

(** What the first loop keeps of elements with distinct names. *)
Lemma collectFolders_kept elements :
  forall folders children folders' children',
    NoDup (map name elements) ->
    collectFolders elements folders children = (folders', children') ->
    (forall k v, In (k, v) folders -> ~ In k (map name elements) -> In (k, v) folders')
    /\ (forall e, In e elements -> includes folderMetadataTypes (name e) = true ->
                  In (name e, e) folders')
    /\ (forall k, ~ In k (map name elements) -> objGet children' k = objGet children k)
    /\ (forall e, In e elements -> includes folderMetadataTypes (name e) = false ->
                  includes folderChildMetadataTypes (name e) = true ->
                  objGet children' (name e) = Some e).
Proof.
  induction elements as [|e rest IH]; cbn [collectFolders map]; intros f c f' c' N H.
  - inversion H; subst. repeat split; auto; intros ? [].
  - inversion N as [|? ? Hnot Nrest]; subst.
    destruct (includes folderMetadataTypes (name e)) eqn:Ef;
      [|destruct (includes folderChildMetadataTypes (name e)) eqn:Ec];
      destruct (IH _ _ _ _ Nrest H) as (I1 & I2 & I3 & I4); repeat split.
    + intros k v Hin Hn. apply I1; [|simpl in Hn; tauto].
      apply In_objSet_other; [simpl in Hn; intuition congruence | exact Hin].
    + intros x [<-|Hin] Hx; [|apply I2; assumption].
      apply I1; [apply In_objSet_same | exact Hnot].
    + intros k Hn. apply I3. simpl in Hn. tauto.
    + intros x [<-|Hin] Hf Hc; [congruence | apply I4; assumption].
    + intros k v Hin Hn. apply I1; [exact Hin | simpl in Hn; tauto].
    + intros x [<-|Hin] Hx; [congruence | apply I2; assumption].
    + intros k Hn. rewrite I3 by (simpl in Hn; tauto).
      apply objGet_objSet_other. simpl in Hn. tauto.
    + intros x [<-|Hin] Hf Hc; [|apply I4; assumption].
      rewrite I3 by exact Hnot. apply objGet_objSet_same.
    + intros k v Hin Hn. apply I1; [exact Hin | simpl in Hn; tauto].
    + intros x [<-|Hin] Hx; [congruence | apply I2; assumption].
    + intros k Hn. apply I3. simpl in Hn. tauto.
    + intros x [<-|Hin] Hf Hc; [congruence | apply I4; assumption].
Qed.

(** Where the elements kept for the folder child types come from. *)
Lemma collectFolders_children elements :
  forall folders children folders' children' k v,
    collectFolders elements folders children = (folders', children') ->
    objGet children' k = Some v ->
    objGet children k = Some v
    \/ (In v elements /\ name v = k
        /\ includes folderMetadataTypes (name v) = false
        /\ includes folderChildMetadataTypes (name v) = true).
Proof.
  induction elements as [|e rest IH]; cbn [collectFolders]; intros f c f' c' k v H G.
  - inversion H; subst. auto.
  - destruct (includes folderMetadataTypes (name e)) eqn:Ef;
      [|destruct (includes folderChildMetadataTypes (name e)) eqn:Ec];
      destruct (IH _ _ _ _ _ _ H G) as [G'|(Hin & R)];
      try (right; split; [right; exact Hin | exact R]); auto.
    apply objGet_objSet_inv in G'. destruct G' as [[<- ->]|[_ G']]; [|auto].
    right. simpl. auto.
Qed.

Lemma mergeFolders_grows folders :
  forall children new children' new',
    mergeFolders folders children new = Ok (children', new') ->
    (forall k v, objGet children k = Some v ->
       exists v', objGet children' k = Some v' /\ name v' = name v
                  /\ incl (membersOf v) (membersOf v'))
    /\ (forall k v', objGet children' k = Some v' -> exists v, objGet children k = Some v)
    /\ (forall e, In e new -> In e new')
    /\ (forall F fe, In (F, fe) folders ->
          let C := propertyKey match objGet FOLDER_TO_CHILD_METADATA_TYPE_MAP F with
                               | Some v => v
                               | None => None
                               end in
          (exists v', objGet children' C = Some v' /\ incl (membersOf fe) (membersOf v'))
          \/ (exists ne, In ne new' /\ name ne = C /\ members ne = members fe)).
Proof.
  induction folders as [|[F fe] rest IH]; cbn [mergeFolders]; intros c n c' n' H.
  - inversion H; subst. repeat split; eauto using incl_refl. intros ? ? [].
  - cbv zeta in H.
    set (C := propertyKey match objGet FOLDER_TO_CHILD_METADATA_TYPE_MAP F with
                          | Some v => v
                          | None => None
                          end) in *.
    destruct (objGet c C) as [ce|] eqn:G.
    + destruct (members ce) as [cm|] eqn:Mc; [|discriminate].
      destruct (members fe) as [fm|] eqn:Mf; [|discriminate].
      destruct (IH _ _ _ _ H) as (I1 & I2 & I3 & I4).
      assert (Hset : objGet (objSet C {| name := name ce; members := Some (cm ++ fm) |} c) C
                     = Some {| name := name ce; members := Some (cm ++ fm) |})
        by apply objGet_objSet_same.
      repeat split.
      * intros k v Hg. destruct (String.eqb_spec C k) as [<-|Nk].
        -- destruct (I1 _ _ Hset) as (v' & G' & N' & M').
           exists v'. split; [exact G'|]. rewrite G in Hg. inversion Hg; subst v.
           split; [exact N'|].
           intros m Hm. apply M'. unfold membersOf in *. simpl. rewrite Mc in Hm.
           apply in_or_app. auto.
        -- apply I1. rewrite objGet_objSet_other by assumption. exact Hg.
      * intros k v' Hg. destruct (I2 _ _ Hg) as (v & Hv).
        apply objGet_objSet_inv in Hv. destruct Hv as [[<- _]|[_ Hv]]; eauto.
      * exact I3.
      * intros F0 fe0 [E|Hin]; [|apply I4; exact Hin].
        inversion E; subst F0 fe0. left.
        destruct (I1 _ _ Hset) as (v' & G' & _ & M').
        exists v'. split; [exact G'|].
        intros m Hm. apply M'. unfold membersOf in *. simpl. rewrite Mf in Hm.
        apply in_or_app. auto.
    + destruct (IH _ _ _ _ H) as (I1 & I2 & I3 & I4). repeat split.
      * exact I1.
      * exact I2.
      * intros e Hin. apply I3. apply in_or_app. auto.
      * intros F0 fe0 [E|Hin]; [|apply I4; exact Hin].
        inversion E; subst F0 fe0. right.
        eexists. split; [apply I3; apply in_or_app; right; left; reflexivity|].
        split; reflexivity.
Qed.

Lemma includes_In array s : includes array s = true <-> In s array.
Proof.
  unfold includes. rewrite existsb_exists. split.
  - intros (x & Hin & E). apply String.eqb_eq in E. now subst.
  - intros Hin. exists s. split; [exact Hin | apply String.eqb_refl].
Qed.

(** What the third loop puts out for an element of the input. *)
Lemma updateElements_In sharing children elements e :
  In e elements ->
  includes folderMetadataTypes (name e) = false ->
  In (if includes folderChildMetadataTypes (name e) then objGet children (name e)
      else if includes sharing (name e)
           then Some {| name := name e; members := members e |}
           else Some e)
     (updateElements sharing children elements).
Proof.
  intros Hin Hf. induction elements as [|x rest IH]; cbn [updateElements]; [destruct Hin|].
  apply in_or_app. destruct Hin as [<-|Hin]; [left | right; exact (IH Hin)].
  rewrite Hf. destruct (includes folderChildMetadataTypes (name x)); [left; reflexivity|].
  destruct (includes sharing (name x)) eqn:Es; [|left; reflexivity].
  apply in_map_iff. exists (name x). split; [reflexivity | now apply includes_In].
Qed.

Lemma listedUnder_folder F :
  includes folderMetadataTypes F = true ->
  propertyKey match objGet FOLDER_TO_CHILD_METADATA_TYPE_MAP F with
              | Some v => v
              | None => None
              end = listedUnder F.
Proof.
  unfold listedUnder.
  change FOLDER_TO_CHILD_METADATA_TYPE_MAP
    with [("ReportFolder", Some "Report"); ("DashboardFolder", Some "Dashboard");
          ("DocumentFolder", Some "Document"); ("EmailFolder", Some "EmailTemplate")].
  unfold includes, folderMetadataTypes. cbn [objGet existsb].
  destruct ("ReportFolder" =? F); [reflexivity|].
  destruct ("DashboardFolder" =? F); [reflexivity|].
  destruct ("DocumentFolder" =? F); [reflexivity|].
  destruct ("EmailFolder" =? F); [reflexivity | discriminate].
Qed.

Lemma listedUnder_other F :
  includes folderMetadataTypes F = false -> listedUnder F = F.
Proof.
  unfold listedUnder.
  change FOLDER_TO_CHILD_METADATA_TYPE_MAP
    with [("ReportFolder", Some "Report"); ("DashboardFolder", Some "Dashboard");
          ("DocumentFolder", Some "Document"); ("EmailFolder", Some "EmailTemplate")].
  unfold includes, folderMetadataTypes. cbn [objGet existsb].
  destruct ("ReportFolder" =? F); [discriminate|].
  destruct ("DashboardFolder" =? F); [discriminate|].
  destruct ("DocumentFolder" =? F); [discriminate|].
  destruct ("EmailFolder" =? F); [discriminate | reflexivity].
Qed.

(** Every member of an element with distinct names is in what the merge
    puts out, under the type it is listed under. *)
Lemma mergeFolderMembers_keeps input registry merged e m :
  NoDup (map name input) ->
  mergeFolderMembers input registry = Ok merged ->
  In e input -> In m (membersOf e) ->
  exists e0, In (Some e0) merged /\ name e0 = listedUnder (name e)
             /\ In m (membersOf e0).
Proof.
  intros N H Hin Hm. unfold mergeFolderMembers in H.
  destruct (collectFolders input [] []) as [folders children] eqn:C.
  destruct (mergeFolders folders children []) as [[children' new]|] eqn:M; [|discriminate].
  inversion H; subst merged. clear H.
  set (sharing := match registry with Some x => x | None => [] end).
  destruct (collectFolders_kept _ _ _ _ _ N C) as (_ & K2 & _ & K4).
  destruct (mergeFolders_grows _ _ _ _ _ M) as (G1 & G2 & _ & G4).
  destruct (includes folderMetadataTypes (name e)) eqn:Ef.
  - rewrite <- (listedUnder_folder _ Ef).
    destruct (G4 _ _ (K2 _ Hin Ef)) as [(v' & Gv' & Mv')|(ne & Hne & Nne & Mne)].
    + destruct (G2 _ _ Gv') as (v & Gv).
      destruct (collectFolders_children _ _ _ _ _ _ _ C Gv)
        as [D|(Hv & Nv & Fv & Cv)]; [discriminate|].
      destruct (G1 _ _ Gv) as (v'' & Gv'' & Nv'' & _).
      rewrite Gv' in Gv''. inversion Gv''; subst v''.
      exists v'. split; [|split; [congruence | apply Mv', Hm]].
      apply in_or_app. left.
      assert (U := updateElements_In sharing children' input v Hv Fv).
      rewrite Cv, Nv, Gv' in U. exact U.
    + exists ne. split; [|split; [exact Nne|]].
      * apply in_or_app. right. now apply in_map.
      * unfold membersOf in *. now rewrite Mne.
  - rewrite (listedUnder_other _ Ef).
    assert (U := updateElements_In sharing children' input e Hin Ef).
    destruct (includes folderChildMetadataTypes (name e)) eqn:Ec.
    + destruct (G1 _ _ (K4 _ Hin Ef Ec)) as (v' & Gv' & Nv' & Mv').
      rewrite Gv' in U. exists v'.
      split; [apply in_or_app; left; exact U|]. split; [exact Nv' | apply Mv', Hm].
    + destruct (includes sharing (name e)).
      * eexists. split; [apply in_or_app; left; exact U|]. split; [reflexivity | exact Hm].
      * exists e. split; [apply in_or_app; left; exact U|]. split; [reflexivity | exact Hm].
Qed.

(** *** No member is invented *)

Lemma In_objSet_inv {V} (o : Obj V) k v k' v' :
  In (k, v) (objSet k' v' o) -> (k = k' /\ v = v') \/ In (k, v) o.
Proof.
  induction o as [|[k0 v0] r IH]; simpl.
  - intros [E|[]]. inversion E. auto.
  - destruct (k0 =? k'); simpl; intros [E|Hin]; auto.
    + inversion E. auto.
    + destruct (IH Hin); auto.
Qed.

Lemma collectFolders_among known elements :
  forall folders children folders' children',
    Forall (membersAmong known) elements ->
    (forall k v, In (k, v) folders -> membersAmong known v) ->
    (forall k v, objGet children k = Some v -> membersAmong known v) ->
    collectFolders elements folders children = (folders', children') ->
    (forall k v, In (k, v) folders' -> membersAmong known v)
    /\ (forall k v, objGet children' k = Some v -> membersAmong known v).
Proof.
  induction elements as [|e rest IH]; cbn [collectFolders]; intros f c f' c' A Hf Hc H.
  - inversion H; subst. auto.
  - inversion A as [|? ? Ae Arest]; subst.
    destruct (includes folderMetadataTypes (name e));
      [|destruct (includes folderChildMetadataTypes (name e))].
    + eapply IH; [exact Arest | | exact Hc | exact H].
      intros k v Hin. apply In_objSet_inv in Hin.
      destruct Hin as [[_ ->]|Hin]; [exact Ae | eapply Hf; eauto].
    + eapply IH; [exact Arest | exact Hf | | exact H].
      intros k v Hg. apply objGet_objSet_inv in Hg.
      destruct Hg as [[_ ->]|[_ Hg]]; [exact Ae | eapply Hc; eauto].
    + eapply IH; eauto.
Qed.

Lemma mergeFolders_among known folders :
  forall children new children' new',
    (forall k v, In (k, v) folders -> membersAmong known v) ->
    (forall k v, objGet children k = Some v -> membersAmong known v) ->
    Forall (membersAmong known) new ->
    mergeFolders folders children new = Ok (children', new') ->
    (forall k v, objGet children' k = Some v -> membersAmong known v)
    /\ Forall (membersAmong known) new'.
Proof.
  induction folders as [|[F fe] rest IH]; cbn [mergeFolders]; intros c n c' n' Hf Hc Hn H.
  - inversion H; subst. auto.
  - cbv zeta in H.
    assert (Afe : membersAmong known fe) by (eapply Hf; left; reflexivity).
    assert (Hrest : forall k v, In (k, v) rest -> membersAmong known v)
      by (intros k v Hin; eapply Hf; right; exact Hin).
    destruct (objGet c (propertyKey _)) as [ce|] eqn:G.
    + destruct (members ce) as [cm|] eqn:Mc; [|discriminate].
      destruct (members fe) as [fm|] eqn:Mf; [|discriminate].
      eapply IH; [exact Hrest | | exact Hn | exact H].
      intros k v Hg. apply objGet_objSet_inv in Hg.
      destruct Hg as [[_ ->]|[_ Hg]]; [|eapply Hc; eauto].
      assert (Ace := Hc _ _ G). unfold membersAmong, membersOf in *. simpl.
      rewrite Mc in Ace. rewrite Mf in Afe. apply incl_app; assumption.
    + eapply IH; [exact Hrest | exact Hc | | exact H].
      apply Forall_app. split; [exact Hn|]. constructor; [|constructor].
      unfold membersAmong, membersOf in *. simpl. exact Afe.
Qed.

Lemma updateElements_among known sharing children elements e0 :
  Forall (membersAmong known) elements ->
  (forall k v, objGet children k = Some v -> membersAmong known v) ->
  In (Some e0) (updateElements sharing children elements) ->
  membersAmong known e0.
Proof.
  intros A Hc. induction A as [|e rest Ae _ IH]; cbn [updateElements]; [intros []|].
  intros Hin. apply in_app_or in Hin. destruct Hin as [Hin|Hin]; [|exact (IH Hin)].
  destruct (includes folderMetadataTypes (name e)); [destruct Hin|].
  destruct (includes folderChildMetadataTypes (name e)).
  - destruct Hin as [Hin|[]]. eapply Hc. exact Hin.
  - destruct (includes sharing (name e)).
    + apply in_map_iff in Hin. destruct Hin as (s & E & _). inversion E; subst.
      exact Ae.
    + destruct Hin as [Hin|[]]. inversion Hin; subst. exact Ae.
Qed.

Lemma membersAmong_all ts : Forall (membersAmong (allMembers ts)) ts.
Proof.
  apply Forall_forall. intros e Hin m Hm. unfold allMembers.
  apply in_flat_map. eauto.
Qed.

Lemma mergeFolderMembers_among input registry merged e0 :
  mergeFolderMembers input registry = Ok merged ->
  In (Some e0) merged -> membersAmong (allMembers input) e0.
Proof.
  intros H Hin. unfold mergeFolderMembers in H.
  destruct (collectFolders input [] []) as [folders children] eqn:C.
  destruct (mergeFolders folders children []) as [[children' new]|] eqn:M; [|discriminate].
  inversion H; subst merged. clear H.
  assert (Hf0 : forall k v, In (k, v) (@nil (string * TypeEntry)) ->
                           membersAmong (allMembers input) v) by (intros k v []).
  assert (Hc0 : forall k v, objGet (@nil (string * TypeEntry)) k = Some v ->
                           membersAmong (allMembers input) v) by discriminate.
  destruct (collectFolders_among (allMembers input) _ _ _ _ _ (membersAmong_all input)
              Hf0 Hc0 C) as [Hf Hc].
  destruct (mergeFolders_among _ _ _ _ _ _ Hf Hc (Forall_nil _) M) as [Hc' Hn'].
  apply in_app_or in Hin. destruct Hin as [Hin|Hin].
  - eapply updateElements_among; [apply membersAmong_all | exact Hc' | exact Hin].
  - apply in_map_iff in Hin. destruct Hin as (x & E & Hx). inversion E; subst.
    rewrite Forall_forall in Hn'. apply Hn', Hx.
Qed.

Lemma updateElements_sharing sharing children elements e s :
  In e elements ->
  includes folderMetadataTypes (name e) = false ->
  includes folderChildMetadataTypes (name e) = false ->
  includes sharing (name e) = true ->
  In s sharing ->
  In (Some {| name := s; members := members e |})
     (updateElements sharing children elements).
Proof.
  intros Hin Hf Hc Hs Hsin.
  induction elements as [|x rest IH]; cbn [updateElements]; [destruct Hin|].
  apply in_or_app. destruct Hin as [<-|Hin]; [left | right; exact (IH Hin)].
  rewrite Hf, Hc, Hs. apply in_map_iff. exists s. auto.
Qed.

(** *** A second getPackage *)

Lemma sort_of_sorted l : Sorted lebT l -> sort l = l.
Proof.
  induction 1 as [|x l S IH Hd]; [reflexivity|].
  cbn [sort fold_right]. fold (sort l). rewrite IH.
  destruct Hd as [|y r Hxy]; cbn [insertSorted]; [reflexivity|].
  unfold lebT in Hxy. now rewrite Hxy.
Qed.

Lemma sort_sort l : sort (sort l) = sort l.
Proof. apply sort_of_sorted, sort_sorted. Qed.

Lemma collectFolders_no_folder elements :
  forall folders children,
    Forall (fun e => includes folderMetadataTypes (name e) = false) elements ->
    fst (collectFolders elements folders children) = folders.
Proof.
  induction elements as [|e rest IH]; cbn [collectFolders]; intros f c A; [reflexivity|].
  inversion A as [|? ? Ae Arest]; subst. rewrite Ae.
  destruct (includes folderChildMetadataTypes (name e)); apply IH; exact Arest.
Qed.

Lemma updateElements_kept children elements :
  Forall (fun e => includes folderMetadataTypes (name e) = false) elements ->
  (forall e, In e elements -> includes folderChildMetadataTypes (name e) = true ->
             objGet children (name e) = Some e) ->
  updateElements [] children elements = map Some elements.
Proof.
  induction 1 as [|e rest Ae _ IH]; cbn [updateElements map]; intros Hc; [reflexivity|].
  rewrite Ae, IH by (intros; apply Hc; [right|]; assumption).
  destruct (includes folderChildMetadataTypes (name e)) eqn:Ec; [|reflexivity].
  rewrite (Hc e (or_introl eq_refl) Ec). reflexivity.
Qed.

Lemma map_fixed {A} (f : A -> A) l : (forall x, In x l -> f x = x) -> map f l = l.
Proof.
  induction l as [|x r IH]; simpl; intros H; [reflexivity|].
  rewrite H by auto. rewrite IH by auto. reflexivity.
Qed.

(** What [getPackage] returns lists no folder type. *)
Lemma getPackage_no_folder
    (metadataRegistry : option (list string)) (p p' : Package)
    (Hs : forall s, In s (sharingEntitiesOf metadataRegistry) ->
                    includes folderMetadataTypes s = false)
    (H : getPackage metadataRegistry p = Ok p') :
  forall e, In e (types p') -> includes folderMetadataTypes (name e) = false.
Proof.
  unfold getPackage, mergeFolderMembers in H.
  destruct (collectFolders (types p) [] []) as [folders children] eqn:C.
  destruct (mergeFolders folders children []) as [[children' new]|] eqn:M; [|discriminate].
  destruct (sortMembers _) as [sorted|] eqn:S; [|discriminate].
  inversion H; subst. cbn [types withTypes]. intros e Hin.
  destruct (sortMembers_In _ _ _ S Hin) as (e0 & ms & Hin0 & _ & -> & _).
  assert (Hc : noFolderValue children).
  { eapply collectFolders_noFolderValue; [|exact C]. intros k v Hg. discriminate. }
  destruct (mergeFolders_noFolder _ _ _ _ _ Hc (fun e (F : In e []) => match F with end) M)
    as [Hc' Hn'].
  apply in_app_or in Hin0. destruct Hin0 as [Hin0|Hin0].
  - eapply updateElements_noFolder; [exact Hc' | exact Hs | exact Hin0].
  - apply in_map_iff in Hin0. destruct Hin0 as (x & E & Hx). inversion E; subst.
    apply Hn', Hx.
Qed.

End ManifestFacts.

(** ** Further statements about MdapiPackage *)

Section Manifest.
Import Str StrFacts MdapiPackage MdapiPackageFacts ManifestFacts.

(** X1.  [addMember] refuses a full name that is null, undefined or blank
    with the error fullNameIsRequired, whatever the type is; it refuses a
    type that is null, undefined or blank with the error
    metadataTypeIsRequired; and it succeeds in every other case. *)
Theorem addMember_requires_names
    (sep : ascii) (p : Package) (fullName type : option string) :
  (missing fullName = true ->
   addMember sep p fullName type = Throw (almError "fullNameIsRequired"))
  /\ (missing fullName = false -> missing type = true ->
      addMember sep p fullName type = Throw (almError "metadataTypeIsRequired"))
  /\ (missing fullName = false -> missing type = false ->
      exists p', addMember sep p fullName type = Ok p').
Proof.
  unfold addMember, missing.
  destruct fullName as [fn|]; [|repeat split; intros; (reflexivity || discriminate)].
  rewrite trim_blank.
  destruct (blank fn); [repeat split; intros; (reflexivity || discriminate)|].
  destruct type as [ty|]; [|repeat split; intros; (reflexivity || discriminate)].
  rewrite trim_blank.
  destruct (blank ty); [repeat split; intros; (reflexivity || discriminate)|].
  repeat split; intros; try discriminate.
  destruct (locate ty (types p)) as [[[pre e] post]|]; eexists; reflexivity.
Qed.

Lemma addMember_requires_names_witness :
  addMember "/" emptyPackage (Some "   ") None = Throw (almError "fullNameIsRequired")
  /\ addMember "/" emptyPackage (Some "A") (Some " ")
     = Throw (almError "metadataTypeIsRequired")
  /\ exists p', addMember "/" emptyPackage (Some "A") (Some "ApexClass") = Ok p'.
Proof.
  split; [|split].
  - apply (addMember_requires_names "/" emptyPackage (Some "   ") None). reflexivity.
  - apply (addMember_requires_names "/" emptyPackage (Some "A") (Some " ")); reflexivity.
  - apply (addMember_requires_names "/" emptyPackage (Some "A") (Some "ApexClass"));
      reflexivity.
Defined.

(** X2.  Adding the same member under the same type a second time changes
    nothing, provided the type name carries no surrounding white space and
    the name that is stored is not empty. *)
Theorem addMember_repeat_unchanged
    (sep : ascii) (p p1 : Package) (fn ty : string)
    (Hty : trim ty = ty)
    (Hm : storedName sep fn ty <> EmptyString)
    (H : addMember sep p (Some fn) (Some ty) = Ok p1) :
  addMember sep p1 (Some fn) (Some ty) = Ok p1
  /\ addMemberTwice sep p (Some fn) (Some ty) = Ok p1.
Proof.
  assert (H2 := addMember_idempotent sep p fn ty p1 Hty Hm H).
  split; [exact H2|]. unfold addMemberTwice. rewrite H. exact H2.
Qed.

Lemma addMember_repeat_unchanged_witness :
  addMemberTwice "/" Scenarios.bundlePackage (Some " list\view/helper.js ")
    (Some "AuraDefinitionBundle") = Ok Scenarios.bundlePackage'.
Proof.
  apply (addMember_repeat_unchanged "/" Scenarios.bundlePackage Scenarios.bundlePackage'
           " list\view/helper.js " "AuraDefinitionBundle");
    [reflexivity | discriminate | reflexivity].
Defined.

(** X3.  [addMember] keeps the members of every type free of duplicates,
    provided the name that it stores is not empty; outside the three bundle
    types that is always so. *)
Theorem addMember_keeps_members_distinct
    (sep : ascii) (p p' : Package) (fn ty : string)
    (Hd : distinctMembers (types p))
    (Hm : isBundleType ty = false \/ storedName sep fn ty <> EmptyString)
    (H : addMember sep p (Some fn) (Some ty) = Ok p') :
  distinctMembers (types p').
Proof.
  assert (Hne : storedName sep fn ty <> EmptyString).
  { destruct Hm as [Hb|Hm]; [|exact Hm].
    apply storedName_not_empty; [exact Hb|].
    unfold addMember in H. rewrite trim_blank in H.
    destruct (blank fn); [discriminate | reflexivity]. }
  apply addMember_Ok in H. simpl in H.
  intros e0 Hin.
  destruct H as [(pre & e & post & L & Hp') | (L & Hp')]; rewrite Hp' in Hin.
  - apply locate_Some in L. destruct L as (Ht & _ & _).
    apply in_app_or in Hin. destruct Hin as [Hin | [<- | Hin]].
    + apply Hd. rewrite Ht. apply in_or_app. auto.
    + apply pushMember_NoDup; [exact Hne|]. apply Hd. rewrite Ht.
      apply in_or_app. simpl. auto.
    + apply Hd. rewrite Ht. apply in_or_app. simpl. auto.
  - apply in_app_or in Hin. destruct Hin as [Hin | [<- | []]].
    + apply Hd. exact Hin.
    + apply pushMember_NoDup; [exact Hne|]. constructor.
Qed.

Lemma addMember_keeps_members_distinct_witness :
  distinctMembers (types Scenarios.bundlePackage').
Proof.
  apply (addMember_keeps_members_distinct "/" Scenarios.bundlePackage
           Scenarios.bundlePackage' " list\view/helper.js " "AuraDefinitionBundle").
  - intros e [<-|[]]. simpl. constructor; [simpl; tauto | constructor].
  - right. discriminate.
  - reflexivity.
Defined.

(** X4.  [addMember] only appends: the types that were there stay in their
    places under their names, each with its members as they were and
    possibly more at the end; and at most one type is added, at the end,
    under the trimmed type name. *)
Theorem addMember_only_appends
    (sep : ascii) (p p' : Package) (fn ty : string)
    (H : addMember sep p (Some fn) (Some ty) = Ok p') :
  exists kept added,
    types p' = kept ++ added
    /\ Forall2 extends (types p) kept
    /\ (added = []
        \/ exists e, added = [e] /\ name e = trim ty
                     /\ membersOf e = [storedName sep fn ty]).
Proof.
  apply addMember_Ok in H. simpl in H.
  destruct H as [(pre & e & post & L & Hp') | (L & Hp')]; rewrite Hp'.
  - apply locate_Some in L. destruct L as (Ht & _ & _).
    exists (pre ++ pushMember (storedName sep fn ty) e :: post), [].
    rewrite app_nil_r. split; [reflexivity|]. split; [|left; reflexivity].
    rewrite Ht. apply Forall2_app; [apply Forall2_extends_refl|].
    constructor; [apply pushMember_extends | apply Forall2_extends_refl].
  - exists (types p), [pushMember (storedName sep fn ty)
                         {| name := trim ty; members := None |}].
    split; [reflexivity|]. split; [apply Forall2_extends_refl|].
    right. eexists. split; [reflexivity|]. split; reflexivity.
Qed.

Lemma addMember_only_appends_witness :
  exists kept added,
    types Scenarios.bundlePackage' = kept ++ added
    /\ Forall2 extends (types Scenarios.bundlePackage) kept
    /\ (added = []
        \/ exists e, added = [e] /\ name e = trim "AuraDefinitionBundle"
                     /\ membersOf e
                        = [storedName "/" " list\view/helper.js " "AuraDefinitionBundle"]).
Proof.
  exact (addMember_only_appends "/" Scenarios.bundlePackage Scenarios.bundlePackage'
           " list\view/helper.js " "AuraDefinitionBundle" eq_refl).
Defined.

(** X5.  After a successful [addMember] the package is not empty, the
    stored name is listed under a type named as given or as given and
    trimmed, and the namespace, the version and the package name are as
    before. *)
Theorem addMember_then_listed
    (sep : ascii) (p p' : Package) (fn ty : string)
    (H : addMember sep p (Some fn) (Some ty) = Ok p') :
  isEmpty p' = false
  /\ (exists e, In e (types p')
                /\ (name e = ty \/ name e = trim ty)
                /\ In (storedName sep fn ty) (membersOf e))
  /\ xmlns p' = xmlns p /\ version p' = version p /\ fullName p' = fullName p.
Proof.
  assert (Hf : xmlns p' = xmlns p /\ version p' = version p /\ fullName p' = fullName p).
  { unfold addMember in H.
    destruct (String.length (trim fn) =? 0)%nat; [discriminate|].
    destruct (String.length (trim ty) =? 0)%nat; [discriminate|].
    destruct (locate ty (types p)) as [[[pre e] post]|]; inversion H; subst; auto. }
  apply addMember_Ok in H. simpl in H.
  assert (He : exists e, In e (types p')
                         /\ (name e = ty \/ name e = trim ty)
                         /\ In (storedName sep fn ty) (membersOf e)).
  { destruct H as [(pre & e & post & L & Hp') | (L & Hp')]; rewrite Hp'.
    - apply locate_Some in L. destruct L as (_ & Hn & _).
      exists (pushMember (storedName sep fn ty) e).
      split; [apply in_or_app; simpl; auto|]. split; [left; exact Hn|].
      apply pushMember_In.
    - eexists. split; [apply in_or_app; simpl; eauto|].
      split; [right; reflexivity | apply pushMember_In]. }
  split; [|split; [exact He | exact Hf]].
  destruct He as (e & Hin & _). unfold isEmpty.
  destruct (types p'); [destruct Hin | reflexivity].
Qed.

Lemma addMember_then_listed_witness :
  isEmpty Scenarios.bundlePackage' = false
  /\ (exists e, In e (types Scenarios.bundlePackage')
                /\ (name e = "AuraDefinitionBundle" \/ name e = trim "AuraDefinitionBundle")
                /\ In (storedName "/" " list\view/helper.js " "AuraDefinitionBundle")
                      (membersOf e))
  /\ xmlns Scenarios.bundlePackage' = xmlns Scenarios.bundlePackage
  /\ version Scenarios.bundlePackage' = version Scenarios.bundlePackage
  /\ fullName Scenarios.bundlePackage' = fullName Scenarios.bundlePackage.
Proof.
  exact (addMember_then_listed "/" Scenarios.bundlePackage Scenarios.bundlePackage'
           " list\view/helper.js " "AuraDefinitionBundle" eq_refl).
Defined.

(** X6.  [setVersion] accepts a version exactly when, somewhere in it, a 0
    follows a character that is not a line terminator; it then stores the
    version as given and leaves the rest of the package alone.  Any other
    version is refused with the error invalidVersionString, and a null
    version changes nothing. *)
Theorem setVersion_accepts
    (v : string) (p : Package) :
  ((exists pre c post,
      v = (pre ++ String c (String "0" post))%string /\ isLineTerminator c = false)
   -> setVersion (Some v) p
      = Ok {| xmlns := xmlns p; version := Some v; fullName := fullName p;
              types := types p |})
  /\ (~ (exists pre c post,
           v = (pre ++ String c (String "0" post))%string /\ isLineTerminator c = false)
      -> setVersion (Some v) p = Throw (almError "invalidVersionString"))
  /\ setVersion None p = Ok p.
Proof.
  unfold setVersion. split; [|split; [|reflexivity]].
  - intros (pre & c & post & -> & Hc). now rewrite matchAnywhere_version.
  - intros Hn. destruct (matchAnywhere versionPattern v) eqn:E; [|reflexivity].
    exfalso. apply Hn. now apply matchAnywhere_version_inv.
Qed.

Lemma setVersion_accepts_witness :
  setVersion (Some "45.0") emptyPackage
  = Ok {| xmlns := xmlns emptyPackage; version := Some "45.0";
          fullName := None; types := [] |}
  /\ setVersion (Some "v10") emptyPackage
     = Ok {| xmlns := xmlns emptyPackage; version := Some "v10";
             fullName := None; types := [] |}.
Proof.
  split.
  - apply (setVersion_accepts "45.0" emptyPackage).
    exists "45", "."%char, EmptyString. split; reflexivity.
  - apply (setVersion_accepts "v10" emptyPackage).
    exists "v", "1"%char, EmptyString. split; reflexivity.
Defined.

(** X7.  [zipObject] on distinct property names, none of them __proto__:
    the object has an own property for each name, holding the value at the
    same index (undefined when there is none), and no other own
    property. *)
Theorem zipObject_lookup
    (propsArray valuesArray : list string)
    (Hd : NoDup propsArray)
    (Hp : ~ In "__proto__" propsArray) :
  (forall i prop, nth_error propsArray i = Some prop ->
     objGet (zipObject propsArray valuesArray) prop = Some (nth_error valuesArray i))
  /\ (forall k, ~ In k propsArray -> objGet (zipObject propsArray valuesArray) k = None).
Proof.
  split.
  - intros i prop Hi. unfold zipObject.
    exact (zipObjectFrom_get propsArray valuesArray 0 [] i prop Hd Hp Hi).
  - intros k Hk. unfold zipObject. now rewrite zipObjectFrom_other.
Qed.

Lemma zipObject_lookup_witness :
  objGet (zipObject ["a"; "b"] ["1"]) "a" = Some (Some "1")
  /\ objGet (zipObject ["a"; "b"] ["1"]) "b" = Some None
  /\ objGet (zipObject ["a"; "b"] ["1"]) "c" = None.
Proof.
  assert (Hd : NoDup ["a"; "b"]).
  { constructor; [simpl; intros [H|[]]; discriminate|].
    constructor; [simpl; tauto | constructor]. }
  assert (Hp : ~ In "__proto__" ["a"; "b"]).
  { simpl. intros [H|[H|[]]]; discriminate. }
  destruct (zipObject_lookup ["a"; "b"] ["1"] Hd Hp) as [Hget Hnone].
  split; [exact (Hget 0%nat "a" eq_refl)|].
  split; [exact (Hget 1%nat "b" eq_refl)|].
  apply Hnone. simpl. intros [H|[H|[]]]; discriminate.
Defined.

(** X8.  [convertFolderTypeKey] and the map from folder types to their
    child types are inverse to each other: the key of a type is the folder
    type [f] exactly when the child type of [f] is that type. *)
Theorem convertFolderTypeKey_inverse
    (inherited : string -> bool) (type f : string) :
  convertFolderTypeKey inherited type = Value f
  <-> objGet FOLDER_TO_CHILD_METADATA_TYPE_MAP f = Some (Some type).
Proof.
  unfold convertFolderTypeKey, objRead, FOLDER_TO_CHILD_METADATA_TYPE_MAP.
  change (zipObject folderChildMetadataTypes folderMetadataTypes)
    with [("Report", Some "ReportFolder"); ("Dashboard", Some "DashboardFolder");
          ("Document", Some "DocumentFolder"); ("EmailTemplate", Some "EmailFolder")].
  change (zipObject folderMetadataTypes folderChildMetadataTypes)
    with [("ReportFolder", Some "Report"); ("DashboardFolder", Some "Dashboard");
          ("DocumentFolder", Some "Document"); ("EmailFolder", Some "EmailTemplate")].
  cbn [objGet].
  destruct (String.eqb_spec "Report" type) as [<-|N1];
    [|destruct (String.eqb_spec "Dashboard" type) as [<-|N2];
      [|destruct (String.eqb_spec "Document" type) as [<-|N3];
        [|destruct (String.eqb_spec "EmailTemplate" type) as [<-|N4]]]];
    (destruct (String.eqb_spec "ReportFolder" f) as [<-|M1];
     [|destruct (String.eqb_spec "DashboardFolder" f) as [<-|M2];
       [|destruct (String.eqb_spec "DocumentFolder" f) as [<-|M3];
         [|destruct (String.eqb_spec "EmailFolder" f) as [<-|M4]]]]);
    split; intros H; try discriminate; try reflexivity;
    try (inversion H; congruence);
    try (destruct (inherited type); discriminate).
Qed.

(** X9.  In the package that [getPackage] returns, the members of every
    type are defined and in ascending order. *)
Theorem getPackage_members_ascending
    (metadataRegistry : option (list string)) (p p' : Package)
    (H : getPackage metadataRegistry p = Ok p') :
  forall e, In e (types p') -> exists ms, members e = Some ms /\ ascending ms.
Proof.
  unfold getPackage in H.
  destruct (mergeFolderMembers (types p) metadataRegistry) as [merged|]; [|discriminate].
  destruct (sortMembers merged) as [sorted|] eqn:S; [|discriminate].
  inversion H; subst. cbn [types withTypes]. intros e Hin.
  destruct (sortMembers_In _ _ _ S Hin) as (e0 & ms & _ & _ & _ & M).
  exists (sort ms). split; [exact M | apply sort_ascending].
Qed.

Lemma getPackage_members_ascending_witness :
  getPackage None
    (withTypes emptyPackage [ {| name := "ApexClass"; members := Some ["B"; "A"] |} ])
  = Ok (withTypes emptyPackage [ {| name := "ApexClass"; members := Some ["A"; "B"] |} ])
  /\ exists ms, members {| name := "ApexClass"; members := Some ["A"; "B"] |} = Some ms
                /\ ascending ms.
Proof.
  split; [reflexivity|].
  exact (getPackage_members_ascending None
           (withTypes emptyPackage [ {| name := "ApexClass"; members := Some ["B"; "A"] |} ])
           (withTypes emptyPackage [ {| name := "ApexClass"; members := Some ["A"; "B"] |} ])
           eq_refl _ (or_introl eq_refl)).
Defined.

(** X10.  The package that [getPackage] returns lists no folder type,
    provided no sharing entity of the registry bears the name of one. *)
Theorem getPackage_lists_no_folder_type
    (metadataRegistry : option (list string)) (p p' : Package)
    (Hs : forall s, In s (sharingEntitiesOf metadataRegistry) ->
                    includes folderMetadataTypes s = false)
    (H : getPackage metadataRegistry p = Ok p') :
  forall e, In e (types p') -> includes folderMetadataTypes (name e) = false.
Proof. exact (getPackage_no_folder metadataRegistry p p' Hs H). Qed.

Lemma getPackage_lists_no_folder_type_witness :
  getPackage None
    (withTypes emptyPackage
       [ {| name := "ReportFolder"; members := Some ["sales"] |};
         {| name := "Report"; members := Some ["sales/q1"] |} ])
  = Ok (withTypes emptyPackage
          [ {| name := "Report"; members := Some ["sales"; "sales/q1"] |} ])
  /\ includes folderMetadataTypes
       (name {| name := "Report"; members := Some ["sales"; "sales/q1"] |}) = false.
Proof.
  split; [reflexivity|].
  apply (getPackage_lists_no_folder_type None
           (withTypes emptyPackage
              [ {| name := "ReportFolder"; members := Some ["sales"] |};
                {| name := "Report"; members := Some ["sales/q1"] |} ])
           (withTypes emptyPackage
              [ {| name := "Report"; members := Some ["sales"; "sales/q1"] |} ])).
  - intros s [].
  - reflexivity.
  - left. reflexivity.
Defined.

(** X11.  On a package whose types are neither folder types, nor folder
    child types, nor sharing entities, [getPackage] keeps the types as they
    are and in their order and sorts the members of each; it fails with a
    TypeError when the members of one of them are undefined. *)
Theorem getPackage_plain_types
    (metadataRegistry : option (list string)) (p : Package)
    (Hp : Forall (plainElement (sharingEntitiesOf metadataRegistry)) (types p)) :
  (Forall (fun e => members e <> None) (types p) ->
   getPackage metadataRegistry p = Ok (withTypes p (map withSortedMembers (types p))))
  /\ ((exists e, In e (types p) /\ members e = None) ->
      getPackage metadataRegistry p = Throw TypeError).
Proof.
  unfold getPackage, mergeFolderMembers.
  rewrite (collectFolders_plain _ _ _ _ Hp). cbn [mergeFolders].
  fold (sharingEntitiesOf metadataRegistry).
  rewrite (updateElements_plain _ _ _ Hp). cbn [map]. rewrite app_nil_r.
  split.
  - intros Hd. now rewrite (sortMembers_defined _ Hd).
  - intros (e & Hin & He). now rewrite (sortMembers_undefined _ _ Hin He).
Qed.

Lemma getPackage_plain_types_witness :
  getPackage (Some ["SharingOwnerRule"; "SharingCriteriaRule"])
    (withTypes emptyPackage
       [ {| name := "ApexClass"; members := Some ["B"; "A"] |};
         {| name := "Layout"; members := Some ["Account-Layout"] |} ])
  = Ok (withTypes emptyPackage
          [ {| name := "ApexClass"; members := Some ["A"; "B"] |};
            {| name := "Layout"; members := Some ["Account-Layout"] |} ]).
Proof.
  apply (getPackage_plain_types (Some ["SharingOwnerRule"; "SharingCriteriaRule"])
           (withTypes emptyPackage
              [ {| name := "ApexClass"; members := Some ["B"; "A"] |};
                {| name := "Layout"; members := Some ["Account-Layout"] |} ])).
  - repeat constructor.
  - repeat constructor; discriminate.
Defined.

(** X12.  [getPackage] loses no member of a package whose types bear
    distinct names: every member of a type is listed in the package it
    returns, under the folder child type when the type is a folder type and
    under the type itself otherwise. *)
Theorem getPackage_keeps_members
    (metadataRegistry : option (list string)) (p p' : Package)
    (Hd : NoDup (map name (types p)))
    (H : getPackage metadataRegistry p = Ok p') :
  forall e m, In e (types p) -> In m (membersOf e) ->
    exists e', In e' (types p') /\ name e' = listedUnder (name e)
               /\ In m (membersOf e').
Proof.
  unfold getPackage in H.
  destruct (mergeFolderMembers (types p) metadataRegistry) as [merged|] eqn:M;
    [|discriminate].
  destruct (sortMembers merged) as [sorted|] eqn:S; [|discriminate].
  inversion H; subst. cbn [types withTypes]. intros e m Hin Hm.
  destruct (mergeFolderMembers_keeps _ _ _ _ _ Hd M Hin Hm) as (e0 & Hin0 & N0 & Hm0).
  destruct (sortMembers_given _ _ _ S Hin0) as (e' & ms & Hin' & M0 & N' & M').
  exists e'. split; [exact Hin'|]. split; [congruence|].
  unfold membersOf in *. rewrite M'. rewrite M0 in Hm0. now apply sort_In.
Qed.

Lemma getPackage_keeps_members_witness :
  exists e', In e' [ {| name := "Report"; members := Some ["sales"; "sales/q1"] |} ]
             /\ name e' = listedUnder "ReportFolder" /\ In "sales" (membersOf e').
Proof.
  assert (Hd : NoDup ["ReportFolder"; "Report"]).
  { constructor; [simpl; intros [H|[]]; discriminate|].
    constructor; [simpl; tauto | constructor]. }
  apply (getPackage_keeps_members None
           (withTypes emptyPackage
              [ {| name := "ReportFolder"; members := Some ["sales"] |};
                {| name := "Report"; members := Some ["sales/q1"] |} ])
           (withTypes emptyPackage
              [ {| name := "Report"; members := Some ["sales"; "sales/q1"] |} ])
           Hd eq_refl {| name := "ReportFolder"; members := Some ["sales"] |} "sales").
  - left. reflexivity.
  - left. reflexivity.
Defined.

(** X13.  [getPackage] invents no member: every member listed in the
    package it returns was a member of some type of the package before. *)
Theorem getPackage_invents_no_member
    (metadataRegistry : option (list string)) (p p' : Package)
    (H : getPackage metadataRegistry p = Ok p') :
  forall m, In m (allMembers (types p')) -> In m (allMembers (types p)).
Proof.
  unfold getPackage in H.
  destruct (mergeFolderMembers (types p) metadataRegistry) as [merged|] eqn:M;
    [|discriminate].
  destruct (sortMembers merged) as [sorted|] eqn:S; [|discriminate].
  inversion H; subst. cbn [types withTypes]. intros m Hm.
  unfold allMembers in Hm. apply in_flat_map in Hm. destruct Hm as (e & Hin & Hm).
  destruct (sortMembers_In _ _ _ S Hin) as (e0 & ms & Hin0 & M0 & _ & M').
  apply (mergeFolderMembers_among _ _ _ _ M Hin0).
  unfold membersOf in *. rewrite M0. rewrite M' in Hm. now apply sort_In.
Qed.

Lemma getPackage_invents_no_member_witness :
  getPackage None
    (withTypes emptyPackage
       [ {| name := "Report"; members := Some ["sales/q1"] |};
         {| name := "ApexClass"; members := Some ["A"] |};
         {| name := "ReportFolder"; members := Some ["sales"] |} ])
  = Ok (withTypes emptyPackage
          [ {| name := "Report"; members := Some ["sales"; "sales/q1"] |};
            {| name := "ApexClass"; members := Some ["A"] |} ])
  /\ In "sales"
       (allMembers
          [ {| name := "Report"; members := Some ["sales/q1"] |};
            {| name := "ApexClass"; members := Some ["A"] |};
            {| name := "ReportFolder"; members := Some ["sales"] |} ]).
Proof.
  split; [reflexivity|].
  apply (getPackage_invents_no_member None
           (withTypes emptyPackage
              [ {| name := "Report"; members := Some ["sales/q1"] |};
                {| name := "ApexClass"; members := Some ["A"] |};
                {| name := "ReportFolder"; members := Some ["sales"] |} ])
           (withTypes emptyPackage
              [ {| name := "Report"; members := Some ["sales"; "sales/q1"] |};
                {| name := "ApexClass"; members := Some ["A"] |} ])
           eq_refl "sales").
  left. reflexivity.
Defined.

(** X14.  For a type that is a sharing entity of the registry, and neither
    a folder type nor a folder child type, [getPackage] lists its members,
    sorted, under every sharing entity of the registry. *)
Theorem getPackage_sharing_entities
    (childXmlNames : list string) (p p' : Package) (e : TypeEntry)
    (H : getPackage (Some childXmlNames) p = Ok p')
    (Hin : In e (types p))
    (Hf : includes folderMetadataTypes (name e) = false)
    (Hc : includes folderChildMetadataTypes (name e) = false)
    (Hs : In (name e) childXmlNames) :
  forall s, In s childXmlNames ->
    exists e', In e' (types p') /\ name e' = s
               /\ members e' = Some (sort (membersOf e)).
Proof.
  intros s Hsin. unfold getPackage, mergeFolderMembers in H.
  destruct (collectFolders (types p) [] []) as [folders children].
  destruct (mergeFolders folders children []) as [[children' new]|]; [|discriminate].
  destruct (sortMembers _) as [sorted|] eqn:S; [|discriminate].
  inversion H; subst. cbn [types withTypes].
  assert (U : In (Some {| name := s; members := members e |})
                 (updateElements childXmlNames children' (types p) ++ map Some new)).
  { apply in_or_app. left.
    apply updateElements_sharing; auto. now apply includes_In. }
  destruct (sortMembers_given _ _ _ S U) as (e' & ms & Hin' & M0 & N' & M').
  exists e'. split; [exact Hin'|]. split; [exact N'|].
  simpl in M0. unfold membersOf. rewrite M0. exact M'.
Qed.

Lemma getPackage_sharing_entities_witness :
  exists e',
    In e' [ {| name := "SharingOwnerRule"; members := Some ["Account"; "Case"] |};
            {| name := "SharingCriteriaRule"; members := Some ["Account"; "Case"] |} ]
    /\ name e' = "SharingCriteriaRule"
    /\ members e' = Some (sort ["Case"; "Account"]).
Proof.
  apply (getPackage_sharing_entities ["SharingOwnerRule"; "SharingCriteriaRule"]
           (withTypes emptyPackage
              [ {| name := "SharingOwnerRule"; members := Some ["Case"; "Account"] |} ])
           (withTypes emptyPackage
              [ {| name := "SharingOwnerRule"; members := Some ["Account"; "Case"] |};
                {| name := "SharingCriteriaRule"; members := Some ["Account"; "Case"] |} ])
           {| name := "SharingOwnerRule"; members := Some ["Case"; "Account"] |}
           eq_refl).
  - left. reflexivity.
  - reflexivity.
  - reflexivity.
  - left. reflexivity.
  - right. left. reflexivity.
Defined.

(** X22.  Without a registry, [getPackage] changes nothing when it is
    called again on the package it returned, provided the types of that
    package bear distinct names. *)
Theorem getPackage_again_unchanged
    (p p1 : Package)
    (H : getPackage None p = Ok p1)
    (Hd : NoDup (map name (types p1))) :
  getPackage None p1 = Ok p1.
Proof.
  assert (Hnf : Forall (fun e => includes folderMetadataTypes (name e) = false) (types p1)).
  { apply Forall_forall.
    apply (getPackage_no_folder None p p1); [intros s []|exact H]. }
  assert (Hs : forall e, In e (types p1) -> withSortedMembers e = e).
  { intros e Hin. unfold getPackage in H.
    destruct (mergeFolderMembers (types p) None) as [merged|]; [|discriminate].
    destruct (sortMembers merged) as [sorted|] eqn:S; [|discriminate].
    inversion H; subst. cbn [types withTypes] in Hin.
    destruct (sortMembers_In _ _ _ S Hin) as (e0 & ms & _ & _ & _ & M).
    unfold withSortedMembers, membersOf. rewrite M, sort_sort.
    destruct e as [n m]. simpl in *. now rewrite M. }
  assert (Hm : Forall (fun e => members e <> None) (types p1)).
  { apply Forall_forall. intros e Hin. rewrite <- (Hs e Hin). discriminate. }
  unfold getPackage, mergeFolderMembers.
  destruct (collectFolders (types p1) [] []) as [folders children] eqn:C.
  assert (Hf : folders = []).
  { rewrite <- (collectFolders_no_folder (types p1) [] [] Hnf). now rewrite C. }
  subst folders. cbn [mergeFolders map]. rewrite app_nil_r.
  destruct (collectFolders_kept _ _ _ _ _ Hd C) as (_ & _ & _ & K4).
  rewrite updateElements_kept.
  - rewrite (sortMembers_defined _ Hm), (map_fixed _ _ Hs).
    unfold getPackage in H.
    destruct (mergeFolderMembers (types p) None) as [merged|]; [|discriminate].
    destruct (sortMembers merged) as [sorted|]; [|discriminate].
    inversion H; subst. reflexivity.
  - exact Hnf.
  - intros e Hin Hc. apply K4; [exact Hin | | exact Hc].
    rewrite Forall_forall in Hnf. apply Hnf, Hin.
Qed.

Lemma getPackage_again_unchanged_witness :
  getPackage None
    (withTypes emptyPackage
       [ {| name := "Report"; members := Some ["sales"; "sales/q1"] |};
         {| name := "ApexClass"; members := Some ["A"] |} ])
  = Ok (withTypes emptyPackage
          [ {| name := "Report"; members := Some ["sales"; "sales/q1"] |};
            {| name := "ApexClass"; members := Some ["A"] |} ]).
Proof.
  apply (getPackage_again_unchanged
           (withTypes emptyPackage
              [ {| name := "Report"; members := Some ["sales/q1"] |};
                {| name := "ApexClass"; members := Some ["A"] |};
                {| name := "ReportFolder"; members := Some ["sales"] |} ])).
  - reflexivity.
  - constructor; [simpl; intros [E|[]]; discriminate|].
    constructor; [simpl; tauto | constructor].
Defined.

End Manifest.

(** ** More facts about PackageInstallCommand *)

Module PollFacts.
Import Str PackageInstall Traces PackageInstallFacts.



End PollFacts.

(** ** Further statements about PackageInstallCommand *)

Section InstallMore.
Import Str PackageInstall Traces PackageInstallFacts PollFacts Scenarios.



(** X16.  A number of retries that is not whole counts as the next whole
    number: [poll] runs the same, call for call, with the retries it is
    given and with their ceiling. *)
Theorem poll_counts_retries_rounded_up
    (env : Env) (context : Context) (id : string) (retries : Q) (st : St) :
  poll env context id retries st
  = poll env context id (inject_Z (Qceiling retries)) st.
Proof. apply poll_rounds_up. Qed.

End InstallMore.

Module ExecuteFacts.
Import Numbers Str PackageInstall Traces PackageInstallFacts PollFacts.

(** How the first part of [execute] can end: with an error after at most
    an alias lookup, or with the version query, made for an identifier that
    [validateId] accepts, on an API version from 36 on, with exactly one of
    the two identifier flags set. *)
Lemma resolveVersion_cases env context st out st1 :
  resolveVersion env context st = (out, st1) ->
  exists lookups,
    forallb isAliasLookup lookups = true
    /\ ((trace st1 = trace st ++ lookups /\ exists e, out = Raised e)
        \/ (exists apvId key retries interval,
              trace st1 = trace st ++ lookups ++ [VersionQuery apvId key retries interval]
              /\ validateId env apvId = true
              /\ Qltb (getApiVersion (context_org context)) 36 = false
              /\ xorb (truthy (flags_id (context_flags context)))
                      (truthy (flags_package (context_flags context))) = true
              /\ allPackageVersionId (this st1) = apvId
              /\ installationKey (this st1) = key
              /\ key = match flags_installationkey (context_flags context) with
                       | Some k => Some k
                       | None => installationKey (this st)
                       end
              /\ out = match getSubscriberPackageVersionQuery env apvId key retries interval
                       with
                       | Ok spv => Returned spv
                       | Throw e => Raised e
                       end)).
Proof.
  unfold resolveVersion. cbv zeta.
  destruct (flags_id (context_flags context)) as [i|];
    destruct (flags_package (context_flags context)) as [pk|];
    cbn [truthy];
    try destruct (Str.truthy i) eqn:Ti; try destruct (Str.truthy pk) eqn:Tp;
    cbn [negb andb orb xorb];
    unfold bind, modify, getThis, emit, ret, throw, liftResult;
    cbn [this trace retrievals];
    repeat (match goal with
            | |- context [if ?b then _ else _] => destruct b eqn:?
            | |- context [match ?x with _ => _ end] =>
                lazymatch type of x with
                | option _ => destruct x eqn:?
                | Result _ => destruct x eqn:?
                end
            end; unfold ret, throw; cbn [this trace retrievals]);
    intros H; inversion H; subst; clear H;
    cbn [this trace retrievals allPackageVersionId installationKey publishwait
         maxRetries pollIntervalMillis replicationPollIntervalMillis
         set_publishwait set_installationKey
         set_maxRetries set_allPackageVersionId set_org] in *;
    first
      [ exists []; split; [reflexivity|]; left;
        split; [now rewrite app_nil_r | eexists; reflexivity]
      | eexists [AliasLookup _]; split; [reflexivity|]; left;
        split; [reflexivity | eexists; reflexivity]
      | exists []; split; [reflexivity|]; right;
        do 4 eexists; cbn [app]; split; [reflexivity|];
        repeat (split; [first [reflexivity | eassumption]|]);
        match goal with
        | Hq : getSubscriberPackageVersionQuery _ _ _ _ _ = _ |- _ => rewrite Hq
        end; reflexivity
      | eexists [AliasLookup _]; split; [reflexivity|]; right;
        do 4 eexists; rewrite <- app_assoc; cbn [app]; split; [reflexivity|];
        repeat (split; [first [reflexivity | eassumption]|]);
        match goal with
        | Hq : getSubscriberPackageVersionQuery _ _ _ _ _ = _ |- _ => rewrite Hq
        end; reflexivity ].
Qed.

(** *** Which events a part may add *)

Lemma adding_refl ok st : adding ok st st.
Proof. exists []. now rewrite app_nil_r. Qed.

Lemma adding_trans ok a b c : adding ok a b -> adding ok b c -> adding ok a c.
Proof.
  intros (e1 & T1 & Q1) (e2 & T2 & Q2). exists (e1 ++ e2).
  rewrite T2, T1, app_assoc, forallb_app, Q1, Q2. auto.
Qed.

Lemma adding_weaken (ok ok' : Event -> bool) st st' :
  (forall e, ok e = true -> ok' e = true) -> adding ok st st' -> adding ok' st st'.
Proof.
  intros Hw (evs & T & Q). exists evs. split; [exact T|].
  rewrite forallb_forall in *. auto.
Qed.

Lemma adding_emit ok e : ok e = true -> steps (adding ok) (emit e).
Proof.
  intros Q st out st' H. inversion H; subst; simpl.
  exists [e]. simpl. now rewrite Q.
Qed.

Lemma adding_modify ok f : steps (adding ok) (modify f).
Proof.
  intros st out st' H. inversion H; subst; simpl. exists []. now rewrite app_nil_r.
Qed.

Lemma adding_retrieve ok env id :
  ok (Retrieve id) = true -> steps (adding ok) (retrieve env id).
Proof.
  intros Q st out st'. unfold retrieve.
  destruct (toolingRetrieve env (retrievals st) id); simpl; intros H;
    inversion H; subst; simpl; exists [Retrieve id]; simpl; now rewrite Q.
Qed.

Ltac adding_step ok :=
  steps_step (adding_refl ok) (adding_trans ok)
    ltac:(first [ apply adding_modify
                | apply adding_emit; reflexivity
                | apply adding_retrieve; first [reflexivity | apply String.eqb_refl] ]).

Lemma polling_pollFrom env context id fuel :
  forall retries, steps (adding (polling id)) (pollFrom env fuel context id retries).
Proof.
  induction fuel as [|fuel IH]; intros retries; rewrite pollFrom_eq;
    cbv zeta; repeat adding_step (polling id); apply IH.
Qed.

Lemma early_prompt noninteractive msg : steps (adding early) (_prompt noninteractive msg).
Proof. unfold _prompt. repeat adding_step early. Qed.

Lemma early_confirm context spv : steps (adding early) (confirm context spv).
Proof.
  unfold confirm. cbv zeta. repeat first [apply early_prompt | adding_step early].
Qed.

Lemma early_constructRequest context spv enable :
  steps (adding early) (constructRequest context spv enable).
Proof.
  unfold constructRequest, assign. cbv zeta. repeat adding_step early.
Qed.

Lemma early_resolveVersion env context : steps (adding early) (resolveVersion env context).
Proof. unfold resolveVersion. cbv zeta. repeat adding_step early. Qed.

(** With [--noprompt] the confirmations ask nothing. *)
Lemma notPrompt_confirm context spv :
  flags_noprompt (context_flags context) = true ->
  steps (adding notPrompt) (confirm context spv).
Proof.
  intros Hn. unfold confirm, _prompt. cbv zeta. rewrite Hn.
  repeat adding_step notPrompt.
Qed.

Lemma notPrompt_of_polling id e : polling id e = true -> notPrompt e = true.
Proof. destruct e; simpl; congruence. Qed.

(** *** The instance during the confirmations *)

Lemma sameThis_refl st : sameThis st st.
Proof. reflexivity. Qed.

Lemma sameThis_trans a b c : sameThis a b -> sameThis b c -> sameThis a c.
Proof. unfold sameThis. congruence. Qed.

Lemma sameThis_confirm context spv : steps sameThis (confirm context spv).
Proof.
  unfold confirm, _prompt. cbv zeta.
  repeat steps_step sameThis_refl sameThis_trans
         ltac:(intros st out st' H; inversion H; subst; reflexivity).
Qed.

(** What the confirmations return: external sites are enabled when there
    are trusted sites and the prompt about them is answered with a yes,
    which [--noprompt] does by itself. *)
Lemma confirm_returns context spv st enable st2 :
  confirm context spv st = (Returned enable, st2) ->
  enable
  = (0 <? List.length (sitesOf spv))%nat
    && (flags_noprompt (context_flags context)
        || match stdinPrompt (this st) with
           | Some ask =>
               affirmative (ask (Lookup "promptRss" [Str.join LF (sitesOf spv)]
                                   "package_install"))
           | None => false
           end).
Proof.
  unfold confirm, _prompt, sitesOf, affirmative. cbv zeta.
  unfold bind, getThis, emit, ret, throw. cbn [this trace retrievals].
  repeat (match goal with
          | |- context [if ?b then _ else _] => destruct b eqn:?
          | |- context [match ?x with _ => _ end] =>
              lazymatch type of x with
              | option _ => destruct x eqn:?
              end
          end; cbn [this trace retrievals negb andb orb]);
    intros H; inversion H; subst; clear H;
    cbn [negb andb orb]; rewrite ?andb_false_r, ?andb_true_r, ?orb_true_r;
    try reflexivity; try discriminate.
  congruence.
Qed.

(** The fixed properties of the request. *)
Lemma constructRequest_fields context spv enable st :
  exists st3,
    constructRequest context spv enable st = (Returned tt, st3)
    /\ subscriberPackageVersionKey (packageInstallRequest (this st3))
       = Some (allPackageVersionId (this st))
    /\ password (packageInstallRequest (this st3)) = Some (installationKey (this st))
    /\ nameConflictResolution (packageInstallRequest (this st3)) = Some "Block"
    /\ packageInstallSource (packageInstallRequest (this st3)) = Some "U"
    /\ enableRss (packageInstallRequest (this st3)) = Some enable.
Proof.
  unfold constructRequest, bind, getThis, assign, modify, emit, ret. cbv zeta.
  destruct (negb (strictEq (flags_upgradetype (context_flags context)) UPGRADE_TYPE_KEY_MIXED));
    destruct (negb (strictEq (flags_apexcompile (context_flags context)) APEX_COMPILE_KEY_ALL));
    destruct (isUnlocked spv); simpl;
    eexists; (split; [reflexivity|]); simpl; auto.
Qed.

Lemma notPrompt_poll env context id retries :
  steps (adding notPrompt) (poll env context id retries).
Proof.
  intros st out st' H. unfold poll in H. apply polling_pollFrom in H.
  eapply adding_weaken; [apply notPrompt_of_polling | exact H].
Qed.

Lemma notPrompt_pollNumber env context id n :
  steps (adding notPrompt) (pollNumber env context id n).
Proof.
  apply steps_pollNumber. intros fuel retries st out st' H.
  apply polling_pollFrom in H.
  eapply adding_weaken; [apply notPrompt_of_polling | exact H].
Qed.

Lemma notPrompt_execute env context :
  flags_noprompt (context_flags context) = true ->
  steps (adding notPrompt) (execute env context).
Proof.
  intros Hn. unfold execute.
  apply (steps_bind _ (adding_trans notPrompt)).
  { unfold resolveVersion. cbv zeta. repeat adding_step notPrompt. }
  intros spv. apply (steps_bind _ (adding_trans notPrompt)).
  { apply notPrompt_confirm, Hn. }
  intros enable. apply (steps_bind _ (adding_trans notPrompt)).
  { unfold constructRequest, assign. cbv zeta. repeat adding_step notPrompt. }
  intros _. unfold submit.
  repeat first [apply notPrompt_pollNumber | adding_step notPrompt].
Qed.

(** The first event of [poll] is the retrieval of the request; all its
    events are events of polling that request. *)
Lemma pollFrom_first_retrieves env context id fuel retries st out st' :
  pollFrom env fuel context id retries st = (out, st') ->
  exists evs, trace st' = trace st ++ Retrieve id :: evs
              /\ forallb (polling id) evs = true.
Proof.
  rewrite pollFrom_eq. unfold bind at 1 2. unfold modify, retrieve.
  cbn [this trace retrievals].
  destruct (toolingRetrieve env (retrievals st) id) as [request|e]; cbn [liftResult].
  - unfold ret at 1. intros H.
    assert (S : adding (polling id)
                  {| this := set_org (context_org context) (this st);
                     trace := trace st ++ [Retrieve id];
                     retrievals := S (retrievals st) |} st').
    { revert H. generalize ({| this := set_org (context_org context) (this st);
                               trace := trace st ++ [Retrieve id];
                               retrievals := S (retrievals st) |}).
      intros s0 H. revert s0 out st' H.
      change (steps (adding (polling id))
                (if Status request =? "SUCCESS" then ret request
                 else if Status request =? "ERROR" then
                   let err := readInstallErrorsAsString request in
                   emit (LogError (Text "Encountered errors installing the package!") err) ;;
                   throw (Error (Text err))
                 else if Qltb 0 retries then
                   emit (Log (Lookup "installStatus" [Status request] "packaging")) ;;
                   c <- getThis ;;
                   emit (Delay (pollIntervalMillis c)) ;;
                   match fuel with
                   | S fuel' => pollFrom env fuel' context id (retries - 1)%Q
                   | O => outOfFuel
                   end
                 else ret request)).
      cbv zeta. repeat adding_step (polling id). apply polling_pollFrom. }
    destruct S as (evs & T & Q). cbn [trace] in T.
    exists evs. rewrite T, <- app_assoc. split; [reflexivity | exact Q].
  - unfold throw. intros H. inversion H; subst. cbn [trace].
    exists []. split; reflexivity.
Qed.

(** What the parts after the first add to the trace. *)
Lemma rest_of_execute_appends env context spv :
  steps (adding (fun _ => true))
    (enableExternalSites <- confirm context spv ;;
     constructRequest context spv enableExternalSites ;;
     submit env context).
Proof.
  apply (steps_bind _ (adding_trans _)).
  { intros st out st' H. apply early_confirm in H.
    eapply adding_weaken; [|exact H]. reflexivity. }
  intros enable. apply (steps_bind _ (adding_trans _)).
  { intros st out st' H. apply early_constructRequest in H.
    eapply adding_weaken; [|exact H]. reflexivity. }
  intros _. unfold submit.
  repeat first
    [ adding_step (fun _ : Event => true)
    | apply steps_pollNumber; intros fuel retries st out st' H;
      apply polling_pollFrom in H;
      eapply adding_weaken; [|exact H]; reflexivity ].
Qed.

(** The confirmations let the invocation go on when the confirmation of
    [--upgradetype Delete], where it is due, is given, and when there is
    something to ask about the trusted sites with, whatever the answer. *)
Lemma confirm_proceeds context spv st :
  (deleteAsked context spv = true ->
   answerTo context (this st) (Lookup "promptUpgradeType" [] "package_install")
   = Some true) ->
  ((0 <? List.length (sitesOf spv))%nat = true ->
   answerTo context (this st)
     (Lookup "promptRss" [Str.join LF (sitesOf spv)] "package_install") <> None) ->
  exists enable st2, confirm context spv st = (Returned enable, st2).
Proof.
  unfold confirm, _prompt, sitesOf, affirmative, deleteAsked, answerTo. cbv zeta.
  unfold bind, getThis, emit, ret, throw. cbn [this trace retrievals].
  intros Hd Hs.
  repeat (match goal with
          | |- context [if ?b then _ else _] => destruct b eqn:?
          | |- context [match ?x with _ => _ end] =>
              lazymatch type of x with
              | option _ => destruct x eqn:?
              end
          | H : context [if ?b then _ else _] |- _ => destruct b eqn:?
          | H : context [match ?x with _ => _ end] |- _ =>
              lazymatch type of x with
              | option _ => destruct x eqn:?
              end
          end; cbn [this trace retrievals negb andb orb] in *);
    try (do 2 eexists; reflexivity);
    try (specialize (Hd eq_refl); congruence);
    try (specialize (Hs eq_refl); congruence);
    match goal with
    | H : negb _ = true |- _ =>
        first [ vm_compute in H; discriminate
              | specialize (Hd eq_refl); injection Hd as Hd;
                unfold affirmative in Hd; rewrite Hd in H; discriminate ]
    end.
Qed.

(** *** The parts of an invocation *)

Lemma resolveVersion_total env context : total (resolveVersion env context).
Proof. unfold resolveVersion. cbv zeta. repeat total_step. Qed.

Lemma confirm_total context spv : total (confirm context spv).
Proof.
  unfold confirm. cbv zeta. repeat first [apply total_prompt | total_step].
Qed.

(** An invocation stops with an error before its create call, or goes
    through its four parts. *)
Lemma execute_parts env context st out st' :
  execute env context st = (out, st') ->
  (adding early st st' /\ exists e, out = Raised e)
  \/ exists spv st1 enable st2 st3,
       resolveVersion env context st = (Returned spv, st1)
       /\ confirm context spv st1 = (Returned enable, st2)
       /\ constructRequest context spv enable st2 = (Returned tt, st3)
       /\ adding early st st3
       /\ submit env context st3 = (out, st').
Proof.
  unfold execute. unfold bind at 1.
  destruct (resolveVersion env context st) as [o1 st1] eqn:E1.
  assert (A1 := early_resolveVersion _ _ _ _ _ E1).
  assert (T1 := resolveVersion_total env context st). rewrite E1 in T1. cbn [fst] in T1.
  destruct o1 as [spv|e|];
    [| intros H; inversion H; subst; left; eauto | contradiction].
  unfold bind at 1.
  destruct (confirm context spv st1) as [o2 st2] eqn:E2.
  assert (A2 := adding_trans _ _ _ _ A1 (early_confirm _ _ _ _ _ E2)).
  assert (T2 := confirm_total context spv st1). rewrite E2 in T2. cbn [fst] in T2.
  destruct o2 as [enable|e|];
    [| intros H; inversion H; subst; left; eauto | contradiction].
  unfold bind at 1.
  destruct (constructRequest_fields context spv enable st2) as (st3 & E3 & _).
  rewrite E3. intros H. right.
  exists spv, st1, enable, st2, st3.
  split; [reflexivity|]. split; [exact E2|]. split; [exact E3|].
  split; [|exact H].
  exact (adding_trans _ _ _ _ A2 (early_constructRequest _ _ _ _ _ _ E3)).
Qed.

(** The last part: the create call, and then nothing but the polling of
    the request whose id the call returned. *)
Lemma submit_cases env context st out st' :
  submit env context st = (out, st') ->
  match toolingCreate env (packageInstallRequest (this st)) with
  | Throw e => out = Raised e /\ st' = afterCreate st
  | Ok result =>
      match createdId result with
      | None =>
          out = Raised (Error (Text ("Failed to create PackageInstallRequest for: "
                                     ++ show (allPackageVersionId (this st)))))
          /\ st' = afterCreate st
      | Some id =>
          pollNumber env context id (maxRetries (this st)) (afterCreate st) = (out, st')
      end
  end.
Proof.
  unfold submit, afterCreate, bind, getThis, emit. cbn [this trace retrievals].
  destruct (toolingCreate env (packageInstallRequest (this st))) as [result|e];
    cbn [liftResult ret throw].
  - unfold ret. destruct (createdId result) as [id|].
    + intros H. exact H.
    + unfold throw. intros H. inversion H; subst. split; reflexivity.
  - unfold throw. intros H. inversion H; subst. split; reflexivity.
Qed.

Lemma pollNumber_first_retrieves env context id n st out st' :
  pollNumber env context id n st = (out, st') ->
  exists evs, trace st' = trace st ++ Retrieve id :: evs
              /\ forallb (polling id) evs = true.
Proof.
  unfold pollNumber, poll. destruct (countdown n); apply pollFrom_first_retrieves.
Qed.

(** *** The retry budget and the count of retrievals *)







Lemma sameCount_refl st : sameCount st st.
Proof. reflexivity. Qed.

Lemma sameCount_trans a b c : sameCount a b -> sameCount b c -> sameCount a c.
Proof. unfold sameCount. congruence. Qed.

Ltac sameCount_step :=
  steps_step sameCount_refl sameCount_trans
    ltac:(intros st out st' H; inversion H; subst; reflexivity).

(** Nothing is retrieved before the create call. *)
Lemma sameCount_resolveVersion env context : steps sameCount (resolveVersion env context).
Proof. unfold resolveVersion. cbv zeta. repeat sameCount_step. Qed.

Lemma sameCount_confirm context spv : steps sameCount (confirm context spv).
Proof. unfold confirm, _prompt. cbv zeta. repeat sameCount_step. Qed.

Lemma sameCount_constructRequest context spv enable :
  steps sameCount (constructRequest context spv enable).
Proof. unfold constructRequest, assign. cbv zeta. repeat sameCount_step. Qed.







End ExecuteFacts.

(** ** Statements about whole invocations *)

Section ExecuteMore.
Import Str PackageInstall Traces PackageInstallFacts PollFacts ExecuteFacts Scenarios.

(** X17.  An invocation does nothing but look an alias up until its input
    is validated: either it raises having done at most that, or exactly one
    of the two identifier flags is set, the API version is 36 or higher, and
    the first thing after the lookup is the version query, made for an
    identifier that [validateId] accepts. *)
Theorem remote_calls_follow_validation
    (env : Env) (context : Context) (c : Command)
    (out : Outcome PackageInstallRequest) (st' : St)
    (Hrun : execute env context (start c) = (out, st')) :
  (forallb isAliasLookup (trace st') = true /\ exists e, out = Raised e)
  \/ (xorb (truthy (flags_id (context_flags context)))
           (truthy (flags_package (context_flags context))) = true
      /\ Qltb (getApiVersion (context_org context)) 36 = false
      /\ exists lookups apvId key retries interval rest,
           trace st' = lookups ++ VersionQuery apvId key retries interval :: rest
           /\ forallb isAliasLookup lookups = true
           /\ validateId env apvId = true).
Proof.
  unfold execute in Hrun. unfold bind at 1 in Hrun.
  destruct (resolveVersion env context (start c)) as [o st1] eqn:E1.
  destruct (resolveVersion_cases _ _ _ _ _ E1)
    as (lookups & Ql & [(T & e & ->)|(a & k & r & i & T & V & A & X & _ & _ & _ & Ho)]).
  - inversion Hrun; subst. left. rewrite T. split; [exact Ql | eauto].
  - right. split; [exact X|]. split; [exact A|].
    cbn [start trace app] in T.
    destruct (getSubscriberPackageVersionQuery env a k r i) as [spv|e]; subst o.
    + apply rest_of_execute_appends in Hrun. destruct Hrun as (evs & T' & _).
      exists lookups, a, k, r, i, evs. rewrite T', T, <- app_assoc. auto.
    + inversion Hrun; subst. exists lookups, a, k, r, i, []. rewrite T. auto.
Qed.

Lemma remote_calls_follow_validation_witness :
  (forallb isAliasLookup
     (trace (snd (execute (remote "Unlocked" "SUCCESS" None) (contextOf plainFlags)
                    (start (constructor None))))) = true
   /\ exists e, fst (execute (remote "Unlocked" "SUCCESS" None) (contextOf plainFlags)
                       (start (constructor None))) = Raised e)
  \/ (xorb (truthy (flags_id plainFlags)) (truthy (flags_package plainFlags)) = true
      /\ Qltb (getApiVersion someOrg) 36 = false
      /\ exists lookups apvId key retries interval rest,
           trace (snd (execute (remote "Unlocked" "SUCCESS" None) (contextOf plainFlags)
                         (start (constructor None))))
           = lookups ++ VersionQuery apvId key retries interval :: rest
           /\ forallb isAliasLookup lookups = true
           /\ validateId (remote "Unlocked" "SUCCESS" None) apvId = true).
Proof.
  exact (remote_calls_follow_validation (remote "Unlocked" "SUCCESS" None)
           (contextOf plainFlags) (constructor None) _ _ (surjective_pairing _)).
Defined.

(** X18.  The request of every create call is for an identifier that
    [validateId] accepts; its password is the installation key of the flag,
    or the one of the instance when the flag is missing; and it asks to
    block on name conflicts, with the install source U. *)
Theorem created_request_is_validated
    (env : Env) (context : Context) (c : Command)
    (out : Outcome PackageInstallRequest) (st' : St) (payload : InstallRequest)
    (Hrun : execute env context (start c) = (out, st'))
    (Hin : In (Create payload) (trace st')) :
  (exists apvId, subscriberPackageVersionKey payload = Some apvId
                 /\ validateId env apvId = true)
  /\ password payload
     = Some match flags_installationkey (context_flags context) with
            | Some k => Some k
            | None => installationKey c
            end
  /\ nameConflictResolution payload = Some "Block"
  /\ packageInstallSource payload = Some "U".
Proof.
  destruct (execute_created _ _ _ _ _ _ Hrun Hin)
    as (spv & st1 & enable & st2 & st3 & E1 & E2 & E3 & _ & -> & _).
  destruct (resolveVersion_cases _ _ _ _ _ E1)
    as (lookups & _ & [(_ & e & D)|(a & k & r & i & _ & V & _ & _ & Ha & Hk & Hk' & _)]);
    [discriminate|].
  apply sameThis_confirm in E2. unfold sameThis in E2.
  destruct (constructRequest_fields context spv enable st2)
    as (st3' & E3' & F1 & F2 & F3 & F4 & _).
  rewrite E3 in E3'. inversion E3'; subst st3'.
  rewrite F1, F2, F3, F4, E2, Ha, Hk. subst k. cbn [start this] in *.
  repeat split; eauto. now rewrite Hk'.
Qed.

Lemma created_request_is_validated_witness :
  (exists apvId, subscriberPackageVersionKey plainPayload = Some apvId
                 /\ validateId (remote "Unlocked" "SUCCESS" None) apvId = true)
  /\ password plainPayload = Some None
  /\ nameConflictResolution plainPayload = Some "Block"
  /\ packageInstallSource plainPayload = Some "U".
Proof.
  assert (Hin : In (Create plainPayload)
                   (trace (snd (execute (remote "Unlocked" "SUCCESS" None)
                                  (contextOf plainFlags) (start (constructor None))))))
    by (vm_compute; right; left; reflexivity).
  exact (created_request_is_validated (remote "Unlocked" "SUCCESS" None)
           (contextOf plainFlags) (constructor None) _ _ plainPayload
           (surjective_pairing _) Hin).
Defined.

(** X19.  An invocation makes at most one create call.  Before it there are
    only alias lookup, version query, prompts and log lines, and without it
    the invocation raises.  When the call fails the invocation raises its
    error, and when it answers without an id the invocation raises the
    failure to create; nothing is done after either.  When the call answers
    with an id, what follows is the polling of the request of that id with
    the retries held in [this.maxRetries], and that is where the outcome of
    the invocation comes from: it starts with a retrieval, and every
    retrieval is of that id. *)
Theorem execute_creates_once_then_polls
    (env : Env) (context : Context) (c : Command)
    (out : Outcome PackageInstallRequest) (st' : St)
    (Hrun : execute env context (start c) = (out, st')) :
  (forallb early (trace st') = true /\ exists e, out = Raised e)
  \/ exists before payload after,
       trace st' = before ++ Create payload :: after
       /\ forallb early before = true
       /\ match toolingCreate env payload with
          | Throw e => after = [] /\ out = Raised e
          | Ok result =>
              match createdId result with
              | None =>
                  after = []
                  /\ out = Raised (Error (Text ("Failed to create PackageInstallRequest for: "
                                                ++ show (allPackageVersionId (this st')))))
              | Some id =>
                  (exists rest, after = Retrieve id :: rest)
                  /\ forallb (polling id) after = true
                  /\ exists st3,
                       trace st3 = before
                       /\ retrievals st3 = 0%nat
                       /\ packageInstallRequest (this st3) = payload
                       /\ pollNumber env context id (maxRetries (this st3)) (afterCreate st3)
                          = (out, st')
              end
          end.
Proof.
  destruct (execute_parts _ _ _ _ _ Hrun)
    as [((evs & T & Q) & e & ->)
       |(spv & st1 & enable & st2 & st3 & E1 & E2 & E3 & (before & T3 & Q3) & Hs)].
  { left. cbn [start trace app] in T. rewrite T. eauto. }
  right. cbn [start trace app] in T3.
  assert (C : retrievals st3 = 0%nat).
  { assert (C1 := sameCount_resolveVersion _ _ _ _ _ E1).
    assert (C2 := sameCount_confirm _ _ _ _ _ E2).
    assert (C3 := sameCount_constructRequest _ _ _ _ _ _ E3).
    unfold sameCount in *. cbn [start retrievals] in C1. congruence. }
  exists before, (packageInstallRequest (this st3)).
  apply submit_cases in Hs.
  destruct (toolingCreate env (packageInstallRequest (this st3))) as [result|e].
  - destruct (createdId result) as [id|].
    + destruct (pollNumber_first_retrieves _ _ _ _ _ _ _ Hs) as (evs & T & Q).
      unfold afterCreate in T. cbn [trace] in T.
      exists (Retrieve id :: evs). rewrite T, T3, <- app_assoc.
      split; [reflexivity|]. split; [exact Q3|].
      split; [exists evs; reflexivity|].
      split; [cbn [forallb polling]; now rewrite String.eqb_refl, Q|].
      exists st3. repeat (split; [first [reflexivity | assumption]|]). exact Hs.
    + destruct Hs as [-> ->]. exists []. unfold afterCreate. cbn [trace this].
      rewrite T3. repeat split. exact Q3.
  - destruct Hs as [-> ->]. exists []. unfold afterCreate. cbn [trace this].
    rewrite T3. repeat split. exact Q3.
Qed.

Lemma execute_creates_once_then_polls_witness :
  (forallb early
     (trace (snd (execute (remote "Unlocked" "SUCCESS" None) (contextOf plainFlags)
                    (start (constructor None))))) = true
   /\ exists e, fst (execute (remote "Unlocked" "SUCCESS" None) (contextOf plainFlags)
                       (start (constructor None))) = Raised e)
  \/ exists before payload after,
       trace (snd (execute (remote "Unlocked" "SUCCESS" None) (contextOf plainFlags)
                     (start (constructor None))))
       = before ++ Create payload :: after
       /\ forallb early before = true
       /\ (exists rest, after = Retrieve "0Hf000000000001" :: rest)
       /\ forallb (polling "0Hf000000000001") after = true
       /\ exists st3,
            trace st3 = before
            /\ retrievals st3 = 0%nat
            /\ packageInstallRequest (this st3) = payload
            /\ pollNumber (remote "Unlocked" "SUCCESS" None) (contextOf plainFlags)
                 "0Hf000000000001" (maxRetries (this st3)) (afterCreate st3)
               = (fst (execute (remote "Unlocked" "SUCCESS" None) (contextOf plainFlags)
                         (start (constructor None))),
                  snd (execute (remote "Unlocked" "SUCCESS" None) (contextOf plainFlags)
                         (start (constructor None)))).
Proof.
  exact (execute_creates_once_then_polls (remote "Unlocked" "SUCCESS" None)
           (contextOf plainFlags) (constructor None) _ _ (surjective_pairing _)).
Defined.

(** X20.  With [--noprompt] an invocation never asks the user anything. *)
Theorem noprompt_never_prompts
    (env : Env) (context : Context) (c : Command)
    (out : Outcome PackageInstallRequest) (st' : St)
    (Hn : flags_noprompt (context_flags context) = true)
    (Hrun : execute env context (start c) = (out, st')) :
  forall m, ~ In (Prompt m) (trace st').
Proof.
  destruct (notPrompt_execute env context Hn _ _ _ Hrun) as (evs & T & Q).
  cbn [start trace app] in T. rewrite T. intros m Hin.
  rewrite forallb_forall in Q. apply Q in Hin. discriminate.
Qed.

Lemma noprompt_never_prompts_witness :
  flags_noprompt plainFlags = true
  /\ ~ In (Prompt (Lookup "promptRss" [Str.join LF (sitesOf versionWithSites)]
                     "package_install"))
          (trace (snd (execute remoteWithSites (contextOf plainFlags)
                         (start (constructor sayNo))))).
Proof.
  split; [reflexivity|].
  exact (noprompt_never_prompts remoteWithSites (contextOf plainFlags)
           (constructor sayNo) _ _ eq_refl (surjective_pairing _) _).
Defined.

(** X21.  The request of a create call enables external sites exactly when
    the fetched version declares trusted sites and the prompt about them is
    answered with yes or y, in any case of letters; [--noprompt] answers it
    so.  A prompt about the sites that is answered otherwise does not stop
    the invocation: once the version is fetched the create call is made,
    unless the confirmation of [--upgradetype Delete] is due and not given,
    or there is nothing to ask with. *)
Theorem external_sites_need_consent
    (env : Env) (context : Context) (c : Command)
    (spv : SubscriberPackageVersion) (st1 : St)
    (out : Outcome PackageInstallRequest) (st' : St)
    (Hfetch : resolveVersion env context (start c) = (Returned spv, st1))
    (Hrun : execute env context (start c) = (out, st')) :
  (forall payload,
     In (Create payload) (trace st') ->
     enableRss payload
     = Some ((0 <? List.length (sitesOf spv))%nat
             && (flags_noprompt (context_flags context)
                 || match stdinPrompt c with
                    | Some ask =>
                        affirmative (ask (Lookup "promptRss" [Str.join LF (sitesOf spv)]
                                            "package_install"))
                    | None => false
                    end)))
  /\ ((deleteAsked context spv = true ->
       answerTo context c (Lookup "promptUpgradeType" [] "package_install") = Some true) ->
      ((0 <? List.length (sitesOf spv))%nat = true ->
       answerTo context c (Lookup "promptRss" [Str.join LF (sitesOf spv)] "package_install")
       <> None) ->
      exists payload, In (Create payload) (trace st')).
Proof.
  destruct (background_resolveVersion _ _ _ _ _ Hfetch) as (_ & P & _).
  cbn [start this] in P. split.
  - intros payload Hin.
    destruct (execute_created _ _ _ _ _ _ Hrun Hin)
      as (spv' & st1' & enable & st2 & st3 & E1 & E2 & E3 & _ & -> & _).
    rewrite Hfetch in E1. inversion E1; subst spv' st1'. clear E1.
    apply confirm_returns in E2 as Hen. rewrite P in Hen.
    destruct (constructRequest_fields context spv enable st2)
      as (st3' & E3' & _ & _ & _ & _ & F5).
    rewrite E3 in E3'. inversion E3'; subst st3'.
    rewrite F5, Hen. reflexivity.
  - intros Hd Hs.
    destruct (confirm_proceeds context spv st1) as (enable & st2 & E2);
      [unfold answerTo; rewrite P; exact Hd | unfold answerTo; rewrite P; exact Hs |].
    destruct (constructRequest_fields context spv enable st2) as (st3 & E3 & _).
    unfold execute, bind in Hrun. rewrite Hfetch, E2, E3 in Hrun.
    apply submit_run in Hrun. destruct Hrun as (evs & T & _).
    exists (packageInstallRequest (this st3)). rewrite T.
    apply in_or_app. right. left. reflexivity.
Qed.

Lemma external_sites_need_consent_witness :
  exists payload,
    In (Create payload)
       (trace (snd (execute remoteWithSites (contextOf askFlags)
                      (start (constructor sayNo)))))
    /\ enableRss payload = Some false.
Proof.
  assert (Hfetch : resolveVersion remoteWithSites (contextOf askFlags)
                     (start (constructor sayNo))
                   = (Returned versionWithSites,
                      snd (resolveVersion remoteWithSites (contextOf askFlags)
                             (start (constructor sayNo)))))
    by (vm_compute; reflexivity).
  destruct (external_sites_need_consent remoteWithSites (contextOf askFlags)
              (constructor sayNo) versionWithSites _ _ _
              Hfetch (surjective_pairing _)) as [Hall Hex].
  destruct Hex as (payload & Hin); [discriminate | discriminate |].
  exists payload. split; [exact Hin | exact (Hall payload Hin)].
Defined.

End ExecuteMore.

(** ** The retry budgets *)

Module BudgetFacts.
Import Numbers PackageInstall Traces NumbersFacts.
Local Open Scope Z_scope.



End BudgetFacts.

Section Budgets.
Import Numbers Str PackageInstall Traces Scenarios.
Import NumbersFacts PackageInstallFacts PollFacts ExecuteFacts BudgetFacts.




End Budgets.
